(** * Metadata extraction processors: a shallow embedding

  The development follows [metadata-extraction.processor.ts]: the
  [MetadataExtractionProcessor] (geocoder initialisation, the scan
  dispatcher, image and video extraction, reverse geocoding) and the
  [SidecarProcessor].

  - JavaScript values are an inductive type; [undefined] and [null] are
    kept apart because the source tests [=== null] and uses [??].
  - Numbers are IEEE doubles in the source.  The model keeps [NaN], the two
    infinities and the negative zero, and represents every other double by
    the rational it denotes; arithmetic on rationals is exact, with no
    rounding to the nearest double.  The model and the source agree where
    the source does not round: on integers below 2^53 and on the results
    that are doubles themselves.  A statement about all inputs of an
    arithmetic operation carries the bounds under which this holds.
  - Asynchronous handlers are sequential programs in a state-and-exception
    monad over a [World] (asset table, metadata table, job queue, pause
    flag, trace of external calls).  A thrown exception keeps the state
    reached so far, as in JavaScript: nothing is rolled back.
  - External collaborators (exiftool, ffprobe, sharp, the filesystem, the
    geocoder, failures of repositories) are fields of an environment
    record [Env]; theorems quantify over it. *)

From Stdlib Require Import ZArith QArith Qround Qabs Ascii String Lia.
From stdpp Require Import base option list strings gmap.

Local Open Scope string_scope.

(** ** JavaScript numbers, strings and values *)

Module Js.

Inductive JsNumber : Type :=
| NaN
| Inf (neg : bool)
| NegZero
| Fin (q : Q).

Definition num_of_Z (z : Z) : JsNumber := Fin (z # 1).

Definition is_zero (x : JsNumber) : bool :=
  match x with
  | NegZero => true
  | Fin q => Qeq_bool q 0
  | _ => false
  end.

Definition is_neg (x : JsNumber) : bool :=
  match x with
  | Inf s => s
  | NegZero => true
  | Fin q => match Qcompare q 0 with Lt => true | _ => false end
  | NaN => false
  end.

Definition zero (neg : bool) : JsNumber :=
  if neg then NegZero else Fin 0.

Definition to_Q (x : JsNumber) : Q :=
  match x with Fin q => q | _ => 0%Q end.

(** The [/] operator.  The quotient of two finite numbers is the exact
    rational; the source rounds it to the nearest double, which is within
    the relative error 2^-53 of it. *)
Definition div (x y : JsNumber) : JsNumber :=
  match x, y with
  | NaN, _ | _, NaN => NaN
  | Inf _, Inf _ => NaN
  | Inf s, _ => Inf (xorb s (is_neg y))
  | _, Inf s => zero (xorb (is_neg x) s)
  | _, _ =>
      if is_zero y then
        if is_zero x then NaN else Inf (xorb (is_neg x) (is_neg y))
      else if is_zero x then zero (xorb (is_neg x) (is_neg y))
      else Fin (Qred (to_Q x / to_Q y))
  end.

(** [Math.round]: the integer nearest to [x], ties towards [+Infinity];
    a result of zero keeps the sign of a negative argument. *)
Definition Math_round (x : JsNumber) : JsNumber :=
  match x with
  | Fin q =>
      let r := Qfloor (q + (1 # 2)) in
      if (Z.eqb r 0 && is_neg x)%bool then NegZero else num_of_Z r
  | _ => x
  end.

(** *** Characters *)

Definition is_digit (c : ascii) : bool :=
  let n := nat_of_ascii c in (Nat.leb 48 n && Nat.leb n 57)%bool.

Definition digit_val (c : ascii) : Z := Z.of_nat (nat_of_ascii c) - 48.

Definition hex_val (c : ascii) : option Z :=
  let n := nat_of_ascii c in
  if (Nat.leb 48 n && Nat.leb n 57)%bool then Some (Z.of_nat n - 48)%Z
  else if (Nat.leb 97 n && Nat.leb n 102)%bool then Some (Z.of_nat n - 87)%Z
  else if (Nat.leb 65 n && Nat.leb n 70)%bool then Some (Z.of_nat n - 55)%Z
  else None.

(** Tab, line feed, vertical tab, form feed, carriage return, space. *)
Definition is_space (c : ascii) : bool :=
  let n := nat_of_ascii c in
  ((Nat.leb 9 n && Nat.leb n 13) || Nat.eqb n 32)%bool.

Definition is_sign (c : ascii) : bool :=
  (Ascii.eqb c "+" || Ascii.eqb c "-")%bool.

Fixpoint trim_start (s : string) : string :=
  match s with
  | String c r => if is_space c then trim_start r else s
  | EmptyString => s
  end.

(** The longest prefix of characters satisfying [p], and the rest. *)
Fixpoint span (p : ascii -> bool) (s : string) : string * string :=
  match s with
  | String c r =>
      if p c then let '(a, b) := span p r in (String c a, b)
      else (EmptyString, s)
  | EmptyString => (EmptyString, EmptyString)
  end.

Fixpoint digits_val (acc : Z) (s : string) : Z :=
  match s with
  | String c r => digits_val (10 * acc + digit_val c) r
  | EmptyString => acc
  end.

Fixpoint hex_digits_val (acc : Z) (s : string) : Z :=
  match s with
  | String c r => hex_digits_val (16 * acc + default 0%Z (hex_val c)) r
  | EmptyString => acc
  end.

Definition signed (neg : bool) (q : Q) : JsNumber :=
  if Qeq_bool q 0 then zero neg
  else Fin (Qred (if neg then - q else q)).

(** Splits a leading sign off: [(negative, rest)]. *)
Definition take_sign (s : string) : bool * string :=
  match s with
  | String "-" r => (true, r)
  | String "+" r => (false, r)
  | _ => (false, s)
  end.

(** [parseInt(s)] without a radix argument: leading white space (the
    ASCII one here), a sign, a hexadecimal prefix, then the longest run of
    digits.  The result is the exact integer of the run; the source gives
    the same number for a run below 2^53 and the nearest double above. *)
Definition parseInt (s : string) : JsNumber :=
  let '(neg, s1) := take_sign (trim_start s) in
  match s1 with
  | String "0" (String x r) =>
      if (Ascii.eqb x "x" || Ascii.eqb x "X")%bool then
        let '(ds, _) := span (fun c => bool_decide (is_Some (hex_val c))) r in
        match ds with
        | EmptyString => NaN
        | _ => signed neg (hex_digits_val 0 ds # 1)
        end
      else
        let '(ds, _) := span is_digit s1 in signed neg (digits_val 0 ds # 1)
  | _ =>
      let '(ds, _) := span is_digit s1 in
      match ds with
      | EmptyString => NaN
      | _ => signed neg (digits_val 0 ds # 1)
      end
  end.

Definition pow10 (n : nat) : Z := Z.pow 10 (Z.of_nat n).

(** The exponent part [e[+-]ddd] of a decimal literal, when present. *)
Definition take_exponent (s : string) : Z :=
  match s with
  | String e r =>
      if (Ascii.eqb e "e" || Ascii.eqb e "E")%bool then
        let '(neg, r1) := take_sign r in
        let '(ds, _) := span is_digit r1 in
        match ds with
        | EmptyString => 0%Z
        | _ => if neg then (- digits_val 0 ds)%Z else digits_val 0 ds
        end
      else 0%Z
  | EmptyString => 0%Z
  end.

Definition scale10 (q : Q) (e : Z) : Q :=
  if (e <? 0)%Z then (q / (Z.pow 10 (- e) # 1))%Q
  else (q * (Z.pow 10 e # 1))%Q.

(** [parseFloat(s)]: the longest prefix that is a decimal literal. *)
Definition parseFloat (s : string) : JsNumber :=
  let '(neg, s1) := take_sign (trim_start s) in
  if String.prefix "Infinity" s1 then Inf neg
  else
    let '(ip, s2) := span is_digit s1 in
    let '(fp, s3) :=
      match s2 with
      | String "." r => span is_digit r
      | _ => (EmptyString, s2)
      end in
    match ip, fp with
    | EmptyString, EmptyString => NaN
    | _, _ =>
        let mant :=
          ((digits_val 0 ip # 1)
           + (digits_val 0 fp # Z.to_pos (pow10 (String.length fp))))%Q in
        signed neg (scale10 mant (take_exponent s3))
    end.

(** [s.split(sep)] for a one-character separator. *)
Fixpoint split (sep : ascii) (s : string) : list string :=
  match s with
  | EmptyString => [EmptyString]
  | String c r =>
      if Ascii.eqb c sep then EmptyString :: split sep r
      else
        match split sep r with
        | h :: t => String c h :: t
        | [] => [String c EmptyString]
        end
  end.

(** *** Dates *)

(** A [Date] object: a time value in milliseconds, or an invalid date. *)
Inductive JsDate : Type :=
| DateMs (ms : Z)
| InvalidDate.

(** exiftool-vendored's [ExifDateTime]: what [toDate()] returns and the
    optional [zone] property. *)
Record ExifDateTime : Type := mkExifDateTime {
  edt_toDate : JsDate;
  edt_zone : option string
}.

(** *** Values

    The values that tags, job payloads and records hold: primitives,
    arrays, dates and exiftool's date-time objects. *)

#[warnings="-register-all"] Inductive JsVal : Type :=
| VUndef
| VNull
| VBool (b : bool)
| VNum (n : JsNumber)
| VStr (s : string)
| VArr (l : list JsVal)
| VExifDateTime (d : ExifDateTime)
| VDate (d : JsDate).

(** ToBoolean. *)
Definition truthy (v : JsVal) : bool :=
  match v with
  | VUndef | VNull => false
  | VBool b => b
  | VNum NaN => false
  | VNum n => negb (is_zero n)
  | VStr s => negb (String.eqb s EmptyString)
  | VArr _ | VExifDateTime _ | VDate _ => true
  end.

Definition is_nullish (v : JsVal) : bool :=
  match v with
  | VUndef | VNull => true
  | _ => false
  end.

(** [a ?? b] *)
Definition nullish_or (a b : JsVal) : JsVal :=
  if is_nullish a then b else a.

(** [a || b] *)
Definition or_else (a b : JsVal) : JsVal :=
  if truthy a then a else b.

(** [v === null] *)
Definition is_null (v : JsVal) : bool :=
  match v with VNull => true | _ => false end.

(** An optional property of an object read as a value. *)
Definition of_opt_num (o : option JsNumber) : JsVal :=
  match o with Some n => VNum n | None => VUndef end.

Definition of_opt_str (o : option string) : JsVal :=
  match o with Some s => VStr s | None => VNull end.

(** Exceptions. *)
Inductive Exn : Type :=
| TypeError (what : string)
| RangeError (what : string)
| Rejected (who : string).

Inductive Res (A : Type) : Type :=
| Ok (a : A)
| Throw (e : Exn).
Arguments Ok {A} a.
Arguments Throw {A} e.

End Js.

Import Js.

(** ** Entities, jobs and the external world *)

Module Domain.

(** A tag mapping as exiftool returns it, and the tags of an ffprobe
    format: JavaScript objects used as maps from names to values. *)
Abbreviation Tags := (gmap string JsVal).

(** [obj?.[property]]: [undefined] when the object is null or lacks the
    property. *)
Definition get_opt (obj : option Tags) (property : string) : JsVal :=
  match obj with
  | Some t => default VUndef (t !! property)
  | None => VUndef
  end.

Inductive AssetType : Type := IMAGE | VIDEO | AUDIO | OTHER.

Definition AssetType_eqb (a b : AssetType) : bool :=
  match a, b with
  | IMAGE, IMAGE | VIDEO, VIDEO | AUDIO, AUDIO | OTHER, OTHER => true
  | _, _ => false
  end.

(** The fields of [AssetEntity] that the processors read or write. *)
Record AssetEntity : Type := mkAsset {
  a_id : string;
  a_ownerId : string;
  a_type : AssetType;
  a_originalPath : string;
  a_sidecarPath : option string;
  a_isVisible : bool;
  a_livePhotoVideoId : option string;
  a_fileCreatedAt : string;
  a_fileModifiedAt : string;
  a_duration : option string
}.

(** [Partial<AssetEntity>] as passed to [assetCore.save]: the identity and
    the properties that are present.  A property whose value is
    [undefined] counts as absent. *)
Record AssetPatch : Type := mkPatch {
  p_id : string;
  p_livePhotoVideoId : option string;
  p_isVisible : option bool;
  p_fileCreatedAt : option string;
  p_duration : option (option string);
  p_sidecarPath : option string
}.

Definition patch (id : string) : AssetPatch :=
  mkPatch id None None None None None.

Definition apply_patch (p : AssetPatch) (a : AssetEntity) : AssetEntity :=
  {| a_id := a_id a;
     a_ownerId := a_ownerId a;
     a_type := a_type a;
     a_originalPath := a_originalPath a;
     a_sidecarPath :=
       match p_sidecarPath p with Some s => Some s | None => a_sidecarPath a end;
     a_isVisible := default (a_isVisible a) (p_isVisible p);
     a_livePhotoVideoId :=
       match p_livePhotoVideoId p with
       | Some v => Some v
       | None => a_livePhotoVideoId a
       end;
     a_fileCreatedAt := default (a_fileCreatedAt a) (p_fileCreatedAt p);
     a_fileModifiedAt := a_fileModifiedAt a;
     a_duration := default (a_duration a) (p_duration p) |}.

(** [ExifEntity]: every column is a JavaScript value, [undefined] until
    assigned, as after [new ExifEntity()]. *)
Record ExifEntity : Type := mkExif {
  assetId : string;
  fileSizeInByte : JsVal;
  make : JsVal;
  model : JsVal;
  exifImageHeight : JsVal;
  exifImageWidth : JsVal;
  exposureTime : JsVal;
  orientation : JsVal;
  dateTimeOriginal : JsVal;
  modifyDate : JsVal;
  timeZone : JsVal;
  lensModel : JsVal;
  fNumber : JsVal;
  focalLength : JsVal;
  iso : JsVal;
  latitude : JsVal;
  longitude : JsVal;
  livePhotoCID : JsVal;
  city : JsVal;
  state : JsVal;
  country : JsVal;
  fps : JsVal
}.

Definition set_place (country' state' city' : JsVal) (e : ExifEntity) : ExifEntity :=
  mkExif (assetId e) (fileSizeInByte e) (make e) (model e) (exifImageHeight e)
    (exifImageWidth e) (exposureTime e) (orientation e) (dateTimeOriginal e)
    (modifyDate e) (timeZone e) (lensModel e) (fNumber e) (focalLength e)
    (iso e) (latitude e) (longitude e) (livePhotoCID e) city' state' country'
    (fps e).

Definition set_dimensions (h w o : JsVal) (e : ExifEntity) : ExifEntity :=
  mkExif (assetId e) (fileSizeInByte e) (make e) (model e) h w
    (exposureTime e) o (dateTimeOriginal e)
    (modifyDate e) (timeZone e) (lensModel e) (fNumber e) (focalLength e)
    (iso e) (latitude e) (longitude e) (livePhotoCID e) (city e) (state e)
    (country e) (fps e).

Definition set_coordinates (lat lon : JsVal) (e : ExifEntity) : ExifEntity :=
  mkExif (assetId e) (fileSizeInByte e) (make e) (model e) (exifImageHeight e)
    (exifImageWidth e) (exposureTime e) (orientation e) (dateTimeOriginal e)
    (modifyDate e) (timeZone e) (lensModel e) (fNumber e) (focalLength e)
    (iso e) lat lon (livePhotoCID e) (city e) (state e) (country e) (fps e).

Definition set_timeZone (tz : JsVal) (e : ExifEntity) : ExifEntity :=
  mkExif (assetId e) (fileSizeInByte e) (make e) (model e) (exifImageHeight e)
    (exifImageWidth e) (exposureTime e) (orientation e) (dateTimeOriginal e)
    (modifyDate e) tz (lensModel e) (fNumber e) (focalLength e)
    (iso e) (latitude e) (longitude e) (livePhotoCID e) (city e) (state e)
    (country e) (fps e).

Definition set_fps (f : JsVal) (e : ExifEntity) : ExifEntity :=
  mkExif (assetId e) (fileSizeInByte e) (make e) (model e) (exifImageHeight e)
    (exifImageWidth e) (exposureTime e) (orientation e) (dateTimeOriginal e)
    (modifyDate e) (timeZone e) (lensModel e) (fNumber e) (focalLength e)
    (iso e) (latitude e) (longitude e) (livePhotoCID e) (city e) (state e)
    (country e) f.

Inductive JobName : Type :=
| QUEUE_METADATA_EXTRACTION
| EXIF_EXTRACTION
| EXTRACT_VIDEO_METADATA
| STORAGE_TEMPLATE_MIGRATION_SINGLE
| QUEUE_SIDECAR
| SIDECAR_DISCOVERY
| SIDECAR_SYNC.

(** [{ name, data: { asset } }] *)
Record JobItem : Type := mkJob {
  name : JobName;
  data : AssetEntity
}.

(** [LivePhotoSearchOptions] *)
Record LivePhotoSearchOptions : Type := mkSearch {
  s_livePhotoCID : JsVal;
  s_otherAssetId : string;
  s_ownerId : string;
  s_type : AssetType
}.

(** The page sources used by the dispatchers. *)
Inductive PageQuery : Type :=
| GetAll
| GetWithoutExif
| GetWithSidecar
| GetWithoutSidecar.

Inductive LogLevel : Type := LogInfo | LogWarn | LogError.

(** Calls that leave the process, in the order they are made. *)
Inductive Event : Type :=
| EvExifRead (path : string)
| EvFfprobe (path : string)
| EvStat (path : string)
| EvSharp (path : string)
| EvAccess (path : string)
| EvTzLookup (lat lon : JsVal)
| EvReverseGeocode (lat lon : JsVal)
| EvFindLivePhoto (options : LivePhotoSearchOptions)
| EvSave (p : AssetPatch)
| EvUpsert (e : ExifEntity)
| EvQueue (j : JobItem)
| EvGetPage (q : PageQuery) (index : nat)
| EvPause
| EvResume
| EvGeoInit
| EvDeleteCache
| EvLog (level : LogLevel) (message : string).

Record World : Type := mkWorld {
  assets : list AssetEntity;
  exifs : list ExifEntity;
  jobs : list JobItem;
  metadataQueuePaused : bool;
  trace : list Event
}.

(** *** ffprobe and sharp results *)

Record FfprobeStream : Type := mkStream {
  codec_type : option string;
  width : option JsNumber;
  height : option JsNumber;
  rotation : JsVal;
  r_frame_rate : option string
}.

Record FfprobeFormat : Type := mkFormat {
  f_duration : option JsNumber;
  f_size : option JsNumber;
  f_tags : option Tags
}.

Record FfprobeData : Type := mkProbe {
  streams : list FfprobeStream;
  format : FfprobeFormat
}.

Record SharpMetadata : Type := mkSharp {
  m_height : option JsNumber;
  m_width : option JsNumber;
  m_orientation : option JsNumber
}.

Record GeoResult : Type := mkGeo {
  g_country : JsVal;
  g_state : JsVal;
  g_city : JsVal
}.

Inductive AccessResult : Type := AccessOk | EACCES | ENOENT.

(** The collaborators of the processors.  [None] and [false] stand for a
    rejected promise or a thrown exception. *)
Record Env : Type := mkEnv {
  DISABLE_REVERSE_GEOCODING : JsVal;
  exiftool_read : string -> option Tags;
  ffprobe : string -> option FfprobeData;
  statSync_size : string -> option JsNumber;
  sharp_metadata : string -> option SharpMetadata;
  fs_access : string -> AccessResult;
  tz_lookup : JsVal -> JsVal -> option string;
  reverseGeocode : JsVal -> JsVal -> option GeoResult;
  geocoding_init_ok : bool;
  geocoding_deleteCache_ok : bool;
  pause_ok : bool;
  resume_ok : bool;
  queue_ok : JobItem -> bool;
  save_ok : AssetPatch -> bool;
  upsert_ok : ExifEntity -> bool;
  find_ok : LivePhotoSearchOptions -> bool;
  pages : PageQuery -> list (option (list AssetEntity));
  Date_parse : string -> JsDate;
  toISOString : Z -> string;
  toString : JsVal -> string;
  Number : JsVal -> JsNumber;
  Duration_toFormat : JsNumber -> string
}.

End Domain.

Import Domain.

(** ** The monad of handlers

    A computation takes the world and returns a result, normal or thrown,
    with the world it reached.  [try_catch] runs its handler in the world
    the body left behind. *)

Module Monad.

Definition M (A : Type) : Type := World -> Res A * World.

Definition ret {A} (a : A) : M A := fun w => (Ok a, w).

Definition throw {A} (e : Exn) : M A := fun w => (Throw e, w).

Definition bind {A B} (m : M A) (f : A -> M B) : M B :=
  fun w =>
    match m w with
    | (Ok a, w') => f a w'
    | (Throw e, w') => (Throw e, w')
    end.

Definition try_catch {A} (body : M A) (handler : Exn -> M A) : M A :=
  fun w =>
    match body w with
    | (Ok a, w') => (Ok a, w')
    | (Throw e, w') => handler e w'
    end.

Definition lift {A} (r : Res A) : M A := fun w => (r, w).

Definition emit (ev : Event) : M unit :=
  fun w =>
    (Ok tt, mkWorld (assets w) (exifs w) (jobs w) (metadataQueuePaused w)
              (trace w ++ [ev])).

Definition get_world : M World := fun w => (Ok w, w).

Definition set_assets (l : list AssetEntity) : M unit :=
  fun w => (Ok tt, mkWorld l (exifs w) (jobs w) (metadataQueuePaused w) (trace w)).

Definition set_exifs (l : list ExifEntity) : M unit :=
  fun w => (Ok tt, mkWorld (assets w) l (jobs w) (metadataQueuePaused w) (trace w)).

Definition set_jobs (l : list JobItem) : M unit :=
  fun w => (Ok tt, mkWorld (assets w) (exifs w) l (metadataQueuePaused w) (trace w)).

Definition set_paused (b : bool) : M unit :=
  fun w => (Ok tt, mkWorld (assets w) (exifs w) (jobs w) b (trace w)).

(** The world with more events at the end of its trace, and with another
    value of the pause flag. *)
Definition log_events (evs : list Event) (w : World) : World :=
  mkWorld (assets w) (exifs w) (jobs w) (metadataQueuePaused w) (trace w ++ evs)%list.

Definition with_paused (b : bool) (w : World) : World :=
  mkWorld (assets w) (exifs w) (jobs w) b (trace w).

(** Whether a computation returned normally. *)
Definition is_ok {A} (r : Res A) : bool :=
  match r with Ok _ => true | Throw _ => false end.

(** The world a handler leaves behind. *)
Definition exec {A} (m : M A) (w : World) : World := snd (m w).

Declare Scope monad_scope.
Delimit Scope monad_scope with monad.

Notation "x <- c1 ;; c2" := (bind c1 (fun x => c2))
  (at level 100, c1 at next level, right associativity) : monad_scope.
Notation "c1 ;; c2" := (bind c1 (fun _ => c2))
  (at level 100, right associativity) : monad_scope.

(** [for (const x of l) { await body(x) }] *)
Fixpoint for_each {A} (l : list A) (body : A -> M unit) : M unit :=
  match l with
  | [] => ret tt
  | x :: rest => bind (body x) (fun _ => for_each rest body)
  end.

End Monad.

Import Monad.
Local Open Scope monad_scope.

(** ** Repositories *)

Module Repository.

Section WithEnv.

Variable env : Env.

Definition id_is (id : string) (a : AssetEntity) : bool := String.eqb (a_id a) id.

(** Modelled from the spec: [AssetCore.save] is not part of the sources at
    hand.  The spec gives [updateAsset(id, partialFields) -> updatedAsset]
    and says that assets are mutated in place, never recreated: the row with
    the given identity takes the fields present in the patch, the other
    fields and rows stay as they are, and the updated row is returned. *)
Definition assetCore_save (p : AssetPatch) : M AssetEntity :=
  emit (EvSave p) ;;
  if save_ok env p then
    w <- get_world ;;
    match List.find (id_is (p_id p)) (assets w) with
    | Some a =>
        set_assets
          (map (fun x => if id_is (p_id p) x then apply_patch p x else x) (assets w)) ;;
        ret (apply_patch p a)
    | None => throw (Rejected "assetRepository.save")
    end
  else throw (Rejected "assetRepository.save").

Definition cid_matches (cid : JsVal) (e : ExifEntity) : bool :=
  match cid, livePhotoCID e with
  | VStr a, VStr b => String.eqb a b
  | _, _ => false
  end.

Definition has_cid (rows : list ExifEntity) (cid : JsVal) (a : AssetEntity) : bool :=
  existsb (fun e => String.eqb (assetId e) (a_id a) && cid_matches cid e) rows.

Definition is_candidate (o : LivePhotoSearchOptions) (rows : list ExifEntity)
    (a : AssetEntity) : bool :=
  negb (String.eqb (a_id a) (s_otherAssetId o))
  && String.eqb (a_ownerId a) (s_ownerId o)
  && AssetType_eqb (a_type a) (s_type o)
  && has_cid rows (s_livePhotoCID o) a.

(** Modelled from the spec: [AssetCore.findLivePhotoMatch] is not part of
    the sources at hand.  The spec gives
    [findLivePhotoCandidate(ownerId, contentId, type, excludeId) -> asset|none]:
    another asset of the same owner and of the complementary type whose
    persisted content identifier matches, the current asset excluded.  The
    content identifier of an asset is the one of its metadata record; among
    several candidates the first in table order is taken. *)
Definition findLivePhotoMatch (o : LivePhotoSearchOptions) : M (option AssetEntity) :=
  emit (EvFindLivePhoto o) ;;
  if find_ok env o then
    w <- get_world ;;
    ret (List.find (is_candidate o (exifs w)) (assets w))
  else throw (Rejected "assetRepository.findLivePhotoMatch").

(** [exifRepository.upsert(e, { conflictPaths: ['assetId'] })]: the row with
    the same [assetId] is replaced, otherwise the row is added. *)
Fixpoint upsert_row (e : ExifEntity) (rows : list ExifEntity) : list ExifEntity :=
  match rows with
  | [] => [e]
  | r :: rest =>
      if String.eqb (assetId r) (assetId e) then e :: rest
      else r :: upsert_row e rest
  end.

Definition exifRepository_upsert (e : ExifEntity) : M unit :=
  emit (EvUpsert e) ;;
  if upsert_ok env e then
    w <- get_world ;;
    set_exifs (upsert_row e (exifs w))
  else throw (Rejected "exifRepository.upsert").

Definition jobRepository_queue (j : JobItem) : M unit :=
  emit (EvQueue j) ;;
  if queue_ok env j then
    w <- get_world ;;
    set_jobs (jobs w ++ [j])
  else throw (Rejected "jobRepository.queue").

(** [jobRepository.pause(QueueName.METADATA_EXTRACTION)] *)
Definition jobRepository_pause : M unit :=
  emit EvPause ;;
  if pause_ok env then set_paused true
  else throw (Rejected "jobRepository.pause").

(** [jobRepository.resume(QueueName.METADATA_EXTRACTION)] *)
Definition jobRepository_resume : M unit :=
  emit EvResume ;;
  if resume_ok env then set_paused false
  else throw (Rejected "jobRepository.resume").

Definition geocodingRepository_init : M unit :=
  emit EvGeoInit ;;
  if geocoding_init_ok env then ret tt
  else throw (Rejected "geocodingRepository.init").

Definition geocodingRepository_deleteCache : M unit :=
  emit EvDeleteCache ;;
  if geocoding_deleteCache_ok env then ret tt
  else throw (Rejected "geocodingRepository.deleteCache").

(** Modelled from the spec: [usePagination] is not part of the sources at
    hand.  The spec describes a page source whose pages are pulled lazily
    and processed one after the other; [results] lists what the successive
    page requests return, [None] for a request that fails. *)
Fixpoint usePagination (q : PageQuery) (index : nat)
    (results : list (option (list AssetEntity)))
    (body : list AssetEntity -> M unit) : M unit :=
  match results with
  | [] => ret tt
  | r :: rest =>
      emit (EvGetPage q index) ;;
      match r with
      | Some page => body page ;; usePagination q (S index) rest body
      | None => throw (Rejected "getNextPage")
      end
  end.

End WithEnv.

End Repository.

Import Repository.

(** ** The location patterns of video extraction *)

Module Location.

(** [[+-][0-9]+\.[0-9]+] at the start of [s]: the text of the group and what
    follows it.  Digits, the dot and the signs are disjoint, so the greedy
    match is the only one. *)
Definition signed_decimal (s : string) : option (string * string) :=
  match s with
  | String c r =>
      if is_sign c then
        let '(ip, r1) := span is_digit r in
        match ip, r1 with
        | String _ _, String "." r2 =>
            let '(fp, r3) := span is_digit r2 in
            match fp with
            | String _ _ => Some (String c (ip ++ String "." fp), r3)
            | EmptyString => None
            end
        | _, _ => None
        end
      else None
  | EmptyString => None
  end.

(** [n] groups, then [\/$]: a slash at the end of the input. *)
Fixpoint groups_then_slash (n : nat) (s : string) : option (list string) :=
  match n with
  | O => if String.eqb s "/" then Some [] else None
  | S k =>
      match signed_decimal s with
      | Some (g, r) =>
          match groups_then_slash k r with
          | Some gs => Some (g :: gs)
          | None => None
          end
      | None => None
      end
  end.

(** [location.match(locationRegex)] for the pattern with [n] groups: the
    pattern has no [^], so the match is searched from every start position,
    leftmost first; the result holds the matched text and the groups. *)
Fixpoint regex_match (n : nat) (location : string) : option (list string) :=
  match groups_then_slash n location with
  | Some gs => Some (location :: gs)
  | None =>
      match location with
      | String _ r => regex_match n r
      | EmptyString => None
      end
  end.

(** Lines 283-301: the coordinates taken from a location tag, for the
    pattern with [n] groups. *)
Definition coordinates (n : nat) (location : JsVal) : Res (option (JsVal * JsVal)) :=
  match location with
  | VStr s =>
      match regex_match n s with
      | Some m =>
          if Nat.eqb (length m) (S n) then
            Ok (Some (VNum (parseFloat (nth 1 m EmptyString)), VNum (parseFloat (nth 2 m EmptyString))))
          else Ok None
      | None => Ok None
      end
  | _ => Throw (TypeError "location.match is not a function")
  end.

End Location.


Import Location.

(** ** The processors *)

Module Processor.

Section WithEnv.

Variable env : Env.

(** [this.reverseGeocodingEnabled = !configService.get('DISABLE_REVERSE_GEOCODING')] *)
Definition reverseGeocodingEnabled : bool :=
  negb (truthy (DISABLE_REVERSE_GEOCODING env)).

(** [String(v)], [v.toString()] and template literals. *)
Definition String_of (v : JsVal) : string :=
  match v with
  | VStr s => s
  | _ => toString env v
  end.

(** Truthiness of an optional string property. *)
Definition present (o : option string) : bool := truthy (of_opt_str o).

(** [exiftool.read(path).catch(...)]: a failed read is logged and gives
    [null]. *)
Definition read_tags (path : string) : M (option Tags) :=
  emit (EvExifRead path) ;;
  match exiftool_read env path with
  | Some tags => ret (Some tags)
  | None => emit (EvLog LogWarn "The exifData parsing failed") ;; ret None
  end.

(** Lines 54-74. *)
Definition init (deleteCache : bool) : M unit :=
  emit (EvLog LogWarn
          (if reverseGeocodingEnabled then "Reverse geocoding is enabled"
           else "Reverse geocoding is disabled")) ;;
  if negb reverseGeocodingEnabled then ret tt
  else
    try_catch
      ((if deleteCache then geocodingRepository_deleteCache env else ret tt) ;;
       emit (EvLog LogInfo "Initializing Reverse Geocoding") ;;
       jobRepository_pause env ;;
       geocodingRepository_init env ;;
       jobRepository_resume env ;;
       emit (EvLog LogInfo "Reverse Geocoding Initialized"))
      (fun _ => emit (EvLog LogError "Unable to initialize reverse geocoding")).

(** [asset.type === AssetType.VIDEO ? EXTRACT_VIDEO_METADATA : EXIF_EXTRACTION] *)
Definition extraction_job (asset : AssetEntity) : JobName :=
  if AssetType_eqb (a_type asset) VIDEO then EXTRACT_VIDEO_METADATA
  else EXIF_EXTRACTION.

(** Lines 76-95. *)
Definition handleQueueMetadataExtraction (force : bool) : M unit :=
  try_catch
    (let q := if force then GetAll else GetWithoutExif in
     usePagination q 0 (pages env q) (fun assets =>
       for_each assets (fun asset =>
         jobRepository_queue env (mkJob (extraction_job asset) asset))))
    (fun _ => emit (EvLog LogError "Unable to queue metadata extraction")).

(** Lines 119-127. *)
Definition exifToDate (exifDate : JsVal) : Res JsVal :=
  if negb (truthy exifDate) then Ok VNull
  else
    match exifDate with
    | VStr s => Ok (VDate (Date_parse env s))
    | VExifDateTime d => Ok (VDate (edt_toDate d))
    | _ => Throw (TypeError "exifDate.toDate is not a function")
    end.

(** Lines 129-137. *)
Definition exifTimeZone (exifDate : JsVal) : JsVal :=
  if negb (truthy exifDate) then VNull
  else
    match exifDate with
    | VExifDateTime d => of_opt_str (edt_zone d)
    | _ => VNull
    end.

(** Lines 139-148. *)
Fixpoint getExifProperty (sidecarExifData mediaExifData : option Tags)
    (properties : list string) : JsVal :=
  match properties with
  | [] => VNull
  | property :: rest =>
      let value :=
        nullish_or (get_opt sidecarExifData property)
                   (get_opt mediaExifData property) in
      if negb (is_nullish value) then value
      else getExifProperty sidecarExifData mediaExifData rest
  end.

(** Lines 156-178: the record built from the merged tags. *)
Definition imageExif (asset : AssetEntity) (sidecarExifData mediaExifData : option Tags)
    (timeZone fileCreatedAt fileModifiedAt : JsVal) (fileSizeInBytes : JsNumber)
    : ExifEntity :=
  let get := getExifProperty sidecarExifData mediaExifData in
  let orientation := get ["Orientation"] in
  let focalLength := get ["FocalLength"] in
  let iso := get ["ISO"] in
  {| assetId := a_id asset;
     fileSizeInByte := VNum fileSizeInBytes;
     make := get ["Make"];
     model := get ["Model"];
     exifImageHeight := get ["ExifImageHeight"; "ImageHeight"];
     exifImageWidth := get ["ExifImageWidth"; "ImageWidth"];
     exposureTime := get ["ExposureTime"];
     orientation :=
       if is_nullish orientation then VUndef else VStr (String_of orientation);
     dateTimeOriginal := fileCreatedAt;
     modifyDate := fileModifiedAt;
     timeZone := timeZone;
     lensModel := get ["LensModel"];
     fNumber := get ["FNumber"];
     focalLength :=
       if truthy focalLength then VNum (parseFloat (String_of focalLength))
       else VNull;
     iso :=
       match iso with
       | VArr l => nth 0 l VUndef
       | _ => or_else iso VNull
       end;
     latitude := get ["GPSLatitude"];
     longitude := get ["GPSLongitude"];
     livePhotoCID := get ["MediaGroupUUID"];
     city := VUndef;
     state := VUndef;
     country := VUndef;
     fps := VUndef |}.

(** Lines 347-362. *)
Definition applyReverseGeocoding (asset : AssetEntity) (newExif : ExifEntity)
    : M ExifEntity :=
  let latitude := latitude newExif in
  let longitude := longitude newExif in
  if reverseGeocodingEnabled && truthy longitude && truthy latitude then
    emit (EvReverseGeocode latitude longitude) ;;
    match reverseGeocode env latitude longitude with
    | Some g => ret (set_place (g_country g) (g_state g) (g_city g) newExif)
    | None =>
        emit (EvLog LogWarn "Unable to run reverse geocoding") ;;
        ret newExif
    end
  else ret newExif.

(** Lines 180-191. *)
Definition pairWithMotion (asset : AssetEntity) (newExif : ExifEntity) : M unit :=
  if truthy (livePhotoCID newExif) && negb (present (a_livePhotoVideoId asset)) then
    motionAsset <- findLivePhotoMatch env
      {| s_livePhotoCID := livePhotoCID newExif;
         s_otherAssetId := a_id asset;
         s_ownerId := a_ownerId asset;
         s_type := VIDEO |} ;;
    match motionAsset with
    | Some motionAsset =>
        assetCore_save env
          (mkPatch (a_id asset) (Some (a_id motionAsset)) None None None None) ;;
        assetCore_save env
          (mkPatch (a_id motionAsset) None (Some false) None None None) ;;
        ret tt
    | None => ret tt
    end
  else ret tt.

(** Lines 199-213. *)
Definition inspectImage (asset : AssetEntity) (newExif : ExifEntity) : M ExifEntity :=
  if negb (truthy (exifImageHeight newExif))
     || negb (truthy (exifImageWidth newExif))
     || negb (truthy (orientation newExif))
  then
    emit (EvSharp (a_originalPath asset)) ;;
    match sharp_metadata env (a_originalPath asset) with
    | None => throw (Rejected "sharp.metadata")
    | Some metadata =>
        ret (set_dimensions
               (if is_null (exifImageHeight newExif)
                then or_else (of_opt_num (m_height metadata)) VNull
                else exifImageHeight newExif)
               (if is_null (exifImageWidth newExif)
                then or_else (of_opt_num (m_width metadata)) VNull
                else exifImageWidth newExif)
               (if is_null (orientation newExif)
                then match m_orientation metadata with
                     | Some o => VStr (String_of (VNum o))
                     | None => VNull
                     end
                else orientation newExif)
               newExif)
    end
  else ret newExif.

(** [fileCreatedAt?.toISOString()] *)
Definition opt_toISOString (fileCreatedAt : JsVal) : Res (option string) :=
  match fileCreatedAt with
  | VDate (DateMs ms) => Ok (Some (toISOString env ms))
  | VDate InvalidDate => Throw (RangeError "Invalid time value")
  | _ => Ok None
  end.

Definition statSync (path : string) : M JsNumber :=
  emit (EvStat path) ;;
  match statSync_size env path with
  | Some size => ret size
  | None => throw (Rejected "fs.statSync")
  end.

(** Lines 102-178: both tag sets are read, the timestamps derived and the
    record built; the result is the record and [fileCreatedAt]. *)
Definition readImage (asset : AssetEntity) : M (ExifEntity * JsVal) :=
  mediaExifData <- read_tags (a_originalPath asset) ;;
  sidecarExifData <-
    (if present (a_sidecarPath asset)
     then read_tags (default EmptyString (a_sidecarPath asset))
     else ret (Some ∅)) ;;
  let get := getExifProperty sidecarExifData mediaExifData in
  let created :=
    nullish_or (get ["DateTimeOriginal"; "CreateDate"])
               (VStr (a_fileCreatedAt asset)) in
  let timeZone := exifTimeZone created in
  fileCreatedAt <- lift (exifToDate created) ;;
  fileModifiedAt <-
    lift (exifToDate (nullish_or (get ["ModifyDate"])
                                 (VStr (a_fileModifiedAt asset)))) ;;
  fileSizeInBytes <- statSync (a_originalPath asset) ;;
  ret (imageExif asset sidecarExifData mediaExifData timeZone fileCreatedAt
         fileModifiedAt fileSizeInBytes, fileCreatedAt).

(** Lines 215-217. *)
Definition saveImage (asset : AssetEntity) (newExif : ExifEntity)
    (fileCreatedAt : JsVal) : M unit :=
  exifRepository_upsert env newExif ;;
  iso <- lift (opt_toISOString fileCreatedAt) ;;
  asset' <- assetCore_save env (mkPatch (a_id asset) None None iso None None) ;;
  jobRepository_queue env (mkJob STORAGE_TEMPLATE_MIGRATION_SINGLE asset').

(** Lines 193-213. *)
Definition enrichImage (asset : AssetEntity) (newExif : ExifEntity) : M ExifEntity :=
  newExif <- applyReverseGeocoding asset newExif ;;
  inspectImage asset newExif.

(** Lines 97-224. *)
Definition extractExifInfo (asset : AssetEntity) : M unit :=
  try_catch
    (r <- readImage asset ;;
     let newExif := fst r in
     let fileCreatedAt := snd r in
     pairWithMotion asset newExif ;;
     newExif <- enrichImage asset newExif ;;
     saveImage asset newExif fileCreatedAt)
    (fun _ => emit (EvLog LogError "Error extracting EXIF")).

(** Lines 364-371. *)
Definition extractDuration (duration : JsVal) : option string :=
  let videoDurationInSecond := Number env duration in
  if negb (truthy (VNum videoDurationInSecond)) then None
  else Some (Duration_toFormat env videoDurationInSecond).

(** Lines 237-246. *)
Definition videoCreatedAt (asset : AssetEntity) (videoTags : option Tags) : string :=
  if truthy (get_opt videoTags "com.apple.quicktime.creationdate") then
    String_of (get_opt videoTags "com.apple.quicktime.creationdate")
  else if truthy (get_opt videoTags "creation_time") then
    String_of (get_opt videoTags "creation_time")
  else a_fileCreatedAt asset.

(** Lines 256-268. *)
Definition videoExif (asset : AssetEntity) (data : FfprobeData)
    (fileCreatedAt : string) (exifData : option Tags) : ExifEntity :=
  {| assetId := a_id asset;
     fileSizeInByte := or_else (of_opt_num (f_size (format data))) VNull;
     make := VUndef;
     model := VUndef;
     exifImageHeight := VUndef;
     exifImageWidth := VUndef;
     exposureTime := VUndef;
     orientation := VUndef;
     dateTimeOriginal :=
       if truthy (VStr fileCreatedAt) then VDate (Date_parse env fileCreatedAt)
       else VNull;
     modifyDate := VNull;
     timeZone := VNull;
     lensModel := VUndef;
     fNumber := VUndef;
     focalLength := VUndef;
     iso := VUndef;
     latitude := VNull;
     longitude := VNull;
     livePhotoCID := or_else (get_opt exifData "ContentIdentifier") VNull;
     city := VNull;
     state := VNull;
     country := VNull;
     fps := VNull |}.

(** Lines 270-281. *)
Definition pairWithStill (asset : AssetEntity) (newExif : ExifEntity) : M unit :=
  if truthy (livePhotoCID newExif) then
    photoAsset <- findLivePhotoMatch env
      {| s_livePhotoCID := livePhotoCID newExif;
         s_otherAssetId := a_id asset;
         s_ownerId := a_ownerId asset;
         s_type := IMAGE |} ;;
    match photoAsset with
    | Some photoAsset =>
        assetCore_save env
          (mkPatch (a_id photoAsset) (Some (a_id asset)) None None None None) ;;
        assetCore_save env
          (mkPatch (a_id asset) None (Some false) None None None) ;;
        ret tt
    | None => ret tt
    end
  else ret tt.

(** Lines 283-301. *)
Definition locate (videoTags : option Tags) (newExif : ExifEntity) : Res ExifEntity :=
  let with_match r :=
    match r with
    | Ok (Some (lat, lon)) => Ok (set_coordinates lat lon newExif)
    | Ok None => Ok newExif
    | Throw e => Throw e
    end in
  if truthy (get_opt videoTags "location") then
    with_match (coordinates 2 (get_opt videoTags "location"))
  else if truthy (get_opt videoTags "com.apple.quicktime.location.ISO6709") then
    with_match (coordinates 3 (get_opt videoTags "com.apple.quicktime.location.ISO6709"))
  else Ok newExif.

(** Lines 303-309. *)
Definition lookupTimeZone (newExif : ExifEntity) : M ExifEntity :=
  if truthy (longitude newExif) && truthy (latitude newExif) then
    emit (EvTzLookup (latitude newExif) (longitude newExif)) ;;
    match tz_lookup env (latitude newExif) (longitude newExif) with
    | Some tz => ret (set_timeZone (VStr tz) newExif)
    | None =>
        emit (EvLog LogWarn "Error while calculating timezone from gps coordinates") ;;
        ret newExif
    end
  else ret newExif.

(** Lines 326-332. *)
Definition frameRate (stream : FfprobeStream) (newExif : ExifEntity) : ExifEntity :=
  if present (r_frame_rate stream) then
    let fpsParts := split "/" (default EmptyString (r_frame_rate stream)) in
    if Nat.eqb (length fpsParts) 2 then
      set_fps
        (VNum (Math_round (div (parseInt (nth 0 fpsParts EmptyString))
                               (parseInt (nth 1 fpsParts EmptyString)))))
        newExif
    else newExif
  else newExif.

(** Lines 313-334: the body of the loop over the streams. *)
Definition videoStream (newExif : ExifEntity) (stream : FfprobeStream) : ExifEntity :=
  if bool_decide (codec_type stream = Some "video") then
    frameRate stream
      (set_dimensions
         (or_else (of_opt_num (height stream)) VNull)
         (or_else (of_opt_num (width stream)) VNull)
         (match rotation stream with
          | VStr s => VStr s
          | VNum n => VStr (String_of (VNum n))
          | _ => VNull
          end)
         newExif)
  else newExif.

Definition probe (path : string) : M FfprobeData :=
  emit (EvFfprobe path) ;;
  match ffprobe env path with
  | Some data => ret data
  | None => throw (Rejected "ffprobe")
  end.

(** Lines 235-268: the file is probed, the tags are read from the sidecar
    when there is one and from the original otherwise, and the record is
    built; the result is the probe data, [fileCreatedAt] and the record. *)
Definition readVideo (asset : AssetEntity) : M (FfprobeData * string * ExifEntity) :=
  data <- probe (a_originalPath asset) ;;
  let videoTags := f_tags (format data) in
  let fileCreatedAt := videoCreatedAt asset videoTags in
  exifData <-
    read_tags (if present (a_sidecarPath asset)
               then default EmptyString (a_sidecarPath asset)
               else a_originalPath asset) ;;
  ret (data, fileCreatedAt, videoExif asset data fileCreatedAt exifData).

(** Lines 283-334. *)
Definition enrichVideo (asset : AssetEntity) (data : FfprobeData)
    (newExif : ExifEntity) : M ExifEntity :=
  newExif <- lift (locate (f_tags (format data)) newExif) ;;
  newExif <- lookupTimeZone newExif ;;
  newExif <- applyReverseGeocoding asset newExif ;;
  ret (fold_left videoStream (streams data) newExif).

(** Lines 336-338. *)
Definition saveVideo (asset : AssetEntity) (newExif : ExifEntity)
    (durationString : option string) (fileCreatedAt : string) : M unit :=
  exifRepository_upsert env newExif ;;
  asset' <- assetCore_save env
    (mkPatch (a_id asset) None None (Some fileCreatedAt) (Some durationString) None) ;;
  jobRepository_queue env (mkJob STORAGE_TEMPLATE_MIGRATION_SINGLE asset').

(** Line 236. *)
Definition videoDuration (asset : AssetEntity) (data : FfprobeData) : option string :=
  extractDuration (or_else (of_opt_num (f_duration (format data)))
                           (of_opt_str (a_duration asset))).

(** Lines 226-345. *)
Definition extractVideoMetadata (asset : AssetEntity) : M unit :=
  if negb (a_isVisible asset) then ret tt
  else
    try_catch
      (r <- readVideo asset ;;
       let data := fst (fst r) in
       let fileCreatedAt := snd (fst r) in
       let newExif := snd r in
       pairWithStill asset newExif ;;
       newExif <- enrichVideo asset data newExif ;;
       saveVideo asset newExif (videoDuration asset data) fileCreatedAt)
      (fun _ => emit (EvLog LogError "Error in video metadata extraction")).

(** *** SidecarProcessor *)

(** Lines 386-405. *)
Definition handleQueueSidecar (force : bool) : M unit :=
  try_catch
    (let q := if force then GetWithSidecar else GetWithoutSidecar in
     usePagination q 0 (pages env q) (fun assets =>
       for_each assets (fun asset =>
         jobRepository_queue env
           (mkJob (if force then SIDECAR_SYNC else SIDECAR_DISCOVERY) asset))))
    (fun _ => emit (EvLog LogError "Unable to queue sidecar scanning")).

(** Lines 407-420. *)
Definition handleSidecarSync (asset : AssetEntity) : M unit :=
  if negb (a_isVisible asset) then ret tt
  else
    try_catch
      (jobRepository_queue env (mkJob (extraction_job asset) asset))
      (fun _ => emit (EvLog LogError "Unable to queue metadata extraction")).

(** Lines 422-451. *)
Definition handleSidecarDiscovery (asset : AssetEntity) : M unit :=
  if negb (a_isVisible asset) then ret tt
  else if present (a_sidecarPath asset) then ret tt
  else
    let xmp := a_originalPath asset ++ ".xmp" in
    emit (EvAccess xmp) ;;
    match fs_access env xmp with
    | AccessOk =>
        try_catch
          (asset' <- assetCore_save env
             (mkPatch (a_id asset) None None None None (Some xmp)) ;;
           jobRepository_queue env (mkJob (extraction_job asset') asset'))
          (fun _ => emit (EvLog LogError "Unable to sync sidecar"))
    | EACCES =>
        emit (EvLog LogError "Unable to queue metadata extraction, file is not writable")
    | ENOENT => ret tt
    end.

End WithEnv.

End Processor.

Import Processor.

(** ** A concrete library: a live photo and its collaborators *)

Module Scenario.

Definition still : AssetEntity :=
  {| a_id := "A"; a_ownerId := "u1"; a_type := IMAGE;
     a_originalPath := "/lib/IMG_1.HEIC"; a_sidecarPath := None;
     a_isVisible := true; a_livePhotoVideoId := None;
     a_fileCreatedAt := "2023-05-01T10:00:00.000Z";
     a_fileModifiedAt := "2023-05-01T10:00:00.000Z";
     a_duration := None |}.

Definition motion : AssetEntity :=
  {| a_id := "B"; a_ownerId := "u1"; a_type := VIDEO;
     a_originalPath := "/lib/IMG_1.MOV"; a_sidecarPath := None;
     a_isVisible := true; a_livePhotoVideoId := None;
     a_fileCreatedAt := "2023-05-01T10:00:00.000Z";
     a_fileModifiedAt := "2023-05-01T10:00:00.000Z";
     a_duration := None |}.

Definition other : AssetEntity :=
  {| a_id := "C"; a_ownerId := "u1"; a_type := IMAGE;
     a_originalPath := "/lib/IMG_2.JPG"; a_sidecarPath := Some "/lib/IMG_2.JPG.xmp";
     a_isVisible := true; a_livePhotoVideoId := None;
     a_fileCreatedAt := "2023-06-01T10:00:00.000Z";
     a_fileModifiedAt := "2023-06-01T10:00:00.000Z";
     a_duration := None |}.

Definition hidden (a : AssetEntity) : AssetEntity :=
  apply_patch (mkPatch (a_id a) None (Some false) None None None) a.

Definition still_tags : Tags :=
  {[ "Make" := VStr "Apple";
     "ExifImageHeight" := VNum (Fin 3024);
     "ExifImageWidth" := VNum (Fin 4032);
     "Orientation" := VNum (Fin 1);
     "MediaGroupUUID" := VStr "X" ]}.

Definition motion_tags : Tags := {[ "ContentIdentifier" := VStr "X" ]}.

Definition other_tags : Tags :=
  {[ "Make" := VStr "Canon";
     "Model" := VStr "EOS";
     "ExifImageHeight" := VNum (Fin 200);
     "ImageHeight" := VNum (Fin 300);
     "ISO" := VNum (Fin 100) ]}.

Definition other_sidecar_tags : Tags :=
  {[ "Make" := VStr "Canon (edited)";
     "ImageHeight" := VNum (Fin 100);
     "ISO" := VArr [VNum (Fin 800); VNum (Fin 1600)] ]}.

Definition motion_probe : FfprobeData :=
  {| streams :=
       [ {| codec_type := Some "video"; width := Some (Fin 1920);
            height := Some (Fin 1080); rotation := VUndef;
            r_frame_rate := Some "30000/1001" |} ];
     format :=
       {| f_duration := Some (Fin (5 # 2)); f_size := Some (Fin 1000);
          f_tags := Some {[ "location" := VStr "+40.7128-074.0060/" ]} |} |}.

Definition read (path : string) : option Tags :=
  if String.eqb path "/lib/IMG_1.HEIC" then Some still_tags
  else if String.eqb path "/lib/IMG_1.MOV" then Some motion_tags
  else if String.eqb path "/lib/IMG_2.JPG" then Some other_tags
  else if String.eqb path "/lib/IMG_2.JPG.xmp" then Some other_sidecar_tags
  else None.

(** An environment in which every collaborator answers; the arguments
    choose which repository calls fail. *)
Definition library (init_ok : bool) (queue_ok : JobItem -> bool)
    (save_ok : AssetPatch -> bool) : Env :=
  {| DISABLE_REVERSE_GEOCODING := VUndef;
     exiftool_read := read;
     ffprobe := fun path =>
       if String.eqb path "/lib/IMG_1.MOV" then Some motion_probe else None;
     statSync_size := fun _ => Some (Fin 2048);
     sharp_metadata := fun _ => Some (mkSharp (Some (Fin 10)) (Some (Fin 20)) None);
     fs_access := fun _ => ENOENT;
     tz_lookup := fun _ _ => Some "America/New_York";
     reverseGeocode := fun _ _ =>
       Some (mkGeo (VStr "United States") (VStr "New York") (VStr "New York City"));
     geocoding_init_ok := init_ok;
     geocoding_deleteCache_ok := true;
     pause_ok := true;
     resume_ok := true;
     queue_ok := queue_ok;
     save_ok := save_ok;
     upsert_ok := fun _ => true;
     find_ok := fun _ => true;
     pages := fun _ => [Some [still; motion]; Some [other]];
     Date_parse := fun _ => DateMs 1682935200000;
     toISOString := fun _ => "2023-05-01T10:00:00.000Z";
     toString := fun _ => "1";
     Number := fun v => match v with VNum n => n | _ => NaN end;
     Duration_toFormat := fun _ => "00:00:02.500" |}.

Definition all_ok : Env := library true (fun _ => true) (fun _ => true).

Definition w0 : World := mkWorld [still; motion; other] [] [] false [].

End Scenario.

Import Scenario.

(** * Properties *)

(** ** Frame rate (lines 326-332) *)

Module FrameRate.

Definition video_stream (r : string) : FfprobeStream :=
  {| codec_type := Some "video"; width := None; height := None;
     rotation := VUndef; r_frame_rate := Some r |}.

Lemma frameRate_ntsc newExif :
  fps (frameRate (video_stream "30000/1001") newExif) = VNum (Fin 30).
Proof. reflexivity. Qed.

(** Without exactly one slash the field keeps its value. *)
Lemma frameRate_not_a_pair newExif :
  frameRate (video_stream "25") newExif = newExif
  /\ frameRate (video_stream "1/2/3") newExif = newExif.
Proof. split; reflexivity. Qed.

(** C4. The frame rate "30000/1001" is recorded as 30, but "0/0" is not
    recorded as null: both parts parse to 0, the quotient 0/0 is NaN,
    [Math.round] keeps it, and the record's [fps] becomes NaN.  Only the
    number of parts is tested before dividing. *)
Theorem frameRate_zero_over_zero_is_NaN (env : Env) (newExif : ExifEntity) :
  fps (videoStream env newExif (video_stream "30000/1001")) = VNum (Fin 30)
  /\ fps (videoStream env newExif (video_stream "0/0")) = VNum NaN
  /\ fps (videoStream env newExif (video_stream "0/0")) <> VNull.
Proof. repeat split; try reflexivity. discriminate. Qed.

End FrameRate.

(** ** Location strings (lines 283-301) *)

Module LocationFacts.

Fixpoint ends_with_slash (s : string) : bool :=
  match s with
  | EmptyString => false
  | String c EmptyString => Ascii.eqb c "/"
  | String _ r => ends_with_slash r
  end.

Lemma append_cons c a b : String c a ++ b = String c (a ++ b).
Proof. reflexivity. Qed.

Lemma append_assoc a b c : (a ++ b) ++ c = a ++ (b ++ c).
Proof.
  induction a as [|x a IH]; [reflexivity|].
  rewrite !append_cons. f_equal. exact IH.
Qed.

Lemma span_app p s a b : span p s = (a, b) -> s = a ++ b.
Proof.
  revert a b. induction s as [|c s IH]; simpl; intros a b H.
  - injection H as <- <-. reflexivity.
  - destruct (p c).
    + destruct (span p s) as [a' b'] eqn:E. injection H as <- <-.
      change (String c s = String c (a' ++ b')). f_equal. apply IH. reflexivity.
    + injection H as <- <-. reflexivity.
Qed.

Lemma signed_decimal_app s g r : signed_decimal s = Some (g, r) -> s = g ++ r.
Proof.
  unfold signed_decimal. destruct s as [|c s]; [discriminate|].
  destruct (is_sign c); [|discriminate].
  destruct (span is_digit s) as [ip r1] eqn:E1.
  destruct ip as [|d ip]; [discriminate|].
  destruct r1 as [|x r2]; [discriminate|].
  destruct (Ascii.eqb_spec x "."%char) as [->|Hx].
  2:{ destruct x as [[] [] [] [] [] [] [] []]; try discriminate; congruence. }
  destruct (span is_digit r2) as [fp r3] eqn:E2.
  destruct fp as [|f fp]; [discriminate|].
  intros H. injection H as <- <-.
  apply span_app in E1. apply span_app in E2. subst s r2.
  change (String c (String d ip ++ String "." (String f fp ++ r3))
          = String c ((String d ip ++ String "." (String f fp)) ++ r3)).
  f_equal. rewrite append_assoc. reflexivity.
Qed.

Lemma ends_with_slash_app a r :
  ends_with_slash r = true -> ends_with_slash (a ++ r) = true.
Proof.
  intros H. induction a as [|c a IH]; [exact H|].
  change (ends_with_slash (String c (a ++ r)) = true).
  simpl. destruct (a ++ r) eqn:E; [|exact IH].
  destruct a; [|discriminate]. change (r = EmptyString) in E. subst r. discriminate.
Qed.

Lemma groups_then_slash_ends n : forall s gs,
  groups_then_slash n s = Some gs -> ends_with_slash s = true.
Proof.
  induction n as [|n IH]; simpl; intros s gs H.
  - destruct (String.eqb_spec s "/"); [subst; reflexivity | discriminate].
  - destruct (signed_decimal s) as [[g r]|] eqn:E; [|discriminate].
    destruct (groups_then_slash n r) as [gs'|] eqn:E'; [|discriminate].
    apply signed_decimal_app in E. subst s.
    apply ends_with_slash_app. eapply IH. exact E'.
Qed.

Lemma regex_match_ends n s m :
  regex_match n s = Some m -> ends_with_slash s = true.
Proof.
  revert m. induction s as [|c s IH]; intros m H.
  - simpl in H. destruct (groups_then_slash n EmptyString) eqn:E; [|discriminate].
    eapply groups_then_slash_ends. exact E.
  - simpl in H.
    destruct (groups_then_slash n (String c s)) eqn:E.
    + eapply groups_then_slash_ends. exact E.
    + apply (ends_with_slash_app (String c EmptyString)). eapply IH. exact H.
Qed.

(** The canonical pair: latitude 40.7128, longitude -74.0060. *)
Lemma coordinates_pair :
  coordinates 2 (VStr "+40.7128-074.0060/")
  = Ok (Some (VNum (Fin (50891 # 1250)), VNum (Fin (-37003 # 500))))
  /\ (50891 # 1250 == 407128 # 10000)%Q
  /\ (-37003 # 500 == - (740060 # 10000))%Q.
Proof. repeat split. Qed.

(** A string that does not end with a slash yields no coordinates, for
    either pattern. *)
Lemma coordinates_need_trailing_slash n s :
  ends_with_slash s = false -> coordinates n (VStr s) = Ok None.
Proof.
  intros H. unfold coordinates.
  destruct (regex_match n s) as [m|] eqn:E; [|reflexivity].
  apply regex_match_ends in E. congruence.
Qed.

Definition location_tags (v : string) : option Tags :=
  Some {[ "location" := VStr v ]}.

(** C5. The canonical pair parses to (40.7128, -74.0060) and a string
    without the trailing slash yields nothing, but a string with an extra
    field is not rejected: the pattern is anchored at the end only, so a
    triple in the [location] tag matches on its last two groups and the
    record takes the longitude as latitude and the altitude as longitude;
    any text before the last two groups is skipped in the same way. *)
Theorem location_with_extra_field_is_parsed (newExif : ExifEntity) :
  locate (location_tags "+40.7128-074.0060/") newExif
  = Ok (set_coordinates (VNum (Fin (50891 # 1250))) (VNum (Fin (-37003 # 500))) newExif)
  /\ locate (location_tags "+40.7128-074.0060") newExif = Ok newExif
  /\ locate (location_tags "+40.7128-074.0060+010.000/") newExif
     = Ok (set_coordinates (VNum (Fin (-37003 # 500))) (VNum (Fin 10)) newExif)
  /\ locate (location_tags "12+40.7128-074.0060/") newExif
     = Ok (set_coordinates (VNum (Fin (50891 # 1250))) (VNum (Fin (-37003 # 500))) newExif).
Proof. repeat split. Qed.

End LocationFacts.

(** ** Zero coordinates (lines 303-309 and 347-362) *)

Module Geocoding.

(** A coordinate that is null or exactly zero (of either sign). *)
Definition zero_or_null (v : JsVal) : bool :=
  match v with
  | VNull => true
  | VNum n => is_zero n
  | _ => false
  end.

Lemma zero_or_null_falsy v : zero_or_null v = true -> truthy v = false.
Proof.
  destruct v as [| |b|n|s|l|d|d]; simpl; try discriminate; try reflexivity.
  destruct n; simpl; try discriminate; intros H; rewrite ?H; reflexivity.
Qed.

Definition equator : ExifEntity :=
  set_coordinates (VNum (Fin 0)) (VNum (Fin 12))
    (videoExif all_ok motion motion_probe "2023-05-01T10:00:00.000Z" (Some motion_tags)).

(** C9. When the latitude or the longitude of the record is null or exactly
    zero, reverse geocoding makes no lookup and returns the record as it
    was, so country, state and city keep their values, also when reverse
    geocoding is enabled and the other coordinate is present; the time zone
    lookup of video extraction is skipped in the same way.  The world,
    trace included, is unchanged: no call leaves the process. *)
Theorem zero_coordinate_skips_lookups (env : Env) (asset : AssetEntity)
    (newExif : ExifEntity) (w : World) :
  zero_or_null (latitude newExif) = true \/ zero_or_null (longitude newExif) = true ->
  applyReverseGeocoding env asset newExif w = (Ok newExif, w)
  /\ lookupTimeZone env newExif w = (Ok newExif, w).
Proof.
  intros H. unfold applyReverseGeocoding, lookupTimeZone.
  assert (Hf : truthy (longitude newExif) && truthy (latitude newExif) = false).
  { destruct H as [H|H]; apply zero_or_null_falsy in H; rewrite H;
      [apply andb_false_r | reflexivity]. }
  rewrite <- andb_assoc, Hf, andb_false_r. split; reflexivity.
Qed.

Lemma zero_coordinate_skips_lookups_witness :
  reverseGeocodingEnabled all_ok = true
  /\ truthy (longitude equator) = true
  /\ applyReverseGeocoding all_ok motion equator w0 = (Ok equator, w0)
  /\ lookupTimeZone all_ok equator w0 = (Ok equator, w0).
Proof.
  split; [reflexivity|]. split; [reflexivity|].
  apply zero_coordinate_skips_lookups. left. reflexivity.
Defined.

(** With both coordinates present and the geocoder enabled the lookup is
    made. *)
Lemma present_coordinates_are_looked_up :
  let e := set_coordinates (VNum (Fin 1)) (VNum (Fin 12)) equator in
  fst (applyReverseGeocoding all_ok motion e w0)
  = Ok (set_place (VStr "United States") (VStr "New York") (VStr "New York City") e).
Proof. reflexivity. Qed.

End Geocoding.

(** ** The visibility guard *)

Module Visibility.

(** C7, as stated, fails for image extraction: [extractExifInfo] has no
    visibility test, reads the file of an asset that is not visible and
    writes its record. *)
Lemma extractExifInfo_ignores_visibility :
  a_isVisible (hidden still) = false
  /\ extractExifInfo all_ok (hidden still) w0 <> (Ok tt, w0)
  /\ In (EvExifRead "/lib/IMG_1.HEIC")
        (trace (exec (extractExifInfo all_ok (hidden still)) w0))
  /\ map assetId (exifs (exec (extractExifInfo all_ok (hidden still)) w0)) = ["A"].
Proof.
  split; [reflexivity|]. split; [|split].
  - intros H. apply (f_equal (fun r => length (exifs (snd r)))) in H.
    vm_compute in H. discriminate.
  - vm_compute. left. reflexivity.
  - reflexivity.
Qed.

(** C7, amended. An asset that is not visible is skipped by video
    extraction and by the two sidecar handlers before any work: the handler
    returns at once and the world, trace included, is unchanged (no file is
    read, no pairing search is made, no record is written, no asset is
    saved, no job is queued). *)
Theorem hidden_asset_is_skipped (env : Env) (asset : AssetEntity) (w : World) :
  a_isVisible asset = false ->
  extractVideoMetadata env asset w = (Ok tt, w)
  /\ handleSidecarSync env asset w = (Ok tt, w)
  /\ handleSidecarDiscovery env asset w = (Ok tt, w).
Proof.
  intros H.
  unfold extractVideoMetadata, handleSidecarSync, handleSidecarDiscovery.
  rewrite H. repeat split.
Qed.

Lemma hidden_asset_is_skipped_witness :
  extractVideoMetadata all_ok (hidden motion) w0 = (Ok tt, w0)
  /\ handleSidecarSync all_ok (hidden motion) w0 = (Ok tt, w0)
  /\ handleSidecarDiscovery all_ok (hidden motion) w0 = (Ok tt, w0).
Proof. apply hidden_asset_is_skipped. reflexivity. Defined.

End Visibility.

(** ** Initialisation of the geocoder (lines 54-74) *)

Module GeocoderInit.

(** When every call succeeds the build sits between the pause and the
    resume, and the queue ends up running. *)
Lemma init_brackets_the_build env w :
  reverseGeocodingEnabled env = true ->
  pause_ok env = true -> geocoding_init_ok env = true -> resume_ok env = true ->
  init env false w
  = (Ok tt,
     with_paused false
       (log_events
          [EvLog LogWarn "Reverse geocoding is enabled";
           EvLog LogInfo "Initializing Reverse Geocoding";
           EvPause; EvGeoInit; EvResume;
           EvLog LogInfo "Reverse Geocoding Initialized"] w)).
Proof.
  intros He Hp Hi Hr.
  unfold init, try_catch, bind, emit, ret, jobRepository_pause,
    geocodingRepository_init, jobRepository_resume, set_paused, bind, emit, ret.
  rewrite He, Hp, Hi, Hr. simpl.
  unfold with_paused, log_events. simpl.
  repeat rewrite <- app_assoc. reflexivity.
Qed.

(** When the build fails the exception skips the resume: the queue stays
    paused. *)
Lemma init_build_failure env w :
  reverseGeocodingEnabled env = true ->
  pause_ok env = true -> geocoding_init_ok env = false ->
  init env false w
  = (Ok tt,
     with_paused true
       (log_events
          [EvLog LogWarn "Reverse geocoding is enabled";
           EvLog LogInfo "Initializing Reverse Geocoding";
           EvPause; EvGeoInit;
           EvLog LogError "Unable to initialize reverse geocoding"] w)).
Proof.
  intros He Hp Hi.
  unfold init, try_catch, bind, emit, ret, throw, jobRepository_pause,
    geocodingRepository_init, jobRepository_resume, set_paused, bind, emit, ret.
  rewrite He, Hp, Hi. simpl.
  unfold with_paused, log_events. simpl.
  repeat rewrite <- app_assoc. reflexivity.
Qed.

Definition build_fails : Env := library false (fun _ => true) (fun _ => true).

(** C3. With reverse geocoding enabled and a build of the index that
    fails, the queue is paused before the build starts, but it is not
    resumed afterwards: the exception goes from [geocodingRepository.init]
    to the handler, which only logs, and the metadata queue is left
    paused. *)
Theorem build_failure_leaves_queue_paused :
  let w := exec (init build_fails false) w0 in
  reverseGeocodingEnabled build_fails = true
  /\ metadataQueuePaused w0 = false
  /\ metadataQueuePaused w = true
  /\ trace w
     = [EvLog LogWarn "Reverse geocoding is enabled";
        EvLog LogInfo "Initializing Reverse Geocoding";
        EvPause; EvGeoInit;
        EvLog LogError "Unable to initialize reverse geocoding"]
  /\ ~ In EvResume (trace w).
Proof.
  repeat split. vm_compute. intuition discriminate.
Qed.

End GeocoderInit.

(** ** The job queue, one call at a time *)

Module Steps.

Lemma queue_run (env : Env) j w :
  jobRepository_queue env j w
  = if queue_ok env j then
      (Ok tt, mkWorld (assets w) (exifs w) (jobs w ++ [j])%list
                (metadataQueuePaused w) (trace w ++ [EvQueue j])%list)
    else
      (Throw (Rejected "jobRepository.queue"),
       mkWorld (assets w) (exifs w) (jobs w) (metadataQueuePaused w)
         (trace w ++ [EvQueue j])%list).
Proof.
  unfold jobRepository_queue, bind, emit, get_world, set_jobs, throw.
  destruct (queue_ok env j); reflexivity.
Qed.

End Steps.

(** ** The scan dispatcher (lines 76-95) *)

Module Dispatch.

Import Steps.

Section Scan.

Variable env : Env.
Variable job : AssetEntity -> JobItem.

(** The assets of a page whose jobs are emitted: those before the first
    emission that fails; the flag tells whether the page was completed. *)
Fixpoint emitted_of_page (page : list AssetEntity) : list AssetEntity * bool :=
  match page with
  | [] => ([], true)
  | a :: rest =>
      if queue_ok env (job a) then
        (a :: fst (emitted_of_page rest), snd (emitted_of_page rest))
      else ([], false)
  end.

(** The assets of a scan whose jobs are emitted: those before the first
    page request or emission that fails. *)
Fixpoint emitted (results : list (option (list AssetEntity))) : list AssetEntity * bool :=
  match results with
  | [] => ([], true)
  | None :: _ => ([], false)
  | Some page :: rest =>
      if snd (emitted_of_page page) then
        ((fst (emitted_of_page page) ++ fst (emitted rest))%list, snd (emitted rest))
      else (fst (emitted_of_page page), false)
  end.

(** What a run of a queueing loop may change. *)
Definition queues (l : list AssetEntity) (w w' : World) : Prop :=
  jobs w' = (jobs w ++ map job l)%list
  /\ assets w' = assets w
  /\ exifs w' = exifs w
  /\ metadataQueuePaused w' = metadataQueuePaused w.

Lemma queues_refl w : queues [] w w.
Proof. unfold queues. simpl. rewrite app_nil_r. repeat split. Qed.

Lemma for_each_queue page : forall w r w',
  for_each page (fun a => jobRepository_queue env (job a)) w = (r, w') ->
  is_ok r = snd (emitted_of_page page)
  /\ queues (fst (emitted_of_page page)) w w'.
Proof.
  induction page as [|a page IH]; intros w r w' H.
  - injection H as <- <-. split; [reflexivity | apply queues_refl].
  - cbn [for_each emitted_of_page] in *. unfold bind in H. rewrite queue_run in H.
    destruct (queue_ok env (job a)).
    + apply IH in H. destruct H as (Hok & Hj & Ha & He & Hp).
      cbn [fst snd assets exifs jobs metadataQueuePaused] in *.
      split; [exact Hok|].
      unfold queues. rewrite Hj, Ha, He, Hp. cbn [map].
      rewrite <- app_assoc. repeat split.
    + injection H as <- <-. split; [reflexivity|].
      unfold queues. cbn. rewrite app_nil_r. repeat split.
Qed.

Lemma usePagination_queue q results : forall index w r w',
  usePagination q index results
    (fun page => for_each page (fun a => jobRepository_queue env (job a))) w
  = (r, w') ->
  is_ok r = snd (emitted results)
  /\ queues (fst (emitted results)) w w'.
Proof.
  induction results as [|x results IH]; intros index w r w' H.
  - injection H as <- <-. split; [reflexivity | apply queues_refl].
  - cbn [usePagination emitted] in *. unfold bind at 1 in H. unfold emit in H.
    destruct x as [page|].
    + unfold bind at 1 in H.
      match type of H with context [for_each page ?f ?v] =>
        destruct (for_each page f v) as [[[]|e] w1] eqn:E end;
        apply for_each_queue in E; destruct E as (Hok & Hj & Ha & He & Hp);
        rewrite <- Hok; cbn [is_ok fst snd assets exifs jobs metadataQueuePaused] in *.
      * apply IH in H. destruct H as (Hok' & Hj' & Ha' & He' & Hp').
        split; [exact Hok'|]. unfold queues.
        rewrite Hj', Ha', He', Hp', Hj, Ha, He, Hp, map_app, app_assoc.
        repeat split.
      * injection H as <- <-. split; [reflexivity|].
        unfold queues. rewrite Hj, Ha, He, Hp. repeat split.
    + unfold throw in H. injection H as <- <-.
      split; [reflexivity|]. unfold queues. cbn. rewrite app_nil_r. repeat split.
Qed.

End Scan.

Definition extraction (a : AssetEntity) : JobItem := mkJob (extraction_job a) a.

Definition scan_error : Event := EvLog LogError "Unable to queue metadata extraction".

(** The emission of the job of [motion] fails; every other call succeeds. *)
Definition motion_rejected : Env :=
  library true (fun j => negb (String.eqb (a_id (data j)) "B")) (fun _ => true).

(** C6, as stated, fails: a failed emission is not isolated.  The pass
    holds [still] and [motion] on the first page and [other] on the second;
    when the emission for [motion] fails the scan stops, and no job is
    emitted for [other], whose emission would have succeeded; its page is
    not even requested. *)
Lemma failed_emission_stops_the_scan :
  let w := exec (handleQueueMetadataExtraction motion_rejected true) w0 in
  pages motion_rejected GetAll = [Some [still; motion]; Some [other]]
  /\ queue_ok motion_rejected (extraction other) = true
  /\ jobs w = [extraction still]
  /\ trace w
     = [EvGetPage GetAll 0; EvQueue (extraction still); EvQueue (extraction motion);
        scan_error].
Proof. repeat split. Qed.

(** C6, amended. The dispatcher has one handler around the whole scan: a
    failure of a page request and a failure of an emission are treated
    alike.  Jobs are emitted, in order, for the assets that come before the
    first failure of either kind and for no other asset; when there is a
    failure the error is logged as the last action; in every case the
    handler returns normally, and assets and metadata records are left
    alone. *)
Lemma emitted_of_page_complete env job page :
  snd (emitted_of_page env job page) = true ->
  fst (emitted_of_page env job page) = page.
Proof.
  induction page as [|a page IH]; cbn; [reflexivity|].
  destruct (queue_ok env (job a)); cbn; [|discriminate].
  intros H. f_equal. apply IH. exact H.
Qed.

Lemma emitted_complete env job results :
  snd (emitted env job results) = true ->
  fst (emitted env job results) = concat (omap id results).
Proof.
  induction results as [|[page|] results IH]; cbn; try discriminate; [reflexivity|].
  destruct (snd (emitted_of_page env job page)) eqn:E; cbn; [|discriminate].
  intros H. rewrite (emitted_of_page_complete _ _ _ E), (IH H). reflexivity.
Qed.

Theorem scan_stops_at_first_failure (env : Env) (force : bool) (w : World) :
  let results := pages env (if force then GetAll else GetWithoutExif) in
  let planned := emitted env extraction results in
  let out := handleQueueMetadataExtraction env force w in
  fst out = Ok tt
  /\ queues extraction (fst planned) w (snd out)
  /\ (snd planned = false -> last (trace (snd out)) = Some scan_error)
  /\ (snd planned = true ->
      jobs (snd out) = (jobs w ++ map extraction (concat (omap id results)))%list).
Proof.
  intros results planned out. subst out.
  unfold handleQueueMetadataExtraction, try_catch.
  fold results.
  match goal with |- context [usePagination ?q 0 results ?b w] =>
    destruct (usePagination q 0 results b w) as [[[]|e] w1] eqn:E end;
    apply (usePagination_queue env extraction) in E;
    destruct E as (Hok & Hq); fold planned in Hok, Hq; cbn [is_ok] in Hok.
  - cbn [fst snd]. split; [reflexivity|]. split; [exact Hq|].
    split; [intros H; congruence|].
    intros _. destruct Hq as (Hj & _). rewrite Hj. unfold planned.
    rewrite emitted_complete; [reflexivity | symmetry; exact Hok].
  - unfold emit. cbn [fst snd]. split; [reflexivity|].
    split; [exact Hq|]. split.
    + intros _. cbn [trace]. apply last_snoc.
    + intros H. congruence.
Qed.

Lemma scan_stops_at_first_failure_witness :
  snd (emitted motion_rejected extraction (pages motion_rejected GetAll)) = false
  /\ last (trace (snd (handleQueueMetadataExtraction motion_rejected true w0)))
     = Some scan_error.
Proof.
  split; [reflexivity|].
  pose proof (scan_stops_at_first_failure motion_rejected true w0) as H.
  cbv zeta in H. destruct H as (_ & _ & H & _).
  apply H. reflexivity.
Defined.

End Dispatch.


(** ** Precedence of the tag sources (lines 139-152 and 248-268) *)

Module Precedence.

(** The precedence rule as the specification words it, to be compared with
    the loop of [getExifProperty]. *)

(** The value a source gives to a tag, when the source was read and the
    value is neither [null] nor [undefined]. *)
Definition populated (source : option Tags) (property : string) : option JsVal :=
  if is_nullish (get_opt source property) then None
  else Some (get_opt source property).

(** The sidecar value wins over the embedded value. *)
Definition by_source_precedence (sidecar embedded : option Tags) (property : string)
    : option JsVal :=
  match populated sidecar property with
  | Some v => Some v
  | None => populated embedded property
  end.

(** The first alias, in the order requested, that some source populates. *)
Fixpoint first_populated_alias (sidecar embedded : option Tags) (aliases : list string)
    : option JsVal :=
  match aliases with
  | [] => None
  | property :: rest =>
      match by_source_precedence sidecar embedded property with
      | Some v => Some v
      | None => first_populated_alias sidecar embedded rest
      end
  end.

Lemma getExifProperty_first_populated sidecar embedded aliases :
  getExifProperty sidecar embedded aliases
  = default VNull (first_populated_alias sidecar embedded aliases).
Proof.
  induction aliases as [|p rest IH]; [reflexivity|].
  cbn [getExifProperty first_populated_alias].
  unfold by_source_precedence, populated, nullish_or.
  destruct (is_nullish (get_opt sidecar p)) eqn:Es; cbn.
  - destruct (is_nullish (get_opt embedded p)) eqn:Ee; cbn; [exact IH | reflexivity].
  - rewrite Es. reflexivity.
Qed.

Lemma populated_not_nullish source p v :
  populated source p = Some v -> get_opt source p = v /\ is_nullish v = false.
Proof.
  unfold populated. destruct (is_nullish (get_opt source p)) eqn:E; [discriminate|].
  intros H. injection H as <-. split; [reflexivity | exact E].
Qed.

Lemma sidecar_first sidecar embedded F aliases v :
  populated sidecar F = Some v ->
  getExifProperty sidecar embedded (F :: aliases) = v.
Proof.
  intros H. rewrite getExifProperty_first_populated. cbn.
  unfold by_source_precedence. rewrite H. reflexivity.
Qed.

(** The order of the aliases comes before the order of the sources: the
    embedded value of the first alias is taken although the sidecar
    populates the second one. *)
Lemma first_alias_comes_first :
  populated (Some other_sidecar_tags) "ExifImageHeight" = None
  /\ populated (Some other_sidecar_tags) "ImageHeight" = Some (VNum (Fin 100))
  /\ getExifProperty (Some other_sidecar_tags) (Some other_tags)
       ["ExifImageHeight"; "ImageHeight"]
     = VNum (Fin 200).
Proof. repeat split; vm_compute; reflexivity. Qed.

End Precedence.

(** ** Running the handlers: shared facts *)

Module Runs.

Import Steps.

Definition empty_world : World := mkWorld [] [] [] false [].

(** The result and the events of a computation started in the empty
    world. *)
Definition result_of {A} (m : M A) : Res A := fst (m empty_world).
Definition events_of {A} (m : M A) : list Event := trace (snd (m empty_world)).

(** A computation that only talks to the outside: its result is the same
    in every world and the world only gains its events. *)
Definition trace_only {A} (m : M A) : Prop :=
  forall w, m w = (result_of m, log_events (events_of m) w).

Lemma log_events_nil w : log_events [] w = w.
Proof. destruct w. unfold log_events. cbn. rewrite app_nil_r. reflexivity. Qed.

Lemma log_events_app e1 e2 w :
  log_events e2 (log_events e1 w) = log_events (e1 ++ e2) w.
Proof. unfold log_events. cbn. rewrite app_assoc. reflexivity. Qed.

Lemma trace_only_intro {A} (m : M A) r evs :
  (forall w, m w = (r, log_events evs w)) -> trace_only m.
Proof.
  intros H w. unfold result_of, events_of. rewrite !H. reflexivity.
Qed.

Lemma trace_only_ret {A} (a : A) : trace_only (ret a).
Proof.
  apply (trace_only_intro _ (Ok a) []). intros w. unfold ret.
  rewrite log_events_nil. reflexivity.
Qed.

Lemma trace_only_throw {A} e : trace_only (@throw A e).
Proof.
  apply (trace_only_intro _ (Throw e) []). intros w. unfold throw.
  rewrite log_events_nil. reflexivity.
Qed.

Lemma trace_only_lift {A} (r : Res A) : trace_only (lift r).
Proof.
  apply (trace_only_intro _ r []). intros w. unfold lift.
  rewrite log_events_nil. reflexivity.
Qed.

Lemma trace_only_emit ev : trace_only (emit ev).
Proof. apply (trace_only_intro _ (Ok tt) [ev]). intros w. reflexivity. Qed.

Lemma trace_only_bind {A B} (m : M A) (f : A -> M B) :
  trace_only m -> (forall a, trace_only (f a)) -> trace_only (bind m f).
Proof.
  intros Hm Hf. destruct (result_of m) as [a|e] eqn:E.
  - apply (trace_only_intro _ (result_of (f a)) (events_of m ++ events_of (f a))).
    intros w. unfold bind. rewrite Hm, E, Hf, log_events_app. reflexivity.
  - apply (trace_only_intro _ (Throw e) (events_of m)).
    intros w. unfold bind. rewrite Hm, E. reflexivity.
Qed.

(** The result and the events of a sequence. *)
Lemma result_of_bind {A B} (m : M A) (f : A -> M B) :
  trace_only m ->
  result_of (bind m f)
  = match result_of m with
    | Ok a => fst (f a (log_events (events_of m) empty_world))
    | Throw e => Throw e
    end.
Proof.
  intros Hm. unfold result_of at 1. unfold bind. rewrite Hm.
  destruct (result_of m); reflexivity.
Qed.

Ltac trace_only_step :=
  first
    [ apply trace_only_ret
    | apply trace_only_throw
    | apply trace_only_lift
    | apply trace_only_emit
    | apply trace_only_bind; [|intro]
    | match goal with
      | |- trace_only (if ?b then _ else _) => destruct b
      | |- trace_only (match ?x with _ => _ end) => destruct x
      end ].

Ltac trace_only_auto := repeat trace_only_step.

Section WithEnv.

Variable env : Env.

Lemma read_tags_trace_only path : trace_only (read_tags env path).
Proof. unfold read_tags. trace_only_auto. Qed.

Lemma readImage_trace_only asset : trace_only (readImage env asset).
Proof.
  unfold readImage, statSync.
  repeat first [apply read_tags_trace_only | trace_only_step].
Qed.

Lemma applyReverseGeocoding_trace_only asset e :
  trace_only (applyReverseGeocoding env asset e).
Proof. unfold applyReverseGeocoding. trace_only_auto. Qed.

Lemma enrichImage_trace_only asset e : trace_only (enrichImage env asset e).
Proof.
  unfold enrichImage, inspectImage.
  repeat first [apply applyReverseGeocoding_trace_only | trace_only_step].
Qed.

Lemma readVideo_trace_only asset : trace_only (readVideo env asset).
Proof.
  unfold readVideo, probe.
  repeat first [apply read_tags_trace_only | trace_only_step].
Qed.

Lemma enrichVideo_trace_only asset data e : trace_only (enrichVideo env asset data e).
Proof.
  unfold enrichVideo, lookupTimeZone.
  repeat first [apply applyReverseGeocoding_trace_only | trace_only_step].
Qed.

(** *** The repositories, one call at a time *)

(** The columns of an asset that no handler changes. *)
Definition keys (a : AssetEntity) : string * string * AssetType :=
  (a_id a, a_ownerId a, a_type a).

(** The asset table after a save. *)
Definition patch_rows (p : AssetPatch) (rows : list AssetEntity) : list AssetEntity :=
  map (fun x => if id_is (p_id p) x then apply_patch p x else x) rows.

Definition save_rejected : Exn := Rejected "assetRepository.save".

Lemma save_run p w :
  assetCore_save env p w
  = if save_ok env p then
      match List.find (id_is (p_id p)) (assets w) with
      | Some a =>
          (Ok (apply_patch p a),
           mkWorld (patch_rows p (assets w)) (exifs w) (jobs w)
             (metadataQueuePaused w) (trace w ++ [EvSave p])%list)
      | None => (Throw save_rejected, log_events [EvSave p] w)
      end
    else (Throw save_rejected, log_events [EvSave p] w).
Proof.
  unfold assetCore_save, bind, emit, get_world, set_assets, throw, ret.
  destruct (save_ok env p); [|reflexivity]. cbn.
  destruct (List.find (id_is (p_id p)) (assets w)); reflexivity.
Qed.

Lemma find_run o w :
  findLivePhotoMatch env o w
  = if find_ok env o then
      (Ok (List.find (is_candidate o (exifs w)) (assets w)),
       log_events [EvFindLivePhoto o] w)
    else (Throw (Rejected "assetRepository.findLivePhotoMatch"),
          log_events [EvFindLivePhoto o] w).
Proof.
  unfold findLivePhotoMatch, bind, emit, get_world, throw, ret.
  destruct (find_ok env o); reflexivity.
Qed.

Lemma upsert_run e w :
  exifRepository_upsert env e w
  = if upsert_ok env e then
      (Ok tt,
       mkWorld (assets w) (upsert_row e (exifs w)) (jobs w)
         (metadataQueuePaused w) (trace w ++ [EvUpsert e])%list)
    else (Throw (Rejected "exifRepository.upsert"), log_events [EvUpsert e] w).
Proof.
  unfold exifRepository_upsert, bind, emit, get_world, set_exifs, throw.
  destruct (upsert_ok env e); reflexivity.
Qed.

(** A step that leaves the metadata records, the queue and the pause flag
    alone, keeps the identity, owner and type of every asset, and only adds
    to the trace. *)
Definition touches_assets_only (w w' : World) : Prop :=
  exifs w' = exifs w
  /\ jobs w' = jobs w
  /\ metadataQueuePaused w' = metadataQueuePaused w
  /\ map keys (assets w') = map keys (assets w)
  /\ exists evs, trace w' = (trace w ++ evs)%list.

Lemma touches_refl w : touches_assets_only w w.
Proof.
  repeat split. exists []. rewrite app_nil_r. reflexivity.
Qed.

Lemma touches_trans w1 w2 w3 :
  touches_assets_only w1 w2 -> touches_assets_only w2 w3 ->
  touches_assets_only w1 w3.
Proof.
  intros (He & Hj & Hp & Hk & evs & Ht) (He' & Hj' & Hp' & Hk' & evs' & Ht').
  repeat split; try congruence.
  exists (evs ++ evs')%list. rewrite Ht', Ht, app_assoc. reflexivity.
Qed.

Lemma touches_log evs w : touches_assets_only w (log_events evs w).
Proof. repeat split. exists evs. reflexivity. Qed.

Lemma patch_rows_keys p rows : map keys (patch_rows p rows) = map keys rows.
Proof.
  unfold patch_rows. rewrite map_map. apply map_ext. intros a.
  destruct (id_is (p_id p) a); reflexivity.
Qed.

Lemma save_touches p w r w' :
  assetCore_save env p w = (r, w') -> touches_assets_only w w'.
Proof.
  rewrite save_run. intros H.
  destruct (save_ok env p);
    [destruct (List.find (id_is (p_id p)) (assets w))|];
    injection H as <- <-; try apply touches_log.
  repeat split; cbn; [apply patch_rows_keys|]. eexists. reflexivity.
Qed.

Lemma find_touches o w r w' :
  findLivePhotoMatch env o w = (r, w') -> touches_assets_only w w'.
Proof.
  rewrite find_run. intros H.
  destruct (find_ok env o); injection H as <- <-; apply touches_log.
Qed.

(** *** Pairing *)

(** The common shape of lines 180-191 and 270-281: a search, and two saves
    when a match is found. *)
Definition pairing (o : LivePhotoSearchOptions)
    (first second : AssetEntity -> AssetPatch) : M unit :=
  found <- findLivePhotoMatch env o ;;
  match found with
  | Some x =>
      assetCore_save env (first x) ;;
      assetCore_save env (second x) ;;
      ret tt
  | None => ret tt
  end.

Definition link_to (still_id : string) (m : AssetEntity) : AssetPatch :=
  mkPatch still_id (Some (a_id m)) None None None None.

Definition hide (motion_id : string) : AssetPatch :=
  mkPatch motion_id None (Some false) None None None.

Definition search (asset : AssetEntity) (e : ExifEntity) (t : AssetType)
    : LivePhotoSearchOptions :=
  {| s_livePhotoCID := livePhotoCID e;
     s_otherAssetId := a_id asset;
     s_ownerId := a_ownerId asset;
     s_type := t |}.

Lemma pairWithMotion_pairing asset e :
  pairWithMotion env asset e
  = if truthy (livePhotoCID e) && negb (present (a_livePhotoVideoId asset))
    then pairing (search asset e VIDEO) (link_to (a_id asset)) (fun m => hide (a_id m))
    else ret tt.
Proof. reflexivity. Qed.

Lemma pairWithStill_pairing asset e :
  pairWithStill env asset e
  = if truthy (livePhotoCID e)
    then pairing (search asset e IMAGE)
           (fun photo => link_to (a_id photo) asset) (fun _ => hide (a_id asset))
    else ret tt.
Proof. reflexivity. Qed.

Lemma pairing_touches o f s w r w' :
  pairing o f s w = (r, w') -> touches_assets_only w w'.
Proof.
  unfold pairing, bind. intros H.
  destruct (findLivePhotoMatch env o w) as [[found|e] w1] eqn:E1;
    apply find_touches in E1.
  2:{ injection H as <- <-. exact E1. }
  destruct found as [x|].
  2:{ injection H as <- <-. exact E1. }
  destruct (assetCore_save env (f x) w1) as [[a1|e] w2] eqn:E2;
    apply save_touches in E2.
  2:{ injection H as <- <-. eapply touches_trans; eassumption. }
  destruct (assetCore_save env (s x) w2) as [[a2|e] w3] eqn:E3;
    apply save_touches in E3; injection H as <- <-;
    exact (touches_trans _ _ _ E1 (touches_trans _ _ _ E2 E3)).
Qed.

Lemma find_keys (P : AssetEntity -> bool) :
  (forall a b, keys a = keys b -> P a = P b) ->
  forall l1 l2, map keys l1 = map keys l2 ->
  option_map keys (List.find P l1) = option_map keys (List.find P l2).
Proof.
  intros HP. induction l1 as [|a l1 IH]; intros [|b l2] H; try discriminate.
  - reflexivity.
  - assert (Hk : keys a = keys b) by (cbn [map] in H; congruence).
    assert (Hl : map keys l1 = map keys l2) by (cbn [map] in H; congruence).
    cbn. rewrite (HP a b Hk).
    destruct (P b); [cbn; f_equal; exact Hk | apply IH; exact Hl].
Qed.

Lemma id_is_keys id a b : keys a = keys b -> id_is id a = id_is id b.
Proof. unfold keys, id_is. intros H. injection H as -> _ _. reflexivity. Qed.

Lemma is_candidate_keys o rows a b :
  keys a = keys b -> is_candidate o rows a = is_candidate o rows b.
Proof.
  unfold keys, is_candidate, has_cid. intros H. injection H as -> -> ->.
  reflexivity.
Qed.

Lemma save_outcome_keys p w v :
  map keys (assets w) = map keys (assets v) ->
  is_ok (fst (assetCore_save env p w)) = is_ok (fst (assetCore_save env p v)).
Proof.
  intros H. rewrite !save_run. destruct (save_ok env p); [|reflexivity].
  pose proof (find_keys (id_is (p_id p)) (id_is_keys (p_id p)) _ _ H) as Hf.
  destruct (List.find (id_is (p_id p)) (assets w)),
           (List.find (id_is (p_id p)) (assets v)); try discriminate; reflexivity.
Qed.

(** Whether the pairing step throws depends on the world only through the
    metadata records and the identity, owner and type of the assets. *)
Lemma pairing_outcome_keys o f s w v :
  (forall x y, a_id x = a_id y -> f x = f y /\ s x = s y) ->
  map keys (assets w) = map keys (assets v) ->
  exifs w = exifs v ->
  is_ok (fst (pairing o f s w)) = is_ok (fst (pairing o f s v)).
Proof.
  intros Hfs Hk He. unfold pairing, bind. rewrite !find_run, <- He.
  destruct (find_ok env o); [|reflexivity].
  pose proof (find_keys (is_candidate o (exifs w)) (is_candidate_keys o (exifs w))
                _ _ Hk) as Hf.
  destruct (List.find (is_candidate o (exifs w)) (assets w)) as [x|],
           (List.find (is_candidate o (exifs w)) (assets v)) as [y|];
    try discriminate; [|reflexivity].
  cbn in Hf. injection Hf as Hid _ _.
  destruct (Hfs x y Hid) as [<- <-].
  set (w1 := log_events [EvFindLivePhoto o] w).
  set (v1 := log_events [EvFindLivePhoto o] v).
  assert (Hk1 : map keys (assets w1) = map keys (assets v1)) by exact Hk.
  pose proof (save_outcome_keys (f x) w1 v1 Hk1) as H1.
  destruct (assetCore_save env (f x) w1) as [[a1|e1] w2] eqn:E1,
           (assetCore_save env (f x) v1) as [[b1|e1'] v2] eqn:E1';
    try discriminate; [|reflexivity].
  apply save_touches in E1. apply save_touches in E1'.
  assert (Hk2 : map keys (assets w2) = map keys (assets v2)).
  { destruct E1 as (_ & _ & _ & -> & _). destruct E1' as (_ & _ & _ & -> & _).
    exact Hk1. }
  pose proof (save_outcome_keys (s x) w2 v2 Hk2) as H2.
  destruct (assetCore_save env (s x) w2) as [[a2|e2] w3],
           (assetCore_save env (s x) v2) as [[b2|e2'] v3];
    try discriminate; reflexivity.
Qed.

(** *** Persisting *)

(** The columns that pairing writes. *)
Definition links (a : AssetEntity) : string * option string * bool :=
  (a_id a, a_livePhotoVideoId a, a_isVisible a).

Lemma patch_rows_links p rows :
  p_livePhotoVideoId p = None -> p_isVisible p = None ->
  map links (patch_rows p rows) = map links rows.
Proof.
  intros Hl Hv. unfold patch_rows. rewrite map_map. apply map_ext. intros a.
  destruct (id_is (p_id p) a); [|reflexivity].
  unfold links, apply_patch. cbn. rewrite Hl, Hv. reflexivity.
Qed.

(** What a persisting step may change: the metadata records by at most one
    upsert of [e], the columns of the assets that pairing does not write,
    the queue and the trace. *)
Definition persists (e : ExifEntity) (written : bool) (w w' : World) : Prop :=
  exifs w' = (if written then upsert_row e (exifs w) else exifs w)
  /\ map keys (assets w') = map keys (assets w)
  /\ map links (assets w') = map links (assets w)
  /\ metadataQueuePaused w' = metadataQueuePaused w
  /\ exists evs, trace w' = (trace w ++ evs)%list.

Lemma save_then_queue_persists (p : AssetPatch) (name : JobName) e w r w' :
  p_livePhotoVideoId p = None -> p_isVisible p = None ->
  bind (assetCore_save env p) (fun a => jobRepository_queue env (mkJob name a)) w
  = (r, w') ->
  persists e false w w'
  /\ (is_ok r = false -> jobs w' = jobs w)
  /\ (save_ok env p = false -> is_ok r = false /\ assets w' = assets w).
Proof.
  intros Hl Hv. unfold bind. rewrite save_run.
  destruct (save_ok env p) eqn:Es.
  - destruct (List.find (id_is (p_id p)) (assets w)) as [a|].
    + rewrite queue_run. intros H.
      destruct (queue_ok env _); injection H as <- <-; cbn;
        (split; [|split; [|discriminate]]);
        try (intros; discriminate); try reflexivity;
        (repeat split; cbn;
         [apply patch_rows_keys | apply patch_rows_links; assumption
         | eexists; rewrite <- ?app_assoc; reflexivity]).
    + intros H. injection H as <- <-. cbn.
      split; [|split; [reflexivity|discriminate]].
      repeat split. eexists. reflexivity.
  - intros H. injection H as <- <-. cbn.
    split; [|split; [reflexivity|split; reflexivity]].
    repeat split. eexists. reflexivity.
Qed.

Definition created_patch (asset : AssetEntity) (iso : option string) : AssetPatch :=
  mkPatch (a_id asset) None None iso None None.

Lemma saveImage_effects asset e created w r w' :
  saveImage env asset e created w = (r, w') ->
  persists e (upsert_ok env e) w w'
  /\ (is_ok r = false -> jobs w' = jobs w)
  /\ (upsert_ok env e = false -> is_ok r = false /\ assets w' = assets w)
  /\ (forall x, opt_toISOString env created = Throw x ->
               is_ok r = false /\ assets w' = assets w)
  /\ (forall iso, opt_toISOString env created = Ok iso ->
                 save_ok env (created_patch asset iso) = false ->
                 is_ok r = false /\ assets w' = assets w).
Proof.
  unfold saveImage. unfold bind at 1. rewrite upsert_run.
  destruct (upsert_ok env e) eqn:Eu.
  2:{ intros H. injection H as <- <-. cbn.
      split; [repeat split; eexists; reflexivity|].
      split; [reflexivity|]. split; [split; reflexivity|].
      split; intros; split; reflexivity. }
  unfold bind at 1. unfold lift.
  destruct (opt_toISOString env created) as [iso|x] eqn:Ei.
  2:{ intros H. injection H as <- <-. cbn.
      split; [repeat split; eexists; reflexivity|].
      split; [reflexivity|]. split; [discriminate|].
      split; [intros; split; reflexivity | intros; discriminate]. }
  intros H.
  apply (save_then_queue_persists (created_patch asset iso) _ e) in H;
    [|reflexivity|reflexivity].
  destruct H as ((He & Hk & Hl & Hp & evs & Ht) & Hj & Hs). cbn in *.
  split.
  { repeat split; try assumption. eexists. rewrite Ht, <- app_assoc. reflexivity. }
  split; [exact Hj|]. split; [discriminate|]. split; [intros; discriminate|].
  intros iso' Hiso Hsave. injection Hiso as <-. apply Hs. exact Hsave.
Qed.

Definition video_patch (asset : AssetEntity) (fileCreatedAt : string)
    (durationString : option string) : AssetPatch :=
  mkPatch (a_id asset) None None (Some fileCreatedAt) (Some durationString) None.

Lemma saveVideo_effects asset e durationString fileCreatedAt w r w' :
  saveVideo env asset e durationString fileCreatedAt w = (r, w') ->
  persists e (upsert_ok env e) w w'
  /\ (is_ok r = false -> jobs w' = jobs w).
Proof.
  unfold saveVideo. unfold bind at 1. rewrite upsert_run.
  destruct (upsert_ok env e) eqn:Eu.
  2:{ intros H. injection H as <- <-. cbn.
      split; [repeat split; eexists; reflexivity | reflexivity]. }
  intros H.
  apply (save_then_queue_persists (video_patch asset fileCreatedAt durationString) _ e)
    in H; [|reflexivity|reflexivity].
  destruct H as ((He & Hk & Hl & Hp & evs & Ht) & Hj & Hs). cbn in *.
  split; [|exact Hj].
  repeat split; try assumption. eexists. rewrite Ht, <- app_assoc. reflexivity.
Qed.

(** *** The two extraction handlers, phase by phase *)

Definition image_error : Event := EvLog LogError "Error extracting EXIF".

Definition video_error : Event :=
  EvLog LogError "Error in video metadata extraction".

(** What the [catch] clause makes of the outcome of the [try] block. *)
Definition caught (err : Event) (out : Res unit * World) : Res unit * World :=
  match out with
  | (Ok _, w) => (Ok tt, w)
  | (Throw _, w) => (Ok tt, log_events [err] w)
  end.

Lemma extractExifInfo_run asset w :
  extractExifInfo env asset w
  = let w1 := log_events (events_of (readImage env asset)) w in
    match result_of (readImage env asset) with
    | Throw _ => (Ok tt, log_events [image_error] w1)
    | Ok (e, created) =>
        match pairWithMotion env asset e w1 with
        | (Throw _, w2) => (Ok tt, log_events [image_error] w2)
        | (Ok _, w2) =>
            let w3 := log_events (events_of (enrichImage env asset e)) w2 in
            match result_of (enrichImage env asset e) with
            | Throw _ => (Ok tt, log_events [image_error] w3)
            | Ok e' => caught image_error (saveImage env asset e' created w3)
            end
        end
    end.
Proof.
  unfold extractExifInfo, try_catch. unfold bind at 1.
  rewrite readImage_trace_only.
  destruct (result_of (readImage env asset)) as [[e created]|x]; [|reflexivity].
  cbn [fst snd]. unfold bind at 1.
  destruct (pairWithMotion env asset e _) as [[[]|x] w2]; [|reflexivity].
  unfold bind at 1. rewrite enrichImage_trace_only.
  destruct (result_of (enrichImage env asset e)) as [e'|x]; [|reflexivity].
  unfold caught.
  destruct (saveImage env asset e' created _) as [[[]|x] w4]; reflexivity.
Qed.

Lemma extractVideoMetadata_run asset w :
  extractVideoMetadata env asset w
  = if negb (a_isVisible asset) then (Ok tt, w)
    else
      let w1 := log_events (events_of (readVideo env asset)) w in
      match result_of (readVideo env asset) with
      | Throw _ => (Ok tt, log_events [video_error] w1)
      | Ok (data, created, e) =>
          match pairWithStill env asset e w1 with
          | (Throw _, w2) => (Ok tt, log_events [video_error] w2)
          | (Ok _, w2) =>
              let w3 := log_events (events_of (enrichVideo env asset data e)) w2 in
              match result_of (enrichVideo env asset data e) with
              | Throw _ => (Ok tt, log_events [video_error] w3)
              | Ok e' =>
                  caught video_error
                    (saveVideo env asset e' (videoDuration env asset data) created w3)
              end
          end
      end.
Proof.
  unfold extractVideoMetadata.
  destruct (negb (a_isVisible asset)); [reflexivity|].
  unfold try_catch. unfold bind at 1.
  rewrite readVideo_trace_only.
  destruct (result_of (readVideo env asset)) as [[[data created] e]|x]; [|reflexivity].
  cbn [fst snd]. unfold bind at 1.
  destruct (pairWithStill env asset e _) as [[[]|x] w2]; [|reflexivity].
  unfold bind at 1. rewrite enrichVideo_trace_only.
  destruct (result_of (enrichVideo env asset data e)) as [e'|x]; [|reflexivity].
  unfold caught.
  destruct (saveVideo env asset e' _ created _) as [[[]|x] w4]; reflexivity.
Qed.

End WithEnv.

End Runs.

(** ** Idempotence of extraction (lines 215 and 336) *)

Module Idempotence.

Import Steps Runs.

Definition has_key (k : string) (r : ExifEntity) : bool := String.eqb (assetId r) k.

Lemma upsert_row_idem e rows : upsert_row e (upsert_row e rows) = upsert_row e rows.
Proof.
  induction rows as [|r rows IH]; cbn.
  - rewrite String.eqb_refl. reflexivity.
  - destruct (String.eqb (assetId r) (assetId e)) eqn:E; cbn.
    + rewrite String.eqb_refl. reflexivity.
    + rewrite E, IH. reflexivity.
Qed.

Lemma upsert_row_key_in e rows k :
  In k (map assetId (upsert_row e rows)) -> k = assetId e \/ In k (map assetId rows).
Proof.
  induction rows as [|r rows IH]; cbn.
  - intros [<-|[]]. left. reflexivity.
  - destruct (String.eqb_spec (assetId r) (assetId e)) as [Heq|Hne]; cbn.
    + intros [<-|H]; [left; reflexivity | right; right; exact H].
    + intros [<-|H]; [right; left; reflexivity|].
      destruct (IH H) as [->|H']; [left; reflexivity | right; right; exact H'].
Qed.

(** At most one record per asset: keys stay distinct. *)
Lemma upsert_row_NoDup e rows :
  NoDup (map assetId rows) -> NoDup (map assetId (upsert_row e rows)).
Proof.
  induction rows as [|r rows IH]; cbn; intros H.
  - apply NoDup_singleton.
  - apply NoDup_cons in H. destruct H as [Hin Hnd].
    destruct (String.eqb_spec (assetId r) (assetId e)) as [Heq|Hne]; cbn.
    + rewrite <- Heq. apply NoDup_cons. split; assumption.
    + apply NoDup_cons. split; [|apply IH; exact Hnd].
      intros Hin'. apply list_elem_of_In, upsert_row_key_in in Hin'.
      destruct Hin' as [Heq|Hin']; [congruence|].
      apply Hin, list_elem_of_In. exact Hin'.
Qed.

(** The record found under the key after an upsert is the new record as a
    whole. *)
Lemma upsert_row_stores e rows :
  List.find (has_key (assetId e)) (upsert_row e rows) = Some e.
Proof.
  unfold has_key. induction rows as [|r rows IH]; cbn.
  - rewrite String.eqb_refl. reflexivity.
  - destruct (String.eqb (assetId r) (assetId e)) eqn:E; cbn.
    + rewrite String.eqb_refl. reflexivity.
    + rewrite E. exact IH.
Qed.

Section WithEnv.

Variable env : Env.

(** The record image extraction writes when it reaches the upsert and the
    upsert succeeds. *)
Definition image_record (asset : AssetEntity) : option ExifEntity :=
  match result_of (readImage env asset) with
  | Ok (e, _) =>
      match result_of (enrichImage env asset e) with
      | Ok e' => if upsert_ok env e' then Some e' else None
      | Throw _ => None
      end
  | Throw _ => None
  end.

(** Whether image extraction gets past the pairing step in [w]. *)
Definition image_pairs (asset : AssetEntity) (w : World) : bool :=
  match result_of (readImage env asset) with
  | Ok (e, _) => is_ok (fst (pairWithMotion env asset e w))
  | Throw _ => false
  end.

Definition video_record (asset : AssetEntity) : option ExifEntity :=
  match result_of (readVideo env asset) with
  | Ok (data, _, e) =>
      match result_of (enrichVideo env asset data e) with
      | Ok e' => if upsert_ok env e' then Some e' else None
      | Throw _ => None
      end
  | Throw _ => None
  end.

Definition video_pairs (asset : AssetEntity) (w : World) : bool :=
  match result_of (readVideo env asset) with
  | Ok (_, _, e) => is_ok (fst (pairWithStill env asset e w))
  | Throw _ => false
  end.

Definition same_identities (w v : World) : Prop :=
  map keys (assets w) = map keys (assets v) /\ exifs w = exifs v.

Lemma pairWithMotion_touches asset e w r w' :
  pairWithMotion env asset e w = (r, w') -> touches_assets_only w w'.
Proof.
  rewrite pairWithMotion_pairing.
  destruct (truthy (livePhotoCID e) && negb (present (a_livePhotoVideoId asset))).
  - apply pairing_touches.
  - intros H. injection H as <- <-. apply touches_refl.
Qed.

Lemma pairWithStill_touches asset e w r w' :
  pairWithStill env asset e w = (r, w') -> touches_assets_only w w'.
Proof.
  rewrite pairWithStill_pairing. destruct (truthy (livePhotoCID e)).
  - apply pairing_touches.
  - intros H. injection H as <- <-. apply touches_refl.
Qed.

Lemma pairWithMotion_outcome asset e w v :
  same_identities w v ->
  is_ok (fst (pairWithMotion env asset e w)) = is_ok (fst (pairWithMotion env asset e v)).
Proof.
  intros [Hk He]. rewrite !pairWithMotion_pairing.
  destruct (truthy (livePhotoCID e) && negb (present (a_livePhotoVideoId asset)));
    [|reflexivity].
  apply pairing_outcome_keys; try assumption.
  intros x y Hxy. unfold link_to. rewrite Hxy. split; reflexivity.
Qed.

Lemma pairWithStill_outcome asset e w v :
  same_identities w v ->
  is_ok (fst (pairWithStill env asset e w)) = is_ok (fst (pairWithStill env asset e v)).
Proof.
  intros [Hk He]. rewrite !pairWithStill_pairing.
  destruct (truthy (livePhotoCID e)); [|reflexivity].
  apply pairing_outcome_keys; try assumption.
  intros x y Hxy. unfold link_to. rewrite Hxy. split; reflexivity.
Qed.

(** The metadata records after a run of image extraction. *)
Lemma image_summary asset w :
  let w' := exec (extractExifInfo env asset) w in
  map keys (assets w') = map keys (assets w)
  /\ exifs w'
     = match image_record asset with
       | Some e' => if image_pairs asset w then upsert_row e' (exifs w) else exifs w
       | None => exifs w
       end.
Proof.
  unfold exec, image_record, image_pairs. rewrite extractExifInfo_run. cbv zeta.
  destruct (result_of (readImage env asset)) as [[e created]|x];
    [|split; reflexivity].
  set (w1 := log_events (events_of (readImage env asset)) w).
  assert (Hsame : same_identities w1 w) by (split; reflexivity).
  rewrite <- (pairWithMotion_outcome asset e w1 w Hsame).
  destruct (pairWithMotion env asset e w1) as [[[]|x] w2] eqn:Ep;
    apply pairWithMotion_touches in Ep;
    destruct Ep as (He & _ & _ & Hk & _); cbn [fst snd is_ok].
  2:{ cbn. rewrite He, Hk. split; [reflexivity|].
      destruct (result_of (enrichImage env asset e)) as [e'|]; [|reflexivity].
      destruct (upsert_ok env e'); reflexivity. }
  destruct (result_of (enrichImage env asset e)) as [e'|x].
  2:{ cbn. rewrite He, Hk. split; reflexivity. }
  set (w3 := log_events (events_of (enrichImage env asset e)) w2).
  destruct (saveImage env asset e' created w3) as [r w4] eqn:Es.
  apply saveImage_effects in Es.
  destruct Es as ((He4 & Hk4 & _) & _).
  assert (Hx : exifs (snd (caught image_error (r, w4))) = exifs w4
               /\ assets (snd (caught image_error (r, w4))) = assets w4).
  { destruct r; split; reflexivity. }
  destruct Hx as [-> ->]. rewrite Hk4, He4. cbn. rewrite He, Hk.
  split; [reflexivity|]. destruct (upsert_ok env e'); reflexivity.
Qed.

Lemma video_summary asset w :
  let w' := exec (extractVideoMetadata env asset) w in
  map keys (assets w') = map keys (assets w)
  /\ exifs w'
     = if negb (a_isVisible asset) then exifs w
       else
         match video_record asset with
         | Some e' => if video_pairs asset w then upsert_row e' (exifs w) else exifs w
         | None => exifs w
         end.
Proof.
  unfold exec, video_record, video_pairs. rewrite extractVideoMetadata_run. cbv zeta.
  destruct (negb (a_isVisible asset)); [split; reflexivity|].
  destruct (result_of (readVideo env asset)) as [[[data created] e]|x];
    [|split; reflexivity].
  set (w1 := log_events (events_of (readVideo env asset)) w).
  assert (Hsame : same_identities w1 w) by (split; reflexivity).
  rewrite <- (pairWithStill_outcome asset e w1 w Hsame).
  destruct (pairWithStill env asset e w1) as [[[]|x] w2] eqn:Ep;
    apply pairWithStill_touches in Ep;
    destruct Ep as (He & _ & _ & Hk & _); cbn [fst snd is_ok].
  2:{ cbn. rewrite He, Hk. split; [reflexivity|].
      destruct (result_of (enrichVideo env asset data e)) as [e'|]; [|reflexivity].
      destruct (upsert_ok env e'); reflexivity. }
  destruct (result_of (enrichVideo env asset data e)) as [e'|x].
  2:{ cbn. rewrite He, Hk. split; reflexivity. }
  set (w3 := log_events (events_of (enrichVideo env asset data e)) w2).
  destruct (saveVideo env asset e' (videoDuration env asset data) created w3)
    as [r w4] eqn:Es.
  apply saveVideo_effects in Es.
  destruct Es as ((He4 & Hk4 & _) & _).
  assert (Hx : exifs (snd (caught video_error (r, w4))) = exifs w4
               /\ assets (snd (caught video_error (r, w4))) = assets w4).
  { destruct r; split; reflexivity. }
  destruct Hx as [-> ->]. rewrite Hk4, He4. cbn. rewrite He, Hk.
  split; [reflexivity|]. destruct (upsert_ok env e'); reflexivity.
Qed.

Lemma image_pairs_same asset w v :
  same_identities w v -> image_pairs asset w = image_pairs asset v.
Proof.
  intros H. unfold image_pairs.
  destruct (result_of (readImage env asset)) as [[e created]|x]; [|reflexivity].
  apply pairWithMotion_outcome. exact H.
Qed.

Lemma video_pairs_same asset w v :
  same_identities w v -> video_pairs asset w = video_pairs asset v.
Proof.
  intros H. unfold video_pairs.
  destruct (result_of (readVideo env asset)) as [[[data created] e]|x]; [|reflexivity].
  apply pairWithStill_outcome. exact H.
Qed.

Lemma image_twice asset w :
  let image := exec (extractExifInfo env asset) in
  exifs (image (image w)) = exifs (image w).
Proof.
  cbv zeta.
  destruct (image_summary asset w) as [Hk He].
  destruct (image_summary asset (exec (extractExifInfo env asset) w)) as [_ He'].
  cbv zeta in *. rewrite He'. clear He'.
  destruct (image_record asset) as [e'|]; [|reflexivity].
  destruct (image_pairs asset w) eqn:Ep.
  - rewrite He, upsert_row_idem.
    match goal with |- context [if ?b then _ else _] => destruct b end; reflexivity.
  - rewrite (image_pairs_same asset _ w), Ep; [reflexivity|].
    split; [exact Hk | exact He].
Qed.

Lemma video_twice asset w :
  let video := exec (extractVideoMetadata env asset) in
  exifs (video (video w)) = exifs (video w).
Proof.
  cbv zeta.
  destruct (video_summary asset w) as [Hk He].
  destruct (video_summary asset (exec (extractVideoMetadata env asset) w)) as [_ He'].
  cbv zeta in *. rewrite He'. clear He'.
  destruct (negb (a_isVisible asset)); [reflexivity|].
  destruct (video_record asset) as [e'|]; [|reflexivity].
  destruct (video_pairs asset w) eqn:Ep.
  - rewrite He, upsert_row_idem.
    match goal with |- context [if ?b then _ else _] => destruct b end; reflexivity.
  - rewrite (video_pairs_same asset _ w), Ep; [reflexivity|].
    split; [exact Hk | exact He].
Qed.

End WithEnv.

(** C8. Running image extraction, or video extraction, a second time on the
    same asset snapshot in an unchanged environment leaves the table of
    metadata records exactly as the first run left it.  The upsert is keyed
    by the asset identity and replaces the record as a whole: the record
    found under the key afterwards is the new one, and the keys of the
    table stay distinct, so there is never more than one record per
    asset. *)
Theorem extraction_is_idempotent (env : Env) (asset : AssetEntity) (w : World) :
  let image := exec (extractExifInfo env asset) in
  let video := exec (extractVideoMetadata env asset) in
  exifs (image (image w)) = exifs (image w)
  /\ exifs (video (video w)) = exifs (video w)
  /\ (forall e rows, List.find (has_key (assetId e)) (upsert_row e rows) = Some e)
  /\ (NoDup (map assetId (exifs w)) ->
      NoDup (map assetId (exifs (image w)))
      /\ NoDup (map assetId (exifs (video w)))).
Proof.
  cbv zeta. split; [apply image_twice|]. split; [apply video_twice|].
  split; [apply upsert_row_stores|].
  intros Hnd.
  destruct (image_summary env asset w) as [_ Hi].
  destruct (video_summary env asset w) as [_ Hv].
  cbv zeta in *. rewrite Hi, Hv. split.
  - destruct (image_record env asset) as [e'|]; [|exact Hnd].
    destruct (image_pairs env asset w); [apply upsert_row_NoDup|]; exact Hnd.
  - destruct (negb (a_isVisible asset)); [exact Hnd|].
    destruct (video_record env asset) as [e'|]; [|exact Hnd].
    destruct (video_pairs env asset w); [apply upsert_row_NoDup|]; exact Hnd.
Qed.

Lemma extraction_is_idempotent_witness :
  let image := exec (extractExifInfo all_ok still) in
  map assetId (exifs (image w0)) = ["A"]
  /\ exifs (image (image w0)) = exifs (image w0)
  /\ NoDup (map assetId (exifs (image w0))).
Proof.
  cbv zeta. split; [reflexivity|].
  destruct (extraction_is_idempotent all_ok still w0) as (H1 & _ & _ & H4).
  split; [exact H1|]. apply H4. apply NoDup_nil_2.
Defined.

End Idempotence.

(** ** Failures after pairing in image extraction (lines 180-223) *)

Module AfterPairing.

Import Steps Runs Idempotence.

(** The library after the motion part has been extracted: its record, with
    the content identifier, is in the table. *)
Definition motion_first : World := exec (extractVideoMetadata all_ok motion) w0.

(** Every call succeeds except the save of the capture time after the
    upsert. *)
Definition last_save_fails : Env :=
  library true (fun _ => true) (fun p => negb (bool_decide (is_Some (p_fileCreatedAt p)))).

(** C10, as stated, fails when the step that throws is the asset save: the
    upsert comes before that save, so the metadata record has been written.
    Here the still is extracted after its motion part; the pairing saves
    succeed, the upsert succeeds, the save of the capture time throws, the
    handler logs and returns, and the record of the still is in the table. *)
Lemma record_is_written_when_the_save_throws :
  let out := extractExifInfo last_save_fails still motion_first in
  fst out = Ok tt
  /\ map assetId (exifs motion_first) = ["B"]
  /\ map assetId (exifs (snd out)) = ["B"; "A"]
  /\ jobs (snd out) = jobs motion_first
  /\ map links (assets (snd out))
     = [("A", Some "B", true); ("B", None, false); ("C", None, true)]
  /\ last (trace (snd out)) = Some image_error.
Proof. cbv zeta. repeat split; vm_compute; reflexivity. Qed.

Section WithEnv.

Variable env : Env.
Variable asset : AssetEntity.

(** The save after the upsert throws: its argument cannot be computed, or
    the repository rejects it. *)
Definition last_save_throws (created : JsVal) : Prop :=
  (exists x, opt_toISOString env created = Throw x)
  \/ (exists iso, opt_toISOString env created = Ok iso
                  /\ save_ok env (created_patch asset iso) = false).

(** The job ended in the handler, after the pairing left the world [w2],
    with the metadata records [rows]. *)
Definition abandoned (w w2 : World) (rows : list ExifEntity)
    (out : Res unit * World) : Prop :=
  exifs (snd out) = rows
  /\ jobs (snd out) = jobs w
  /\ assets (snd out) = assets w2
  /\ last (trace (snd out)) = Some image_error.

End WithEnv.

(** C10, amended. In image extraction the pairing saves come before the
    upsert and nothing undoes them: whatever happens later, the link and
    visibility columns of every asset are as the pairing step left them, the
    events of the pairing step stay at the front of what follows, and the
    handler returns normally.  When the inspection of the image header or
    the upsert throws, no metadata record is written and no follow-up job is
    queued, and the error is logged.  When the save that follows the upsert
    throws, no follow-up job is queued and the error is logged, but the
    metadata record has been written. *)
Theorem pairing_is_not_rolled_back (env : Env) (asset : AssetEntity) (w w2 : World)
    (e : ExifEntity) (created : JsVal) :
  result_of (readImage env asset) = Ok (e, created) ->
  pairWithMotion env asset e (log_events (events_of (readImage env asset)) w)
  = (Ok tt, w2) ->
  let out := extractExifInfo env asset w in
  fst out = Ok tt
  /\ map links (assets (snd out)) = map links (assets w2)
  /\ (exists later, trace (snd out) = (trace w2 ++ later)%list)
  /\ (forall x, result_of (enrichImage env asset e) = Throw x ->
                abandoned w w2 (exifs w) out)
  /\ (forall e', result_of (enrichImage env asset e) = Ok e' ->
                 upsert_ok env e' = false ->
                 abandoned w w2 (exifs w) out)
  /\ (forall e', result_of (enrichImage env asset e) = Ok e' ->
                 upsert_ok env e' = true ->
                 last_save_throws env asset created ->
                 abandoned w w2 (upsert_row e' (exifs w)) out).
Proof.
  intros Hread Hpair. cbv zeta. rewrite extractExifInfo_run. cbv zeta.
  rewrite Hread, Hpair.
  apply pairWithMotion_touches in Hpair.
  destruct Hpair as (He2 & Hj2 & _ & _ & _). cbn [exifs jobs log_events] in He2, Hj2.
  destruct (result_of (enrichImage env asset e)) as [e'|x] eqn:Eenrich.
  2:{ cbn. split; [reflexivity|]. split; [reflexivity|].
      split; [eexists; rewrite <- app_assoc; reflexivity|].
      split; [|split; intros; discriminate].
      intros _ _. unfold abandoned. cbn.
      rewrite He2, Hj2. repeat split. apply last_snoc. }
  set (w3 := log_events (events_of (enrichImage env asset e)) w2).
  destruct (saveImage env asset e' created w3) as [r w4] eqn:Es.
  apply saveImage_effects in Es.
  destruct Es as ((He4 & _ & Hl4 & _ & evs & Ht4) & Hj4 & Hu & Hiso & Hsave).
  cbn [exifs jobs assets trace log_events w3] in He4, Hl4, Ht4, Hj4, Hu, Hiso, Hsave.
  assert (Hfst : fst (caught image_error (r, w4)) = Ok tt) by (destruct r; reflexivity).
  assert (Hok : forall f : World -> list AssetEntity,
            f = assets -> f (snd (caught image_error (r, w4))) = f w4).
  { intros f ->. destruct r; reflexivity. }
  assert (Hthrown : is_ok r = false ->
            snd (caught image_error (r, w4)) = log_events [image_error] w4).
  { destruct r; [discriminate | reflexivity]. }
  split; [exact Hfst|].
  split; [rewrite (Hok assets eq_refl); exact Hl4|].
  split.
  { destruct r; cbn; eexists; rewrite Ht4, <- ?app_assoc; reflexivity. }
  split; [intros; discriminate|].
  assert (Hab : forall rows, is_ok r = false -> assets w4 = assets w2 ->
            exifs w4 = rows -> abandoned w w2 rows (caught image_error (r, w4))).
  { intros rows Hr Ha Hrows. unfold abandoned. rewrite (Hthrown Hr). cbn.
    rewrite (Hj4 Hr), Ha, Hrows, Hj2. repeat split. apply last_snoc. }
  split.
  - intros e'' He'' Hup. injection He'' as <-.
    destruct (Hu Hup) as [Hr Ha]. apply Hab; try assumption.
    rewrite He4, Hup. exact He2.
  - intros e'' He'' Hup Hthrows. injection He'' as <-.
    assert (Hra : is_ok r = false /\ assets w4 = assets w2).
    { destruct Hthrows as [[x Hx]|(iso & Hi & Hs)];
        [apply (Hiso x Hx) | apply (Hsave iso Hi Hs)]. }
    destruct Hra as [Hr Ha]. apply Hab; try assumption.
    rewrite He4, Hup, He2. reflexivity.
Qed.

Lemma pairing_is_not_rolled_back_witness :
  let out := extractExifInfo last_save_fails still motion_first in
  map links (assets (snd out))
  = [("A", Some "B", true); ("B", None, false); ("C", None, true)]
  /\ map assetId (exifs (snd out)) = ["B"; "A"]
  /\ jobs (snd out) = jobs motion_first.
Proof.
  cbv zeta.
  edestruct (pairing_is_not_rolled_back last_save_fails still motion_first)
    as (_ & Hlinks & _ & _ & _ & Hsave);
    [vm_compute; reflexivity | vm_compute; reflexivity |].
  cbv zeta in Hlinks, Hsave.
  edestruct Hsave as (He & Hj & _ & _);
    [vm_compute; reflexivity | vm_compute; reflexivity
    | right; eexists; split; vm_compute; reflexivity |].
  rewrite Hlinks, He, Hj. repeat split; vm_compute; reflexivity.
Defined.

End AfterPairing.

(** ** Live-photo pairing in either order (lines 180-191 and 270-281) *)

Module LivePhoto.

Import Steps Runs Idempotence.

Definition link (still_id motion_id : string) : AssetPatch :=
  mkPatch still_id (Some motion_id) None None None None.

Lemma map_keys_ids l l0 : map keys l = map keys l0 -> map a_id l = map a_id l0.
Proof.
  intros H. apply (f_equal (map (fun k : string * string * AssetType => fst (fst k)))) in H.
  rewrite !map_map in H. exact H.
Qed.

Lemma patch_rows_ids p l : map a_id (patch_rows p l) = map a_id l.
Proof. apply map_keys_ids, patch_rows_keys. Qed.

Lemma find_id_some id l :
  In id (map a_id l) -> exists a, List.find (id_is id) l = Some a /\ a_id a = id.
Proof.
  induction l as [|x l IH]; cbn; [intros []|].
  unfold id_is at 1. destruct (String.eqb_spec (a_id x) id) as [Heq|Hne].
  - intros _. exists x. split; [reflexivity | exact Heq].
  - intros [H|H]; [contradiction | apply IH; exact H].
Qed.

(** When no record of the table carries the identifier and the new record
    does, the assets with that identifier are those with the key of the new
    record. *)
Lemma has_cid_upsert e rows cid y :
  cid_matches cid e = true ->
  (forall r, In r rows -> cid_matches cid r = false) ->
  has_cid (upsert_row e rows) cid y = String.eqb (assetId e) (a_id y).
Proof.
  intros He Hrows. unfold has_cid.
  assert (Hnone : forall l, (forall r, In r l -> cid_matches cid r = false) ->
            existsb (fun r => String.eqb (assetId r) (a_id y) && cid_matches cid r) l
            = false).
  { induction l as [|r l IH]; cbn; intros H; [reflexivity|].
    rewrite (H r (or_introl eq_refl)), andb_false_r. apply IH.
    intros r' Hr'. apply H. right. exact Hr'. }
  induction rows as [|r rows IH]; cbn.
  - rewrite He, andb_true_r, orb_false_r. reflexivity.
  - destruct (String.eqb (assetId r) (assetId e)); cbn.
    + rewrite He, andb_true_r, Hnone, orb_false_r; [reflexivity|].
      intros r' Hr'. apply Hrows. right. exact Hr'.
    + rewrite (Hrows r (or_introl eq_refl)), andb_false_r. cbn. apply IH.
      intros r' Hr'. apply Hrows. right. exact Hr'.
Qed.

Lemma has_cid_none rows cid y :
  (forall r, In r rows -> cid_matches cid r = false) -> has_cid rows cid y = false.
Proof.
  intros H. unfold has_cid. induction rows as [|r rows IH]; cbn; [reflexivity|].
  rewrite (H r (or_introl eq_refl)), andb_false_r. apply IH.
  intros r' Hr'. apply H. right. exact Hr'.
Qed.

Lemma find_candidate_none o rows l :
  (forall y, has_cid rows (s_livePhotoCID o) y = false) ->
  List.find (is_candidate o rows) l = None.
Proof.
  intros H. induction l as [|y l IH]; cbn; [reflexivity|].
  unfold is_candidate at 1. rewrite H, andb_false_r. exact IH.
Qed.

(** With distinct identities, the search finds the sibling when it is the
    only asset whose record carries the identifier. *)
Lemma find_candidate_sibling o rows sib : forall l,
  NoDup (map a_id l) -> In (keys sib) (map keys l) ->
  a_id sib <> s_otherAssetId o ->
  a_ownerId sib = s_ownerId o -> a_type sib = s_type o ->
  (forall y, has_cid rows (s_livePhotoCID o) y = String.eqb (a_id sib) (a_id y)) ->
  exists m, List.find (is_candidate o rows) l = Some m /\ a_id m = a_id sib.
Proof.
  intros l Hnd Hin Hne Ho Ht Hcid.
  induction l as [|y l IH]; [destruct Hin|].
  cbn [map] in Hnd. apply NoDup_cons in Hnd. destruct Hnd as [Hy Hnd].
  cbn [List.find]. unfold is_candidate at 1. rewrite Hcid.
  destruct (String.eqb_spec (a_id sib) (a_id y)) as [Heq|Hneq].
  - assert (Hk : keys y = keys sib).
    { destruct Hin as [Hk|Hin]; [exact Hk|]. exfalso. apply Hy.
      apply list_elem_of_In. rewrite <- Heq.
      apply (in_map (fun k : string * string * AssetType => fst (fst k))) in Hin.
      rewrite map_map in Hin. exact Hin. }
    unfold keys in Hk. injection Hk as Hid Hown Hty.
    rewrite Hid, Hown, Hty, Ho, Ht.
    destruct (String.eqb_spec (a_id sib) (s_otherAssetId o)); [contradiction|].
    rewrite String.eqb_refl. cbn.
    assert (Htt : AssetType_eqb (s_type o) (s_type o) = true)
      by (destruct (s_type o); reflexivity).
    rewrite Htt. cbn. exists y. split; [reflexivity | exact Hid].
  - rewrite andb_false_r. apply IH; [exact Hnd|].
    destruct Hin as [Hk|Hin]; [|exact Hin].
    exfalso. apply Hneq. unfold keys in Hk. injection Hk as -> _ _. reflexivity.
Qed.

Section Success.

Variable env : Env.

(** No repository call is rejected. *)
Definition repositories_answer : Prop :=
  (forall o, find_ok env o = true)
  /\ (forall p, save_ok env p = true)
  /\ (forall e, upsert_ok env e = true)
  /\ (forall j, queue_ok env j = true).

Hypothesis Hrepo : repositories_answer.

Lemma save_answers p w :
  In (p_id p) (map a_id (assets w)) ->
  exists a w',
    assetCore_save env p w = (Ok a, w')
    /\ assets w' = patch_rows p (assets w) /\ exifs w' = exifs w.
Proof.
  destruct Hrepo as (_ & Hsave & _).
  intros Hin. rewrite save_run, Hsave.
  destruct (find_id_some _ _ Hin) as (a & -> & _).
  eexists _, _. repeat split.
Qed.

Lemma pairing_none o f s w :
  List.find (is_candidate o (exifs w)) (assets w) = None ->
  pairing env o f s w = (Ok tt, log_events [EvFindLivePhoto o] w).
Proof.
  destruct Hrepo as (Hfind & _).
  intros H. unfold pairing, bind. rewrite find_run, Hfind, H. reflexivity.
Qed.

Lemma pairing_found o f s w m :
  List.find (is_candidate o (exifs w)) (assets w) = Some m ->
  In (p_id (f m)) (map a_id (assets w)) ->
  In (p_id (s m)) (map a_id (assets w)) ->
  exists w',
    pairing env o f s w = (Ok tt, w')
    /\ assets w' = patch_rows (s m) (patch_rows (f m) (assets w))
    /\ exifs w' = exifs w.
Proof.
  destruct Hrepo as (Hfind & _).
  intros H Hf Hs. unfold pairing, bind. rewrite find_run, Hfind, H.
  destruct (save_answers (f m) (log_events [EvFindLivePhoto o] w) Hf)
    as (a1 & w1 & -> & Ha1 & He1).
  assert (Hs1 : In (p_id (s m)) (map a_id (assets w1))).
  { rewrite Ha1, patch_rows_ids. exact Hs. }
  destruct (save_answers (s m) w1 Hs1) as (a2 & w2 & -> & Ha2 & He2).
  exists w2. split; [reflexivity|]. rewrite Ha2, Ha1, He2, He1. split; reflexivity.
Qed.

Lemma saveImage_answers asset e created iso w :
  opt_toISOString env created = Ok iso ->
  In (a_id asset) (map a_id (assets w)) ->
  exists w',
    saveImage env asset e created w = (Ok tt, w')
    /\ assets w' = patch_rows (created_patch asset iso) (assets w)
    /\ exifs w' = upsert_row e (exifs w).
Proof.
  destruct Hrepo as (_ & _ & Hupsert & Hqueue).
  intros Hiso Hin. unfold saveImage. unfold bind at 1. rewrite upsert_run, Hupsert.
  unfold bind at 1. unfold lift. rewrite Hiso. unfold bind.
  match goal with |- context [assetCore_save env ?p ?v] =>
    destruct (save_answers p v Hin) as (a & w1 & -> & Ha & He) end.
  rewrite queue_run, Hqueue. eexists. split; [reflexivity|].
  cbn. rewrite Ha, He. split; reflexivity.
Qed.

Lemma saveVideo_answers asset e durationString created w :
  In (a_id asset) (map a_id (assets w)) ->
  exists w',
    saveVideo env asset e durationString created w = (Ok tt, w')
    /\ assets w' = patch_rows (video_patch asset created durationString) (assets w)
    /\ exifs w' = upsert_row e (exifs w).
Proof.
  destruct Hrepo as (_ & _ & Hupsert & Hqueue).
  intros Hin. unfold saveVideo. unfold bind at 1. rewrite upsert_run, Hupsert.
  unfold bind.
  match goal with |- context [assetCore_save env ?p ?v] =>
    destruct (save_answers p v Hin) as (a & w1 & -> & Ha & He) end.
  rewrite queue_run, Hqueue. eexists. split; [reflexivity|].
  cbn. rewrite Ha, He. split; reflexivity.
Qed.

(** A run of image extraction in which nothing fails: [paired] is the asset
    table the pairing step leaves. *)
Lemma image_run asset w e created e' iso w2 :
  result_of (readImage env asset) = Ok (e, created) ->
  result_of (enrichImage env asset e) = Ok e' ->
  opt_toISOString env created = Ok iso ->
  pairWithMotion env asset e (log_events (events_of (readImage env asset)) w)
  = (Ok tt, w2) ->
  In (a_id asset) (map a_id (assets w2)) ->
  assets (exec (extractExifInfo env asset) w)
  = patch_rows (created_patch asset iso) (assets w2)
  /\ exifs (exec (extractExifInfo env asset) w) = upsert_row e' (exifs w2).
Proof.
  intros Hread Henrich Hiso Hpair Hin.
  unfold exec. rewrite extractExifInfo_run. cbv zeta.
  rewrite Hread, Hpair, Henrich.
  match goal with |- context [saveImage env asset e' created ?v] =>
    destruct (saveImage_answers asset e' created iso v Hiso Hin)
      as (w4 & -> & Ha & He) end.
  cbn. rewrite Ha, He. split; reflexivity.
Qed.

Lemma video_run asset w data e created e' w2 :
  a_isVisible asset = true ->
  result_of (readVideo env asset) = Ok (data, created, e) ->
  result_of (enrichVideo env asset data e) = Ok e' ->
  pairWithStill env asset e (log_events (events_of (readVideo env asset)) w)
  = (Ok tt, w2) ->
  In (a_id asset) (map a_id (assets w2)) ->
  assets (exec (extractVideoMetadata env asset) w)
  = patch_rows (video_patch asset created (videoDuration env asset data)) (assets w2)
  /\ exifs (exec (extractVideoMetadata env asset) w) = upsert_row e' (exifs w2).
Proof.
  intros Hvis Hread Henrich Hpair Hin.
  unfold exec. rewrite extractVideoMetadata_run, Hvis. cbv zeta. cbn [negb].
  rewrite Hread, Hpair, Henrich.
  match goal with |- context [saveVideo env asset e' ?d created ?v] =>
    destruct (saveVideo_answers asset e' d created v Hin)
      as (w4 & -> & Ha & He) end.
  cbn. rewrite Ha, He. split; reflexivity.
Qed.

End Success.

(** *** What the records keep through the later steps *)

Section Records.

Variable env : Env.

Definition same_identity (e e' : ExifEntity) : Prop :=
  assetId e' = assetId e /\ livePhotoCID e' = livePhotoCID e.

Lemma readImage_assetId asset e created :
  result_of (readImage env asset) = Ok (e, created) -> assetId e = a_id asset.
Proof.
  unfold result_of, readImage, read_tags, statSync, bind, lift, emit, ret, throw.
  intros H. repeat case_match; simplify_eq; cbn in *; simplify_eq; reflexivity.
Qed.

Lemma readVideo_assetId asset data created e :
  result_of (readVideo env asset) = Ok (data, created, e) -> assetId e = a_id asset.
Proof.
  unfold result_of, readVideo, probe, read_tags, bind, lift, emit, ret, throw.
  intros H. repeat case_match; simplify_eq; cbn in *; simplify_eq; reflexivity.
Qed.

Lemma enrichImage_same_identity asset e e' :
  result_of (enrichImage env asset e) = Ok e' -> same_identity e e'.
Proof.
  unfold result_of, enrichImage, applyReverseGeocoding, inspectImage,
    bind, lift, emit, ret, throw.
  intros H. repeat case_match; simplify_eq; cbn in *; simplify_eq; split; reflexivity.
Qed.

Lemma videoStream_same_identity e stream : same_identity e (videoStream env e stream).
Proof.
  unfold videoStream, frameRate.
  repeat case_match; split; reflexivity.
Qed.

Lemma streams_same_identity streams : forall e,
  same_identity e (fold_left (videoStream env) streams e).
Proof.
  induction streams as [|s streams IH]; intros e; cbn; [split; reflexivity|].
  destruct (IH (videoStream env e s)) as [H1 H2].
  destruct (videoStream_same_identity e s) as [H3 H4].
  split; congruence.
Qed.

Lemma enrichVideo_same_identity asset data e e' :
  result_of (enrichVideo env asset data e) = Ok e' -> same_identity e e'.
Proof.
  unfold result_of, enrichVideo, locate, coordinates, lookupTimeZone,
    applyReverseGeocoding, bind, lift, emit, ret, throw.
  intros H.
  repeat case_match; simplify_eq; cbn in *; simplify_eq;
    match goal with |- same_identity _ (fold_left _ ?l ?x) =>
      destruct (streams_same_identity l x) as [H1 H2] end;
    (split; [rewrite H1 | rewrite H2]); reflexivity.
Qed.

End Records.

(** *** Tables under several writes *)

Lemma id_is_patched id p x : id_is id (apply_patch p x) = id_is id x.
Proof. reflexivity. Qed.

Lemma patch_rows_comm p q l :
  (forall x, id_is (p_id p) x = true -> id_is (p_id q) x = true ->
             apply_patch p (apply_patch q x) = apply_patch q (apply_patch p x)) ->
  patch_rows p (patch_rows q l) = patch_rows q (patch_rows p l).
Proof.
  intros H. unfold patch_rows. rewrite !map_map. apply map_ext. intros x.
  destruct (id_is (p_id q) x) eqn:Eq, (id_is (p_id p) x) eqn:Ep;
    rewrite ?id_is_patched, ?Eq, ?Ep; auto.
Qed.

Lemma other_row p q x :
  p_id p <> p_id q ->
  id_is (p_id p) x = true -> id_is (p_id q) x = true ->
  apply_patch p (apply_patch q x) = apply_patch q (apply_patch p x).
Proof.
  unfold id_is. intros Hne H1 H2.
  apply String.eqb_eq in H1. apply String.eqb_eq in H2. congruence.
Qed.

Lemma find_patch_rows id p l :
  List.find (id_is id) (patch_rows p l)
  = option_map (fun x => if id_is (p_id p) x then apply_patch p x else x)
      (List.find (id_is id) l).
Proof.
  unfold patch_rows. induction l as [|a l IH]; [reflexivity|].
  cbn [map List.find].
  destruct (id_is (p_id p) a) eqn:Ep; rewrite ?id_is_patched;
    destruct (id_is id a); cbn [option_map]; rewrite ?Ep; auto.
Qed.

Lemma find_id_NoDup a l :
  NoDup (map a_id l) -> In a l -> List.find (id_is (a_id a)) l = Some a.
Proof.
  induction l as [|x l IH]; intros Hnd Hin; [destruct Hin|].
  cbn [map] in Hnd. apply NoDup_cons in Hnd. destruct Hnd as [Hx Hnd].
  cbn [List.find]. unfold id_is at 1.
  destruct Hin as [->|Hin]; [rewrite String.eqb_refl; reflexivity|].
  destruct (String.eqb_spec (a_id x) (a_id a)) as [Heq|Hne].
  - exfalso. apply Hx. rewrite Heq. apply list_elem_of_In, in_map. exact Hin.
  - apply IH; assumption.
Qed.

Lemma find_upsert k e rows :
  List.find (has_key k) (upsert_row e rows)
  = if String.eqb (assetId e) k then Some e else List.find (has_key k) rows.
Proof.
  unfold has_key. induction rows as [|r rows IH]; cbn.
  - destruct (String.eqb (assetId e) k); reflexivity.
  - destruct (String.eqb_spec (assetId r) (assetId e)) as [Hre|Hre]; cbn.
    + rewrite Hre. destruct (String.eqb (assetId e) k); reflexivity.
    + rewrite IH.
      destruct (String.eqb_spec (assetId r) k) as [Hrk|Hrk]; [|reflexivity].
      destruct (String.eqb_spec (assetId e) k) as [Hek|Hek]; [congruence|reflexivity].
Qed.

(** *** The two orders *)

Section Order.

Variable env : Env.
Variables A B : AssetEntity.
Variable w : World.
Variable X : string.
Variables eA eA' eB eB' : ExifEntity.
Variable createdA : JsVal.
Variable iso : option string.
Variable dataB : FfprobeData.
Variable createdB : string.

Hypothesis Hrepo : repositories_answer env.
Hypothesis HtA : a_type A = IMAGE.
Hypothesis HtB : a_type B = VIDEO.
Hypothesis Hown : a_ownerId A = a_ownerId B.
Hypothesis Hne : a_id A <> a_id B.
Hypothesis HinA : In A (assets w).
Hypothesis HinB : In B (assets w).
Hypothesis Hnd : NoDup (map a_id (assets w)).
Hypothesis HlinkA : present (a_livePhotoVideoId A) = false.
Hypothesis HvisB : a_isVisible B = true.
Hypothesis Hfresh : forall r, In r (exifs w) -> cid_matches (VStr X) r = false.
Hypothesis HX : X <> EmptyString.
Hypothesis HreadA : result_of (readImage env A) = Ok (eA, createdA).
Hypothesis HcidA : livePhotoCID eA = VStr X.
Hypothesis HenrichA : result_of (enrichImage env A eA) = Ok eA'.
Hypothesis Hiso : opt_toISOString env createdA = Ok iso.
Hypothesis HreadB : result_of (readVideo env B) = Ok (dataB, createdB, eB).
Hypothesis HcidB : livePhotoCID eB = VStr X.
Hypothesis HenrichB : result_of (enrichVideo env B dataB eB) = Ok eB'.

Let pA := created_patch A iso.
Let pB := video_patch B createdB (videoDuration env B dataB).
Let lAB := link (a_id A) (a_id B).
Let hB := hide (a_id B).

Lemma truthy_X : truthy (VStr X) = true.
Proof. cbn. destruct (String.eqb_spec X EmptyString); [contradiction | reflexivity]. Qed.

Lemma idA_in l : map a_id l = map a_id (assets w) -> In (a_id A) (map a_id l).
Proof. intros ->. apply in_map. exact HinA. Qed.

Lemma idB_in l : map a_id l = map a_id (assets w) -> In (a_id B) (map a_id l).
Proof. intros ->. apply in_map. exact HinB. Qed.

(** The still is extracted in a world whose records do not carry the
    identifier: no pairing. *)
Lemma still_alone v :
  map a_id (assets v) = map a_id (assets w) ->
  (forall r, In r (exifs v) -> cid_matches (VStr X) r = false) ->
  assets (exec (extractExifInfo env A) v) = patch_rows pA (assets v)
  /\ exifs (exec (extractExifInfo env A) v) = upsert_row eA' (exifs v).
Proof.
  intros Hids Hv.
  apply (image_run env Hrepo A v eA createdA eA' iso
           (log_events [EvFindLivePhoto (search A eA VIDEO)]
              (log_events (events_of (readImage env A)) v)));
    try assumption.
  - rewrite pairWithMotion_pairing, HcidA, truthy_X, HlinkA. cbn [andb negb].
    apply pairing_none; [exact Hrepo|].
    apply find_candidate_none. intros y. cbn. rewrite HcidA.
    apply has_cid_none. exact Hv.
  - apply idA_in. exact Hids.
Qed.

Lemma motion_alone v :
  map a_id (assets v) = map a_id (assets w) ->
  (forall r, In r (exifs v) -> cid_matches (VStr X) r = false) ->
  assets (exec (extractVideoMetadata env B) v) = patch_rows pB (assets v)
  /\ exifs (exec (extractVideoMetadata env B) v) = upsert_row eB' (exifs v).
Proof.
  intros Hids Hv.
  apply (video_run env Hrepo B v dataB eB createdB eB'
           (log_events [EvFindLivePhoto (search B eB IMAGE)]
              (log_events (events_of (readVideo env B)) v)));
    try assumption.
  - rewrite pairWithStill_pairing, HcidB, truthy_X.
    apply pairing_none; [exact Hrepo|].
    apply find_candidate_none. intros y. cbn. rewrite HcidB.
    apply has_cid_none. exact Hv.
  - apply idB_in. exact Hids.
Qed.

Lemma record_A_matches : cid_matches (VStr X) eA' = true /\ assetId eA' = a_id A.
Proof.
  destruct (enrichImage_same_identity env A eA eA' HenrichA) as [Hid Hcid].
  unfold cid_matches. rewrite Hcid, HcidA, String.eqb_refl.
  split; [reflexivity|]. rewrite Hid. apply (readImage_assetId env A eA createdA HreadA).
Qed.

Lemma record_B_matches : cid_matches (VStr X) eB' = true /\ assetId eB' = a_id B.
Proof.
  destruct (enrichVideo_same_identity env B dataB eB eB' HenrichB) as [Hid Hcid].
  unfold cid_matches. rewrite Hcid, HcidB, String.eqb_refl.
  split; [reflexivity|]. rewrite Hid.
  apply (readVideo_assetId env B dataB createdB eB HreadB).
Qed.

Lemma keys_in (a : AssetEntity) l :
  map keys l = map keys (assets w) -> In a (assets w) -> In (keys a) (map keys l).
Proof. intros -> H. apply in_map. exact H. Qed.

Lemma ids_NoDup l : map keys l = map keys (assets w) -> NoDup (map a_id l).
Proof. intros H. rewrite (map_keys_ids _ _ H). exact Hnd. Qed.

(** The motion part is extracted after the still: the search finds the
    still, which gets the link, and the motion part is hidden. *)
Lemma motion_after_still v rows :
  map keys (assets v) = map keys (assets w) ->
  exifs v = upsert_row eA' rows ->
  (forall r, In r rows -> cid_matches (VStr X) r = false) ->
  assets (exec (extractVideoMetadata env B) v)
  = patch_rows pB (patch_rows hB (patch_rows lAB (assets v)))
  /\ exifs (exec (extractVideoMetadata env B) v) = upsert_row eB' (exifs v).
Proof.
  intros Hkeys Hrows Hfresh'.
  destruct record_A_matches as [HmA HidA].
  set (v1 := log_events (events_of (readVideo env B)) v).
  destruct (find_candidate_sibling (search B eB IMAGE) (exifs v1) A (assets v1))
    as (m & Hfound & Hm).
  { apply ids_NoDup. exact Hkeys. }
  { apply keys_in; assumption. }
  { exact Hne. }
  { exact Hown. }
  { exact HtA. }
  { intros y. cbn [s_livePhotoCID search exifs v1 log_events]. rewrite HcidB, Hrows.
    rewrite (has_cid_upsert eA' rows (VStr X) y HmA Hfresh'), HidA. reflexivity. }
  destruct (pairing_found env Hrepo (search B eB IMAGE)
              (fun photo => link_to (a_id photo) B) (fun _ => hide (a_id B))
              v1 m Hfound) as (v2 & Hpair & Ha2 & He2).
  { cbn. rewrite Hm. apply idA_in. apply map_keys_ids. exact Hkeys. }
  { cbn. apply idB_in. apply map_keys_ids. exact Hkeys. }
  unfold link_to in Ha2. cbn beta in Ha2. rewrite Hm in Ha2.
  destruct (video_run env Hrepo B v dataB eB createdB eB' v2) as [Ha He];
    try assumption.
  - rewrite pairWithStill_pairing, HcidB, truthy_X. exact Hpair.
  - rewrite Ha2, !patch_rows_ids. apply idB_in. apply map_keys_ids. exact Hkeys.
  - rewrite Ha, He, Ha2, He2. split; reflexivity.
Qed.

(** The still is extracted after the motion part: the search finds the
    motion part, the still gets the link, and the motion part is hidden. *)
Lemma still_after_motion v rows :
  map keys (assets v) = map keys (assets w) ->
  exifs v = upsert_row eB' rows ->
  (forall r, In r rows -> cid_matches (VStr X) r = false) ->
  assets (exec (extractExifInfo env A) v)
  = patch_rows pA (patch_rows hB (patch_rows lAB (assets v)))
  /\ exifs (exec (extractExifInfo env A) v) = upsert_row eA' (exifs v).
Proof.
  intros Hkeys Hrows Hfresh'.
  destruct record_B_matches as [HmB HidB].
  set (v1 := log_events (events_of (readImage env A)) v).
  destruct (find_candidate_sibling (search A eA VIDEO) (exifs v1) B (assets v1))
    as (m & Hfound & Hm).
  { apply ids_NoDup. exact Hkeys. }
  { apply keys_in; assumption. }
  { intros H. apply Hne. symmetry. exact H. }
  { symmetry. exact Hown. }
  { exact HtB. }
  { intros y. cbn [s_livePhotoCID search exifs v1 log_events]. rewrite HcidA, Hrows.
    rewrite (has_cid_upsert eB' rows (VStr X) y HmB Hfresh'), HidB. reflexivity. }
  destruct (pairing_found env Hrepo (search A eA VIDEO)
              (link_to (a_id A)) (fun m => hide (a_id m))
              v1 m Hfound) as (v2 & Hpair & Ha2 & He2).
  { cbn. apply idA_in. apply map_keys_ids. exact Hkeys. }
  { cbn. rewrite Hm. apply idB_in. apply map_keys_ids. exact Hkeys. }
  unfold link_to in Ha2. cbn beta in Ha2. rewrite Hm in Ha2.
  destruct (image_run env Hrepo A v eA createdA eA' iso v2) as [Ha He];
    try assumption.
  - rewrite pairWithMotion_pairing, HcidA, truthy_X, HlinkA. exact Hpair.
  - rewrite Ha2, !patch_rows_ids. apply idA_in. apply map_keys_ids. exact Hkeys.
  - rewrite Ha, He, Ha2, He2. split; reflexivity.
Qed.

End Order.

Lemma created_then_link a iso m x :
  apply_patch (created_patch a iso) (apply_patch (link (a_id a) m) x)
  = apply_patch (link (a_id a) m) (apply_patch (created_patch a iso) x).
Proof. reflexivity. Qed.

Lemma video_then_hide b created d x :
  apply_patch (video_patch b created d) (apply_patch (hide (a_id b)) x)
  = apply_patch (hide (a_id b)) (apply_patch (video_patch b created d) x).
Proof. reflexivity. Qed.

(** C2. Take an image A and a video B of the same owner, both in the asset
    table under distinct identities, A without a link and B visible and
    without a link, whose files carry the same content identifier, no record
    of the table carrying it yet; let no repository call be rejected and let
    both extractions go through.  Then image extraction on A followed by
    video extraction on B, and the two in the other order, leave the same
    asset table and the same metadata record under every key; in that state
    A holds the link to B, B holds no link, and B is not visible.  The side
    that runs second finds the identifier in the record of its sibling. *)
Theorem pairing_is_order_independent (env : Env) (A B : AssetEntity) (w : World)
    (X : string) (eA eA' eB eB' : ExifEntity) (createdA : JsVal)
    (iso : option string) (dataB : FfprobeData) (createdB : string) :
  repositories_answer env ->
  a_type A = IMAGE -> a_type B = VIDEO ->
  a_ownerId A = a_ownerId B -> a_id A <> a_id B ->
  In A (assets w) -> In B (assets w) -> NoDup (map a_id (assets w)) ->
  present (a_livePhotoVideoId A) = false ->
  a_livePhotoVideoId B = None -> a_isVisible B = true ->
  (forall r, In r (exifs w) -> cid_matches (VStr X) r = false) ->
  X <> EmptyString ->
  result_of (readImage env A) = Ok (eA, createdA) -> livePhotoCID eA = VStr X ->
  result_of (enrichImage env A eA) = Ok eA' ->
  opt_toISOString env createdA = Ok iso ->
  result_of (readVideo env B) = Ok (dataB, createdB, eB) -> livePhotoCID eB = VStr X ->
  result_of (enrichVideo env B dataB eB) = Ok eB' ->
  let image := exec (extractExifInfo env A) in
  let video := exec (extractVideoMetadata env B) in
  assets (video (image w)) = assets (image (video w))
  /\ (forall k, List.find (has_key k) (exifs (video (image w)))
                = List.find (has_key k) (exifs (image (video w))))
  /\ (exists A' B',
        List.find (id_is (a_id A)) (assets (video (image w))) = Some A'
        /\ List.find (id_is (a_id B)) (assets (video (image w))) = Some B'
        /\ a_livePhotoVideoId A' = Some (a_id B)
        /\ a_livePhotoVideoId B' = None
        /\ a_isVisible B' = false).
Proof.
  intros Hrepo HtA HtB Hown Hne HinA HinB Hnd HlinkA HlinkB HvisB Hfresh HX
    HreadA HcidA HenrichA Hiso HreadB HcidB HenrichB. cbv zeta.
  set (pA := created_patch A iso).
  set (pB := video_patch B createdB (videoDuration env B dataB)).
  set (lAB := link (a_id A) (a_id B)).
  set (hB := hide (a_id B)).
  destruct (still_alone env A w X eA eA' createdA iso Hrepo HinA HlinkA HX HreadA
              HcidA HenrichA Hiso w eq_refl Hfresh) as [Ha1 He1].
  destruct (motion_alone env B w X eB eB' dataB createdB Hrepo HinB HvisB HX HreadB
              HcidB HenrichB w eq_refl Hfresh) as [Hb1 Hf1].
  destruct (motion_after_still env A B w X eA eA' eB eB' createdA dataB createdB
              Hrepo HtA Hown Hne HinA HinB Hnd HvisB HX HreadA HcidA HenrichA
              HreadB HcidB HenrichB
              (exec (extractExifInfo env A) w) (exifs w)) as [Ha2 He2].
  { rewrite Ha1. apply patch_rows_keys. }
  { exact He1. }
  { exact Hfresh. }
  destruct (still_after_motion env A B w X eA eA' eB eB' createdA iso dataB createdB
              Hrepo HtB Hown Hne HinA HinB Hnd HlinkA HX HreadA HcidA HenrichA Hiso
              HreadB HcidB HenrichB
              (exec (extractVideoMetadata env B) w) (exifs w)) as [Hb2 Hf2].
  { rewrite Hb1. apply patch_rows_keys. }
  { exact Hf1. }
  { exact Hfresh. }
  rewrite Ha2, Hb2, He2, Hf2, Ha1, Hb1, He1, Hf1.
  fold pA pB lAB hB.
  assert (HAB : p_id pA <> p_id pB) by exact Hne.
  assert (Horder :
    patch_rows pB (patch_rows hB (patch_rows lAB (patch_rows pA (assets w))))
    = patch_rows hB (patch_rows lAB (patch_rows pA (patch_rows pB (assets w))))).
  { rewrite (patch_rows_comm pB hB) by (intros; apply video_then_hide).
    rewrite (patch_rows_comm pB lAB)
      by (intros; apply other_row; [intros E; apply Hne; symmetry; exact E | |]; assumption).
    rewrite (patch_rows_comm pB pA)
      by (intros; apply other_row; [intros E; apply Hne; symmetry; exact E | |]; assumption).
    reflexivity. }
  split; [|split].
  - rewrite Horder.
    rewrite (patch_rows_comm pA hB) by (intros; apply other_row; assumption).
    rewrite (patch_rows_comm pA lAB) by (intros; apply created_then_link).
    reflexivity.
  - intros k. rewrite !find_upsert.
    destruct (record_A_matches env A X eA eA' createdA HreadA HcidA HenrichA) as [_ HidA].
    destruct (record_B_matches env B X eB eB' dataB createdB HreadB HcidB HenrichB)
      as [_ HidB].
    rewrite HidA, HidB.
    destruct (String.eqb_spec (a_id A) k) as [Hk|Hk],
             (String.eqb_spec (a_id B) k) as [Hk'|Hk']; try reflexivity.
    congruence.
  - rewrite Horder, !find_patch_rows.
    rewrite (find_id_NoDup A (assets w) Hnd HinA), (find_id_NoDup B (assets w) Hnd HinB).
    assert (E1 : String.eqb (a_id A) (a_id B) = false)
      by (apply String.eqb_neq; exact Hne).
    assert (E2 : String.eqb (a_id B) (a_id A) = false)
      by (apply String.eqb_neq; intros E; apply Hne; symmetry; exact E).
    unfold id_is, pA, pB, lAB, hB.
    repeat (progress (cbn; rewrite ?E1, ?E2, ?String.eqb_refl)).
    eexists _, _. split; [reflexivity|]. split; [reflexivity|].
    cbn. rewrite HlinkB. repeat split.
Qed.

Lemma all_ok_answers : repositories_answer all_ok.
Proof. repeat split; intros; reflexivity. Qed.

Lemma pairing_is_order_independent_witness :
  let image := exec (extractExifInfo all_ok still) in
  let video := exec (extractVideoMetadata all_ok motion) in
  assets (video (image w0)) = assets (image (video w0))
  /\ map links (assets (video (image w0)))
     = [("A", Some "B", true); ("B", None, false); ("C", None, true)].
Proof.
  cbv zeta.
  edestruct (pairing_is_order_independent all_ok still motion w0 "X")
    as (Heq & _ & _).
  - exact all_ok_answers.
  - reflexivity.
  - reflexivity.
  - reflexivity.
  - discriminate.
  - left. reflexivity.
  - right. left. reflexivity.
  - apply (bool_decide_unpack _). vm_compute. reflexivity.
  - reflexivity.
  - reflexivity.
  - reflexivity.
  - intros r [].
  - discriminate.
  - vm_compute. reflexivity.
  - vm_compute. reflexivity.
  - vm_compute. reflexivity.
  - vm_compute. reflexivity.
  - vm_compute. reflexivity.
  - vm_compute. reflexivity.
  - vm_compute. reflexivity.
  - split; [exact Heq | vm_compute; reflexivity].
Defined.

End LivePhoto.


(** ** What every handler guarantees *)

Module Outcomes.

Import Steps Runs Idempotence LivePhoto.

Lemma try_catch_returns (body : M unit) (ev : Event) w :
  fst (try_catch body (fun _ => emit ev) w) = Ok tt.
Proof. unfold try_catch. destruct (body w) as [[[]|e] w']; reflexivity. Qed.

(** X1. No handler of the two processors ever rejects: whatever the
    collaborators do, each handler returns normally, a failure being only
    logged.  The queue therefore never sees a failed job. *)
Theorem handlers_return_normally (env : Env) (asset : AssetEntity)
    (force deleteCache : bool) (w : World) :
  fst (init env deleteCache w) = Ok tt
  /\ fst (handleQueueMetadataExtraction env force w) = Ok tt
  /\ fst (extractExifInfo env asset w) = Ok tt
  /\ fst (extractVideoMetadata env asset w) = Ok tt
  /\ fst (handleQueueSidecar env force w) = Ok tt
  /\ fst (handleSidecarSync env asset w) = Ok tt
  /\ fst (handleSidecarDiscovery env asset w) = Ok tt.
Proof.
  repeat split.
  - unfold init, bind at 1. unfold emit at 1.
    destruct (negb (reverseGeocodingEnabled env)); [reflexivity|].
    apply try_catch_returns.
  - apply try_catch_returns.
  - apply try_catch_returns.
  - unfold extractVideoMetadata. destruct (negb (a_isVisible asset)); [reflexivity|].
    apply try_catch_returns.
  - apply try_catch_returns.
  - unfold handleSidecarSync. destruct (negb (a_isVisible asset)); [reflexivity|].
    apply try_catch_returns.
  - unfold handleSidecarDiscovery.
    destruct (negb (a_isVisible asset)); [reflexivity|].
    destruct (present (a_sidecarPath asset)); [reflexivity|].
    unfold bind at 1. unfold emit at 1.
    destruct (fs_access env _); try reflexivity.
    apply try_catch_returns.
Qed.

(** The library once the motion part has been extracted. *)
Definition motion_first_world : World := exec (extractVideoMetadata all_ok motion) w0.

Section WithEnv.

Variable env : Env.

Lemma save_then_queue_ok (p : AssetPatch) (name : JobName) w w' :
  bind (assetCore_save env p) (fun a => jobRepository_queue env (mkJob name a)) w
  = (Ok tt, w') ->
  exists a',
    jobs w' = (jobs w ++ [mkJob name a'])%list
    /\ a_id a' = p_id p
    /\ In a' (assets w').
Proof.
  unfold bind. rewrite save_run.
  destruct (save_ok env p); [|discriminate].
  destruct (List.find (id_is (p_id p)) (assets w)) as [a|] eqn:Ef; [|discriminate].
  rewrite queue_run. destruct (queue_ok env _); [|discriminate].
  intros H. injection H as <-. cbn.
  apply find_some in Ef. destruct Ef as [Hin Hid].
  exists (apply_patch p a). split; [reflexivity|].
  split; [apply String.eqb_eq; exact Hid|].
  unfold patch_rows. apply in_map_iff. exists a. rewrite Hid. split; [reflexivity | exact Hin].
Qed.

(** The follow-up job of a persisting step: none when the step throws, and
    otherwise one job for the saved asset, the record being in the table. *)
Definition follow_up (asset : AssetEntity) (w w' : World) : Prop :=
  jobs w' = jobs w
  \/ exists a' e',
       jobs w' = (jobs w ++ [mkJob STORAGE_TEMPLATE_MIGRATION_SINGLE a'])%list
       /\ a_id a' = a_id asset
       /\ In a' (assets w')
       /\ List.find (has_key (a_id asset)) (exifs w') = Some e'.

Lemma saveImage_follow_up asset e created w r w' :
  saveImage env asset e created w = (r, w') ->
  jobs (snd (caught image_error (r, w'))) = jobs w
  \/ exists a',
       jobs (snd (caught image_error (r, w')))
       = (jobs w ++ [mkJob STORAGE_TEMPLATE_MIGRATION_SINGLE a'])%list
       /\ a_id a' = a_id asset
       /\ In a' (assets (snd (caught image_error (r, w'))))
       /\ exifs (snd (caught image_error (r, w'))) = upsert_row e (exifs w).
Proof.
  intros H. destruct r as [[]|x].
  - right. pose proof H as H'. apply saveImage_effects in H'.
    destruct H' as ((He & _) & _ & Hu & _).
    destruct (upsert_ok env e) eqn:Eu; [|destruct (Hu eq_refl); discriminate].
    revert H. unfold saveImage. unfold bind at 1. rewrite upsert_run, Eu.
    unfold bind at 1. unfold lift.
    destruct (opt_toISOString env created) as [iso|]; [|discriminate].
    intros H. apply save_then_queue_ok in H. destruct H as (a' & Hj & Hid & Hin).
    exists a'. cbn in *. repeat split; assumption.
  - left. apply saveImage_effects in H. destruct H as (_ & Hj & _).
    cbn. apply Hj. reflexivity.
Qed.

Lemma saveVideo_follow_up asset e d created w r w' :
  saveVideo env asset e d created w = (r, w') ->
  jobs (snd (caught video_error (r, w'))) = jobs w
  \/ exists a',
       jobs (snd (caught video_error (r, w')))
       = (jobs w ++ [mkJob STORAGE_TEMPLATE_MIGRATION_SINGLE a'])%list
       /\ a_id a' = a_id asset
       /\ In a' (assets (snd (caught video_error (r, w'))))
       /\ exifs (snd (caught video_error (r, w'))) = upsert_row e (exifs w).
Proof.
  intros H. destruct r as [[]|x].
  - right. pose proof H as H'. apply saveVideo_effects in H'.
    destruct H' as ((He & _) & _).
    revert H He. unfold saveVideo. unfold bind at 1. rewrite upsert_run.
    destruct (upsert_ok env e) eqn:Eu; [|discriminate].
    intros H He. apply save_then_queue_ok in H. destruct H as (a' & Hj & Hid & Hin).
    exists a'. cbn in *. repeat split; assumption.
  - left. apply saveVideo_effects in H. destruct H as (_ & Hj).
    cbn. apply Hj. reflexivity.
Qed.

End WithEnv.

(** X2. A storage-template-migration job is queued by an extraction only after
    the metadata record of the asset has been written and the asset saved:
    either the queue is as it was, or it gained exactly one job, whose
    payload is a row of the asset table with the identity of the asset, and
    the table of metadata records holds a record under that identity. *)
Theorem follow_up_job_comes_last (env : Env) (asset : AssetEntity) (w : World) :
  follow_up asset w (exec (extractExifInfo env asset) w)
  /\ follow_up asset w (exec (extractVideoMetadata env asset) w).
Proof.
  split; unfold exec, follow_up.
  - rewrite extractExifInfo_run. cbv zeta.
    destruct (result_of (readImage env asset)) as [[e created]|x] eqn:Er;
      [|left; reflexivity].
    destruct (pairWithMotion env asset e _) as [[[]|x] w2] eqn:Ep;
      apply pairWithMotion_touches in Ep; destruct Ep as (_ & Hj & _);
      cbn [jobs log_events] in Hj; [|left; exact Hj].
    destruct (result_of (enrichImage env asset e)) as [e'|x] eqn:Ee; [|left; exact Hj].
    destruct (saveImage env asset e' created _) as [r w4] eqn:Es.
    apply saveImage_follow_up in Es. cbn [jobs log_events] in Es. rewrite Hj in Es.
    destruct Es as [Es|(a' & H1 & H2 & H3 & H4)]; [left; exact Es|].
    right. exists a', e'. repeat split; try assumption.
    rewrite H4, <- (readImage_assetId env asset e created Er).
    destruct (enrichImage_same_identity env asset e e' Ee) as [<- _].
    apply upsert_row_stores.
  - rewrite extractVideoMetadata_run. cbv zeta.
    destruct (negb (a_isVisible asset)); [left; reflexivity|].
    destruct (result_of (readVideo env asset)) as [[[data created] e]|x] eqn:Er;
      [|left; reflexivity].
    destruct (pairWithStill env asset e _) as [[[]|x] w2] eqn:Ep;
      apply pairWithStill_touches in Ep; destruct Ep as (_ & Hj & _);
      cbn [jobs log_events] in Hj; [|left; exact Hj].
    destruct (result_of (enrichVideo env asset data e)) as [e'|x] eqn:Ee;
      [|left; exact Hj].
    destruct (saveVideo env asset e' _ created _) as [r w4] eqn:Es.
    apply saveVideo_follow_up in Es. cbn [jobs log_events] in Es. rewrite Hj in Es.
    destruct Es as [Es|(a' & H1 & H2 & H3 & H4)]; [left; exact Es|].
    right. exists a', e'. repeat split; try assumption.
    rewrite H4, <- (readVideo_assetId env asset data created e Er).
    destruct (enrichVideo_same_identity env asset data e e' Ee) as [<- _].
    apply upsert_row_stores.
Qed.

Lemma image_record_key env asset e' :
  image_record env asset = Some e' -> assetId e' = a_id asset.
Proof.
  unfold image_record.
  destruct (result_of (readImage env asset)) as [[e created]|x] eqn:Er; [|discriminate].
  destruct (result_of (enrichImage env asset e)) as [e''|x] eqn:Ee; [|discriminate].
  destruct (upsert_ok env e''); [|discriminate].
  intros H. injection H as <-.
  destruct (enrichImage_same_identity env asset e e'' Ee) as [-> _].
  apply (readImage_assetId env asset e created Er).
Qed.

Lemma video_record_key env asset e' :
  video_record env asset = Some e' -> assetId e' = a_id asset.
Proof.
  unfold video_record.
  destruct (result_of (readVideo env asset)) as [[[data created] e]|x] eqn:Er;
    [|discriminate].
  destruct (result_of (enrichVideo env asset data e)) as [e''|x] eqn:Ee; [|discriminate].
  destruct (upsert_ok env e''); [|discriminate].
  intros H. injection H as <-.
  destruct (enrichVideo_same_identity env asset data e e'' Ee) as [-> _].
  apply (readVideo_assetId env asset data created e Er).
Qed.

(** X3. An extraction works on one asset: it keeps the number of assets and the
    identity, owner and type of each, and the metadata record of every
    other asset is after the run what it was before. *)
Theorem extraction_is_isolated (env : Env) (asset : AssetEntity) (w : World)
    (k : string) :
  k <> a_id asset ->
  let image := exec (extractExifInfo env asset) w in
  let video := exec (extractVideoMetadata env asset) w in
  map keys (assets image) = map keys (assets w)
  /\ List.find (has_key k) (exifs image) = List.find (has_key k) (exifs w)
  /\ map keys (assets video) = map keys (assets w)
  /\ List.find (has_key k) (exifs video) = List.find (has_key k) (exifs w).
Proof.
  intros Hk. cbv zeta.
  destruct (image_summary env asset w) as [Hik Hie].
  destruct (video_summary env asset w) as [Hvk Hve].
  cbv zeta in *. rewrite Hie, Hve.
  split; [exact Hik|]. split; [|split; [exact Hvk|]].
  - destruct (image_record env asset) as [e'|] eqn:E; [|reflexivity].
    destruct (image_pairs env asset w); [|reflexivity].
    rewrite find_upsert, (image_record_key env asset e' E).
    destruct (String.eqb_spec (a_id asset) k); [congruence | reflexivity].
  - destruct (negb (a_isVisible asset)); [reflexivity|].
    destruct (video_record env asset) as [e'|] eqn:E; [|reflexivity].
    destruct (video_pairs env asset w); [|reflexivity].
    rewrite find_upsert, (video_record_key env asset e' E).
    destruct (String.eqb_spec (a_id asset) k); [congruence | reflexivity].
Qed.

Lemma extraction_is_isolated_witness :
  let image := exec (extractExifInfo all_ok still) motion_first_world in
  List.find (has_key "B") (exifs image)
  = List.find (has_key "B") (exifs motion_first_world).
Proof.
  assert (Hk : "B" <> a_id still) by discriminate.
  destruct (extraction_is_isolated all_ok still motion_first_world "B" Hk)
    as (_ & H & _).
  exact H.
Defined.

End Outcomes.

(** ** Reading the files (lines 102-153 and 235-254) *)

Module FileReads.

Import Steps Runs Idempotence LivePhoto.

Lemma get_opt_failed_read property :
  get_opt None property = get_opt (Some ∅) property.
Proof. unfold get_opt. rewrite lookup_empty. reflexivity. Qed.

Lemma getExifProperty_failed_sidecar media properties :
  getExifProperty None media properties = getExifProperty (Some ∅) media properties.
Proof.
  induction properties as [|p rest IH]; [reflexivity|].
  cbn [getExifProperty]. rewrite get_opt_failed_read, IH. reflexivity.
Qed.

Lemma imageExif_failed_sidecar env asset media tz c m size :
  imageExif env asset None media tz c m size
  = imageExif env asset (Some ∅) media tz c m size.
Proof. unfold imageExif. rewrite !getExifProperty_failed_sidecar. reflexivity. Qed.

Definition without_sidecar (a : AssetEntity) : AssetEntity :=
  mkAsset (a_id a) (a_ownerId a) (a_type a) (a_originalPath a) None (a_isVisible a)
    (a_livePhotoVideoId a) (a_fileCreatedAt a) (a_fileModifiedAt a) (a_duration a).

Section WithEnv.

Variable env : Env.

(** The tags image extraction works with: a failed read counts as [null],
    a missing sidecar as the empty object. *)
Definition embedded_tags (asset : AssetEntity) : option Tags :=
  exiftool_read env (a_originalPath asset).

Definition sidecar_tags (asset : AssetEntity) : option Tags :=
  if present (a_sidecarPath asset)
  then exiftool_read env (default EmptyString (a_sidecarPath asset))
  else Some ∅.

(** The result of lines 102-178 as a function of the two tag sets. *)
Definition derived (asset : AssetEntity) (sidecar media : option Tags)
    : Res (ExifEntity * JsVal) :=
  let get := getExifProperty sidecar media in
  let created :=
    nullish_or (get ["DateTimeOriginal"; "CreateDate"]) (VStr (a_fileCreatedAt asset)) in
  match exifToDate env created with
  | Throw x => Throw x
  | Ok fileCreatedAt =>
      match exifToDate env (nullish_or (get ["ModifyDate"])
                                       (VStr (a_fileModifiedAt asset))) with
      | Throw x => Throw x
      | Ok fileModifiedAt =>
          match statSync_size env (a_originalPath asset) with
          | None => Throw (Rejected "fs.statSync")
          | Some size =>
              Ok (imageExif env asset sidecar media (exifTimeZone created)
                    fileCreatedAt fileModifiedAt size, fileCreatedAt)
          end
      end
  end.

Lemma readImage_derived asset :
  result_of (readImage env asset)
  = derived asset (sidecar_tags asset) (embedded_tags asset).
Proof.
  unfold result_of, readImage, derived, sidecar_tags, embedded_tags, read_tags,
    statSync, bind, lift, emit, ret, throw.
  destruct (exiftool_read env (a_originalPath asset)) as [media|]; cbn [fst snd];
    (destruct (present (a_sidecarPath asset));
     [destruct (exiftool_read env (default EmptyString (a_sidecarPath asset)))|];
     cbn [fst snd];
     (destruct (exifToDate env _) as [c|x]; [|reflexivity]);
     (destruct (exifToDate env _) as [m|x]; [|reflexivity]);
     cbn [fst snd];
     destruct (statSync_size env (a_originalPath asset)); reflexivity).
Qed.

Lemma derived_failed_sidecar asset media :
  derived asset None media = derived asset (Some ∅) media.
Proof.
  unfold derived. rewrite !getExifProperty_failed_sidecar.
  destruct (exifToDate env _); [|reflexivity].
  destruct (exifToDate env _); [|reflexivity].
  destruct (statSync_size env _); [|reflexivity].
  rewrite imageExif_failed_sidecar. reflexivity.
Qed.

Lemma derived_without_sidecar asset sidecar media :
  derived (without_sidecar asset) sidecar media = derived asset sidecar media.
Proof. reflexivity. Qed.

End WithEnv.

(** X4. A sidecar that cannot be read is as good as no sidecar: image
    extraction builds the same record, with the same capture time, as for
    the asset without a sidecar path. *)
Theorem unreadable_sidecar_is_ignored (env : Env) (asset : AssetEntity) (path : string) :
  a_sidecarPath asset = Some path ->
  exiftool_read env path = None ->
  result_of (readImage env asset) = result_of (readImage env (without_sidecar asset)).
Proof.
  intros Hp Hr. rewrite !readImage_derived.
  unfold sidecar_tags, embedded_tags. rewrite Hp.
  cbn [a_sidecarPath a_originalPath without_sidecar present of_opt_str truthy
       default from_option].
  unfold id. rewrite derived_without_sidecar.
  destruct (negb (String.eqb path EmptyString)); [|reflexivity].
  rewrite Hr. apply derived_failed_sidecar.
Qed.

Definition broken_sidecar : Env :=
  mkEnv VUndef
    (fun path => if String.eqb path "/lib/IMG_2.JPG.xmp" then None else read path)
    (ffprobe all_ok) (statSync_size all_ok) (sharp_metadata all_ok) (fs_access all_ok)
    (tz_lookup all_ok) (reverseGeocode all_ok) true true true true
    (fun _ => true) (fun _ => true) (fun _ => true) (fun _ => true)
    (pages all_ok) (Date_parse all_ok) (toISOString all_ok) (toString all_ok)
    (Number all_ok) (Duration_toFormat all_ok).

Lemma unreadable_sidecar_is_ignored_witness :
  result_of (readImage broken_sidecar other)
  = result_of (readImage broken_sidecar (without_sidecar other)).
Proof.
  apply (unreadable_sidecar_is_ignored broken_sidecar other "/lib/IMG_2.JPG.xmp");
    reflexivity.
Defined.

Lemma getExifProperty_no_tags sidecar properties :
  sidecar = None \/ sidecar = Some ∅ ->
  getExifProperty sidecar None properties = VNull.
Proof.
  intros H. induction properties as [|p rest IH]; [reflexivity|].
  cbn [getExifProperty]. rewrite IH.
  destruct H as [->| ->]; cbn; rewrite ?lookup_empty; reflexivity.
Qed.

(** X5. Tags are optional.  When exiftool can read neither file but the
    original can be inspected on disk, image extraction still builds a
    record: it carries the file size, the capture time of the filesystem
    with no time zone, and no camera, position or live-photo data. *)
Theorem tags_are_optional (env : Env) (asset : AssetEntity) (size : JsNumber) :
  (forall path, exiftool_read env path = None) ->
  statSync_size env (a_originalPath asset) = Some size ->
  exists e created,
    result_of (readImage env asset) = Ok (e, created)
    /\ created = (if String.eqb (a_fileCreatedAt asset) EmptyString then VNull
                  else VDate (Date_parse env (a_fileCreatedAt asset)))
    /\ dateTimeOriginal e = created
    /\ timeZone e = VNull
    /\ fileSizeInByte e = VNum size
    /\ make e = VNull /\ model e = VNull
    /\ latitude e = VNull /\ longitude e = VNull
    /\ livePhotoCID e = VNull
    /\ iso e = VNull /\ focalLength e = VNull
    /\ exifImageHeight e = VNull /\ exifImageWidth e = VNull
    /\ orientation e = VUndef.
Proof.
  intros Hread Hstat. rewrite readImage_derived.
  assert (Hs : sidecar_tags env asset = None \/ sidecar_tags env asset = Some ∅).
  { unfold sidecar_tags. destruct (present (a_sidecarPath asset));
      [left; apply Hread | right; reflexivity]. }
  unfold embedded_tags. rewrite Hread. unfold derived, imageExif.
  rewrite !(getExifProperty_no_tags _ _ Hs), Hstat.
  assert (Htz : forall s, exifTimeZone (VStr s) = VNull).
  { intros s. unfold exifTimeZone. destruct (negb (truthy (VStr s))); reflexivity. }
  cbn [nullish_or is_nullish]. rewrite Htz.
  unfold exifToDate. cbn [truthy].
  destruct (String.eqb (a_fileCreatedAt asset) EmptyString);
    destruct (String.eqb (a_fileModifiedAt asset) EmptyString);
    cbn; eexists _, _; repeat split.
Qed.

Definition no_tags : Env :=
  mkEnv VUndef (fun _ => None)
    (ffprobe all_ok) (statSync_size all_ok) (sharp_metadata all_ok) (fs_access all_ok)
    (tz_lookup all_ok) (reverseGeocode all_ok) true true true true
    (fun _ => true) (fun _ => true) (fun _ => true) (fun _ => true)
    (pages all_ok) (Date_parse all_ok) (toISOString all_ok) (toString all_ok)
    (Number all_ok) (Duration_toFormat all_ok).

Lemma tags_are_optional_witness :
  exists e created,
    result_of (readImage no_tags still) = Ok (e, created)
    /\ make e = VNull /\ fileSizeInByte e = VNum (Fin 2048).
Proof.
  destruct (tags_are_optional no_tags still (Fin 2048)) as (e & created & H);
    [reflexivity | reflexivity |].
  exists e, created. tauto.
Defined.

Definition unchanged_tables (w w' : World) : Prop :=
  assets w' = assets w /\ exifs w' = exifs w /\ jobs w' = jobs w.

(** X6. The original file is required.  When it cannot be inspected on disk
    (image) or probed (video), the job is abandoned before any repository
    call: assets, metadata records and queue are as before, and the error
    is the last thing logged. *)
Theorem missing_original_abandons_the_job (env : Env) (asset : AssetEntity) (w : World) :
  (statSync_size env (a_originalPath asset) = None ->
   unchanged_tables w (exec (extractExifInfo env asset) w)
   /\ last (trace (exec (extractExifInfo env asset) w)) = Some image_error)
  /\ (a_isVisible asset = true -> ffprobe env (a_originalPath asset) = None ->
      unchanged_tables w (exec (extractVideoMetadata env asset) w)
      /\ last (trace (exec (extractVideoMetadata env asset) w)) = Some video_error).
Proof.
  split.
  - intros Hstat. unfold exec. rewrite extractExifInfo_run, readImage_derived.
    cbv zeta. unfold derived. rewrite Hstat.
    destruct (exifToDate env _); [destruct (exifToDate env _)|];
      (split; [repeat split | apply last_snoc]).
  - intros Hvis Hprobe. unfold exec. rewrite extractVideoMetadata_run, Hvis.
    cbv zeta. cbn [negb].
    assert (Hr : result_of (readVideo env asset) = Throw (Rejected "ffprobe")).
    { unfold result_of, readVideo, probe, bind, emit, throw. rewrite Hprobe. reflexivity. }
    rewrite Hr. split; [repeat split | apply last_snoc].
Qed.

Definition no_files : Env :=
  mkEnv VUndef read (fun _ => None) (fun _ => None)
    (sharp_metadata all_ok) (fs_access all_ok)
    (tz_lookup all_ok) (reverseGeocode all_ok) true true true true
    (fun _ => true) (fun _ => true) (fun _ => true) (fun _ => true)
    (pages all_ok) (Date_parse all_ok) (toISOString all_ok) (toString all_ok)
    (Number all_ok) (Duration_toFormat all_ok).

Lemma missing_original_abandons_the_job_witness :
  unchanged_tables w0 (exec (extractExifInfo no_files still) w0)
  /\ unchanged_tables w0 (exec (extractVideoMetadata no_files motion) w0).
Proof.
  destruct (missing_original_abandons_the_job no_files still w0) as [Hi _].
  destruct (missing_original_abandons_the_job no_files motion w0) as [_ Hv].
  split; [apply Hi | apply Hv]; reflexivity.
Defined.

End FileReads.

(** ** Enrichment (lines 193-213, 283-334 and 347-362) *)

Module Enrichment.

Import Steps Runs Idempotence LivePhoto FileReads.

Lemma set_place_same e : set_place (country e) (state e) (city e) e = e.
Proof. destruct e. reflexivity. Qed.

Lemma set_timeZone_same e : set_timeZone (timeZone e) e = e.
Proof. destruct e. reflexivity. Qed.

Lemma set_dimensions_same e :
  set_dimensions (exifImageHeight e) (exifImageWidth e) (orientation e) e = e.
Proof. destruct e. reflexivity. Qed.

(** X7. Reverse geocoding and the time zone lookup are best effort: neither
    ever throws, each changes at most its own columns (country, state and
    city; the time zone), and when the lookup fails, or reverse geocoding is
    disabled, the record is returned as it was. *)
Theorem lookups_are_best_effort (env : Env) (asset : AssetEntity) (e : ExifEntity) :
  (exists e',
     result_of (applyReverseGeocoding env asset e) = Ok e'
     /\ set_place (country e') (state e') (city e') e = e'
     /\ (reverseGeocodingEnabled env = false
         \/ reverseGeocode env (latitude e) (longitude e) = None -> e' = e))
  /\ (exists e',
        result_of (lookupTimeZone env e) = Ok e'
        /\ set_timeZone (timeZone e') e = e'
        /\ (tz_lookup env (latitude e) (longitude e) = None -> e' = e)).
Proof.
  split.
  - unfold result_of, applyReverseGeocoding, bind, emit, ret.
    destruct (reverseGeocodingEnabled env) eqn:Een; cbn [andb].
    + destruct (truthy (longitude e) && truthy (latitude e)).
      * destruct (reverseGeocode env (latitude e) (longitude e)) as [g|] eqn:Eg; cbn.
        -- eexists. split; [reflexivity|]. split; [destruct e; reflexivity|].
           intros [H|H]; discriminate.
        -- exists e. split; [reflexivity|]. split; [apply set_place_same | reflexivity].
      * exists e. split; [reflexivity|]. split; [apply set_place_same | reflexivity].
    + exists e. split; [reflexivity|]. split; [apply set_place_same | reflexivity].
  - unfold result_of, lookupTimeZone, bind, emit, ret.
    destruct (truthy (longitude e) && truthy (latitude e)).
    + destruct (tz_lookup env (latitude e) (longitude e)) as [tz|] eqn:Et; cbn.
      * eexists. split; [reflexivity|]. split; [destruct e; reflexivity | discriminate].
      * exists e. split; [reflexivity|]. split; [apply set_timeZone_same | reflexivity].
    + exists e. split; [reflexivity|]. split; [apply set_timeZone_same | reflexivity].
Qed.

Definition geocoder_down : Env :=
  mkEnv VUndef read (ffprobe all_ok) (statSync_size all_ok) (sharp_metadata all_ok)
    (fs_access all_ok) (fun _ _ => None) (fun _ _ => None) true true true true
    (fun _ => true) (fun _ => true) (fun _ => true) (fun _ => true)
    (pages all_ok) (Date_parse all_ok) (toISOString all_ok) (toString all_ok)
    (Number all_ok) (Duration_toFormat all_ok).

Definition new_york : ExifEntity :=
  set_coordinates (VNum (Fin (50891 # 1250))) (VNum (Fin (-37003 # 500)))
    (videoExif all_ok motion motion_probe "2023-05-01T10:00:00.000Z" (Some motion_tags)).

Lemma lookups_are_best_effort_witness :
  result_of (applyReverseGeocoding geocoder_down motion new_york) = Ok new_york
  /\ result_of (lookupTimeZone geocoder_down new_york) = Ok new_york.
Proof.
  destruct (lookups_are_best_effort geocoder_down motion new_york)
    as ((e1 & H1 & _ & K1) & (e2 & H2 & _ & K2)).
  rewrite H1, H2, K1, K2; [split; reflexivity | reflexivity | right; reflexivity].
Defined.

Lemma inspectImage_trace_only env asset e : trace_only (inspectImage env asset e).
Proof. unfold inspectImage. trace_only_auto. Qed.

Lemma enrichImage_inspect_any env asset e1 w v :
  fst (inspectImage env asset e1 w) = fst (inspectImage env asset e1 v).
Proof. rewrite !inspectImage_trace_only. reflexivity. Qed.

Lemma geocoding_sets_place env asset e e' :
  result_of (applyReverseGeocoding env asset e) = Ok e' ->
  e' = set_place (country e') (state e') (city e') e.
Proof.
  unfold result_of, applyReverseGeocoding, bind, emit, ret.
  destruct (reverseGeocodingEnabled env && truthy (longitude e) && truthy (latitude e));
    [destruct (reverseGeocode env (latitude e) (longitude e))|];
    cbn; intros H; injection H as <-; destruct e; reflexivity.
Qed.

Lemma inspection_sets_dimensions env asset e e' :
  result_of (inspectImage env asset e) = Ok e' ->
  e' = set_dimensions (exifImageHeight e') (exifImageWidth e') (orientation e') e.
Proof.
  unfold result_of, inspectImage, bind, emit, ret, throw.
  destruct (_ || _).
  - destruct (sharp_metadata env (a_originalPath asset)) as [m|]; [|discriminate].
    cbn. intros H. injection H as <-. destruct e. reflexivity.
  - cbn. intros H. injection H as <-. symmetry. apply set_dimensions_same.
Qed.

Lemma enrichImage_steps env asset e e' :
  result_of (enrichImage env asset e) = Ok e' ->
  exists e1,
    result_of (applyReverseGeocoding env asset e) = Ok e1
    /\ result_of (inspectImage env asset e1) = Ok e'.
Proof.
  unfold enrichImage. rewrite result_of_bind by apply applyReverseGeocoding_trace_only.
  destruct (result_of (applyReverseGeocoding env asset e)) as [e1|x]; [|discriminate].
  intros H. exists e1. split; [reflexivity|].
  rewrite <- H. apply enrichImage_inspect_any.
Qed.

(** X8. Enrichment of an image record changes at most six columns: the place
    names and the dimensions.  Camera data, timestamps, position and the
    live-photo identifier are those of the tags. *)
Theorem image_enrichment_keeps_the_tags (env : Env) (asset : AssetEntity)
    (e e' : ExifEntity) :
  result_of (enrichImage env asset e) = Ok e' ->
  e' = set_dimensions (exifImageHeight e') (exifImageWidth e') (orientation e')
         (set_place (country e') (state e') (city e') e).
Proof.
  intros H. destruct (enrichImage_steps env asset e e' H) as (e1 & H1 & H2).
  apply geocoding_sets_place in H1. apply inspection_sets_dimensions in H2.
  rewrite H2 at 1. f_equal. rewrite H1 at 1. rewrite H2. reflexivity.
Qed.

Definition other_read : ExifEntity :=
  imageExif all_ok other (Some other_sidecar_tags) (Some other_tags) VNull
    (VDate (DateMs 1682935200000)) (VDate (DateMs 1682935200000)) (Fin 2048).

Definition other_enriched : ExifEntity :=
  set_dimensions (VNum (Fin 200)) (VNum (Fin 20)) VUndef other_read.

Lemma image_enrichment_keeps_the_tags_witness :
  result_of (enrichImage all_ok other other_read) = Ok other_enriched
  /\ other_enriched
     = set_dimensions (exifImageHeight other_enriched) (exifImageWidth other_enriched)
         (orientation other_enriched)
         (set_place (country other_enriched) (state other_enriched)
            (city other_enriched) other_read).
Proof.
  assert (H : result_of (enrichImage all_ok other other_read) = Ok other_enriched)
    by (vm_compute; reflexivity).
  split; [exact H|].
  apply (image_enrichment_keeps_the_tags all_ok other). exact H.
Defined.

Lemma set_place_dimensions c s ci e :
  exifImageHeight (set_place c s ci e) = exifImageHeight e
  /\ exifImageWidth (set_place c s ci e) = exifImageWidth e
  /\ orientation (set_place c s ci e) = orientation e.
Proof. repeat split. Qed.

Lemma inspection_fills_missing env asset e e' :
  result_of (inspectImage env asset e) = Ok e' ->
  (exifImageHeight e <> VNull -> exifImageHeight e' = exifImageHeight e)
  /\ (exifImageWidth e <> VNull -> exifImageWidth e' = exifImageWidth e)
  /\ (orientation e <> VNull -> orientation e' = orientation e)
  /\ (exifImageHeight e = VNull \/ exifImageWidth e = VNull ->
      exists m,
        sharp_metadata env (a_originalPath asset) = Some m
        /\ (exifImageHeight e = VNull ->
            exifImageHeight e' = or_else (of_opt_num (m_height m)) VNull)
        /\ (exifImageWidth e = VNull ->
            exifImageWidth e' = or_else (of_opt_num (m_width m)) VNull)).
Proof.
  unfold result_of, inspectImage, bind, emit, ret, throw.
  destruct (_ || _) eqn:Ec.
  - destruct (sharp_metadata env (a_originalPath asset)) as [m|]; [|discriminate].
    cbn. intros H. injection H as <-. cbn.
    split; [|split; [|split]].
    + intros Hn. destruct (exifImageHeight e); try reflexivity. contradiction.
    + intros Hn. destruct (exifImageWidth e); try reflexivity. contradiction.
    + intros Hn. destruct (orientation e); try reflexivity. contradiction.
    + intros _. exists m. split; [reflexivity|].
      split; intros ->; reflexivity.
  - cbn. intros H. injection H as <-.
    split; [reflexivity|]. split; [reflexivity|]. split; [reflexivity|].
    intros [H|H]; rewrite H in Ec; cbn in Ec; try discriminate.
    rewrite orb_true_r in Ec. discriminate.
Qed.

(** X9. Dimensions read from the tags win over the ones found by inspecting
    the image: a height or width that the merged tags define is stored as
    it is, and only a missing one is taken from the inspection, which then
    has to succeed; an inspected value of zero or none is stored as null. *)
Theorem tag_dimensions_win (env : Env) (asset : AssetEntity) (e e' : ExifEntity) :
  result_of (enrichImage env asset e) = Ok e' ->
  (exifImageHeight e <> VNull -> exifImageHeight e' = exifImageHeight e)
  /\ (exifImageWidth e <> VNull -> exifImageWidth e' = exifImageWidth e)
  /\ (exifImageHeight e = VNull \/ exifImageWidth e = VNull ->
      exists m,
        sharp_metadata env (a_originalPath asset) = Some m
        /\ (exifImageHeight e = VNull ->
            exifImageHeight e' = or_else (of_opt_num (m_height m)) VNull)
        /\ (exifImageWidth e = VNull ->
            exifImageWidth e' = or_else (of_opt_num (m_width m)) VNull)).
Proof.
  intros H. destruct (enrichImage_steps env asset e e' H) as (e1 & H1 & H2).
  apply geocoding_sets_place in H1. apply inspection_fills_missing in H2.
  rewrite H1 in H2.
  destruct (set_place_dimensions (country e1) (state e1) (city e1) e) as (Hh & Hw & _).
  rewrite Hh, Hw in H2. destruct H2 as (K1 & K2 & _ & K4).
  split; [exact K1|]. split; [exact K2 | exact K4].
Qed.

Lemma tag_dimensions_win_witness :
  exifImageHeight other_read = VNum (Fin 200)
  /\ exifImageWidth other_read = VNull
  /\ exifImageHeight other_enriched = VNum (Fin 200)
  /\ exifImageWidth other_enriched = VNum (Fin 20).
Proof.
  assert (H : result_of (enrichImage all_ok other other_read) = Ok other_enriched)
    by (vm_compute; reflexivity).
  destruct (tag_dimensions_win all_ok other other_read other_enriched H)
    as (Hh & _ & Hw).
  split; [vm_compute; reflexivity|]. split; [vm_compute; reflexivity|].
  split.
  - rewrite Hh; [vm_compute; reflexivity|]. vm_compute. discriminate.
  - destruct Hw as (m & Hm & _ & Hw); [right; vm_compute; reflexivity|].
    rewrite Hw by (vm_compute; reflexivity).
    vm_compute in Hm. injection Hm as <-. reflexivity.
Defined.

(** X10. The orientation found by inspecting the image is never stored.  The
    record built from the tags holds the orientation as a string, or
    [undefined] when no source has the tag, never [null]; the inspection
    replaces only a [null] orientation, so after enrichment the orientation
    is still the one of the tags. *)
Theorem inspected_orientation_is_never_stored (env : Env) (asset : AssetEntity)
    (e e' : ExifEntity) (created : JsVal) :
  result_of (readImage env asset) = Ok (e, created) ->
  result_of (enrichImage env asset e) = Ok e' ->
  orientation e' = orientation e
  /\ (orientation e = VUndef \/ exists s, orientation e = VStr s).
Proof.
  intros Hread Henrich.
  assert (Ho : orientation e = VUndef \/ exists s, orientation e = VStr s).
  { rewrite readImage_derived in Hread. unfold derived in Hread.
    destruct (exifToDate env _); [|discriminate].
    destruct (exifToDate env _); [|discriminate].
    destruct (statSync_size env _); [|discriminate].
    injection Hread as <- _. cbn [orientation imageExif].
    clear Henrich.
    match goal with |- context [if ?b then _ else _] => destruct b end;
      [left; reflexivity | right; eexists; reflexivity]. }
  split; [|exact Ho].
  destruct (enrichImage_steps env asset e e' Henrich) as (e1 & H1 & H2).
  apply geocoding_sets_place in H1. apply inspection_fills_missing in H2.
  destruct H2 as (_ & _ & K & _). rewrite K; rewrite H1; cbn [orientation set_place].
  - reflexivity.
  - destruct Ho as [->|[s ->]]; discriminate.
Qed.

Lemma inspected_orientation_is_never_stored_witness :
  sharp_metadata all_ok "/lib/IMG_2.JPG" <> None
  /\ orientation other_read = VUndef
  /\ orientation other_enriched = VUndef.
Proof.
  split; [discriminate|]. split; [vm_compute; reflexivity|].
  destruct (inspected_orientation_is_never_stored all_ok other other_read
              other_enriched (VDate (DateMs 1682935200000))) as [H _];
    [vm_compute; reflexivity | vm_compute; reflexivity |].
  rewrite H. vm_compute. reflexivity.
Defined.

End Enrichment.
(** ** The sidecar processor (lines 386-451) *)

Module Sidecars.

Import Steps Dispatch Runs.

(** The job of the sidecar scan: a sync when forced, a discovery
    otherwise. *)
Definition sidecar_job (force : bool) (a : AssetEntity) : JobItem :=
  mkJob (if force then SIDECAR_SYNC else SIDECAR_DISCOVERY) a.

Definition sidecar_scan_error : Event := EvLog LogError "Unable to queue sidecar scanning".

(** The assets that have a sidecar are enumerated when the scan is forced,
    those without one otherwise. *)
Definition sidecar_pages (env : Env) (force : bool) : list (option (list AssetEntity)) :=
  pages env (if force then GetWithSidecar else GetWithoutSidecar).

(** X11. The sidecar scan emits one job per enumerated asset, in order, up to
    the first page request or emission that fails, and none after it: a
    sync job for each asset with a sidecar when forced, a discovery job for
    each asset without one otherwise.  A failure is logged as the last
    action and ends the scan; without a failure every enumerated asset gets
    its job.  Assets, metadata records and the pause flag are left alone. *)
Theorem sidecar_scan_stops_at_first_failure (env : Env) (force : bool) (w : World) :
  let results := sidecar_pages env force in
  let planned := emitted env (sidecar_job force) results in
  let out := handleQueueSidecar env force w in
  queues (sidecar_job force) (fst planned) w (snd out)
  /\ (snd planned = false -> last (trace (snd out)) = Some sidecar_scan_error)
  /\ (snd planned = true ->
      jobs (snd out)
      = (jobs w ++ map (sidecar_job force) (concat (omap id results)))%list)
  /\ Forall (fun j => name j = if force then SIDECAR_SYNC else SIDECAR_DISCOVERY)
       (map (sidecar_job force) (fst planned)).
Proof.
  intros results planned out. subst out.
  unfold handleQueueSidecar, try_catch. fold (sidecar_pages env force). fold results.
  match goal with |- context [usePagination ?q 0 results ?b w] =>
    destruct (usePagination q 0 results b w) as [[[]|e] w1] eqn:E end;
    apply (usePagination_queue env (sidecar_job force)) in E;
    destruct E as (Hok & Hq); fold planned in Hok, Hq; cbn [is_ok] in Hok.
  - cbn [fst snd]. split; [exact Hq|].
    split; [intros H; congruence|]. split.
    + intros _. destruct Hq as (Hj & _). rewrite Hj. unfold planned.
      rewrite emitted_complete; [reflexivity | symmetry; exact Hok].
    + apply Forall_forall. intros j Hj. apply list_elem_of_In, in_map_iff in Hj.
      destruct Hj as (a & <- & _). reflexivity.
  - unfold emit. cbn [fst snd]. split; [exact Hq|]. split.
    + intros _. cbn [trace]. apply last_snoc.
    + split; [intros H; congruence|].
      apply Forall_forall. intros j Hj. apply list_elem_of_In, in_map_iff in Hj.
      destruct Hj as (a & <- & _). reflexivity.
Qed.

(** The fourth page request of a forced scan fails. *)
Definition broken_listing : Env :=
  mkEnv VUndef (fun _ => None) (fun _ => None) (fun _ => None) (fun _ => None)
    (fun _ => ENOENT) (fun _ _ => None) (fun _ _ => None) true true true true
    (fun _ => true) (fun _ => true) (fun _ => true) (fun _ => true)
    (fun q => match q with
              | GetWithSidecar => [Some [other]; Some []; Some [still]; None; Some [motion]]
              | _ => []
              end)
    (fun _ => InvalidDate) (fun _ => EmptyString) (fun _ => EmptyString)
    (fun _ => NaN) (fun _ => EmptyString).

Lemma sidecar_scan_stops_at_first_failure_witness :
  snd (emitted broken_listing (sidecar_job true) (sidecar_pages broken_listing true))
  = false
  /\ jobs (snd (handleQueueSidecar broken_listing true w0))
     = [mkJob SIDECAR_SYNC other; mkJob SIDECAR_SYNC still]
  /\ last (trace (snd (handleQueueSidecar broken_listing true w0)))
     = Some sidecar_scan_error.
Proof.
  split; [reflexivity|]. split; [reflexivity|].
  pose proof (sidecar_scan_stops_at_first_failure broken_listing true w0) as H.
  cbv zeta in H. destruct H as (_ & H & _).
  apply H. reflexivity.
Defined.

(** *** Sync (lines 407-420) *)

(** X12. A sync touches nothing but the queue: for a visible asset whose
    emission succeeds the extraction job of its type is appended, with the
    asset as it came in the job; for an asset that is not visible, or when
    the emission fails, the queue stays as it is.  Only a failed emission is
    logged. *)
Theorem sync_queues_the_extraction (env : Env) (asset : AssetEntity) (w : World) :
  let w' := snd (handleSidecarSync env asset w) in
  let job := mkJob (extraction_job asset) asset in
  assets w' = assets w
  /\ exifs w' = exifs w
  /\ metadataQueuePaused w' = metadataQueuePaused w
  /\ jobs w' = (jobs w ++ if a_isVisible asset && queue_ok env job then [job] else [])%list
  /\ trace w'
     = (trace w
        ++ if a_isVisible asset then
             EvQueue job
             :: (if queue_ok env job then []
                 else [EvLog LogError "Unable to queue metadata extraction"])
           else [])%list.
Proof.
  cbv zeta. unfold handleSidecarSync, try_catch.
  destruct (a_isVisible asset); cbn [negb andb].
  - rewrite queue_run. destruct (queue_ok env _); cbn.
    + repeat split.
    + rewrite !app_nil_r, <- app_assoc. repeat split.
  - cbn. rewrite !app_nil_r. repeat split.
Qed.

(** *** Discovery (lines 422-451) *)

(** The sidecar looked for: the path of the original with [.xmp]
    appended. *)
Definition xmp_of (asset : AssetEntity) : string := a_originalPath asset ++ ".xmp".

Definition with_sidecar (asset : AssetEntity) : AssetPatch :=
  mkPatch (a_id asset) None None None None (Some (xmp_of asset)).

Lemma append_nonempty (a : string) c b : a ++ String c b <> EmptyString.
Proof. destruct a; discriminate. Qed.

Lemma present_xmp asset : present (Some (xmp_of asset)) = true.
Proof.
  unfold present, of_opt_str, truthy, xmp_of.
  destruct (a_originalPath asset ++ ".xmp") eqn:E; [|reflexivity].
  exfalso. exact (append_nonempty _ _ _ E).
Qed.

Lemma extraction_job_patched p a : extraction_job (apply_patch p a) = extraction_job a.
Proof. reflexivity. Qed.

(** What a discovery did. *)
Inductive Discovery : Type :=
| Skipped
| NoSidecar
| SaveFailed
| Saved (a' : AssetEntity) (queued : bool).

(** [Skipped]: the asset is not visible or has a sidecar already;
    [NoSidecar]: the file is missing or cannot be written; [SaveFailed]:
    the file is there and the save is rejected; [Saved]: the row is
    saved, and the job is queued or its emission fails. *)
Definition discovery (env : Env) (asset : AssetEntity) (w : World) : Discovery :=
  if negb (a_isVisible asset) || present (a_sidecarPath asset) then Skipped
  else
    match fs_access env (xmp_of asset) with
    | AccessOk =>
        if save_ok env (with_sidecar asset) then
          match List.find (id_is (a_id asset)) (assets w) with
          | Some a =>
              let a' := apply_patch (with_sidecar asset) a in
              Saved a' (queue_ok env (mkJob (extraction_job a') a'))
          | None => SaveFailed
          end
        else SaveFailed
    | _ => NoSidecar
    end.

Lemma discovery_run env asset w :
  handleSidecarDiscovery env asset w
  = (Ok tt,
     match discovery env asset w with
     | Skipped => w
     | NoSidecar =>
         log_events
           (EvAccess (xmp_of asset)
            :: match fs_access env (xmp_of asset) with
               | EACCES =>
                   [EvLog LogError
                      "Unable to queue metadata extraction, file is not writable"]
               | _ => []
               end) w
     | SaveFailed =>
         log_events
           [EvAccess (xmp_of asset); EvSave (with_sidecar asset);
            EvLog LogError "Unable to sync sidecar"] w
     | Saved a' queued =>
         let j := mkJob (extraction_job a') a' in
         mkWorld (patch_rows (with_sidecar asset) (assets w)) (exifs w)
           (jobs w ++ if queued then [j] else [])%list
           (metadataQueuePaused w)
           (trace w
            ++ [EvAccess (xmp_of asset); EvSave (with_sidecar asset); EvQueue j]
            ++ if queued then [] else [EvLog LogError "Unable to sync sidecar"])%list
     end).
Proof.
  unfold handleSidecarDiscovery, discovery. fold (xmp_of asset).
  destruct (a_isVisible asset); cbn [negb orb]; [|reflexivity].
  destruct (present (a_sidecarPath asset)); [reflexivity|].
  unfold bind at 1. unfold emit at 1.
  destruct (fs_access env (xmp_of asset)) eqn:Ea; cbn [fst snd]; try reflexivity.
  - unfold try_catch, bind. rewrite save_run. fold (with_sidecar asset).
    destruct (save_ok env (with_sidecar asset));
      [|unfold log_events, emit; cbn; rewrite <- !app_assoc; reflexivity].
    cbn [p_id with_sidecar assets].
    destruct (List.find (id_is (a_id asset)) (assets w)) as [a|] eqn:Ef;
      [|unfold log_events, emit; cbn; rewrite <- !app_assoc; reflexivity].
    rewrite queue_run. cbn [assets exifs jobs metadataQueuePaused trace].
    fold (with_sidecar asset). cbv zeta.
    destruct (queue_ok env _); unfold emit; cbn; rewrite <- !app_assoc;
      cbn; rewrite ?app_nil_r; reflexivity.
  - unfold emit, log_events. cbn. rewrite <- !app_assoc. reflexivity.
Qed.

Lemma recorded_row env asset w a' queued :
  discovery env asset w = Saved a' queued ->
  a_isVisible asset = true
  /\ present (a_sidecarPath asset) = false
  /\ fs_access env (xmp_of asset) = AccessOk
  /\ a_id a' = a_id asset
  /\ a_sidecarPath a' = Some (xmp_of asset)
  /\ In a' (patch_rows (with_sidecar asset) (assets w)).
Proof.
  unfold discovery.
  destruct (a_isVisible asset); cbn [negb orb]; [|discriminate].
  destruct (present (a_sidecarPath asset)); [discriminate|].
  destruct (fs_access env (xmp_of asset)); try discriminate.
  destruct (save_ok env (with_sidecar asset)); [|discriminate].
  destruct (List.find (id_is (a_id asset)) (assets w)) as [a|] eqn:Ef; [|discriminate].
  cbv zeta. intros H. injection H as <- _.
  apply find_some in Ef. destruct Ef as [Hin Hid].
  repeat split; try reflexivity.
  - apply String.eqb_eq. exact Hid.
  - unfold patch_rows. apply in_map_iff. exists a.
    cbn [p_id with_sidecar]. rewrite Hid. split; [reflexivity | exact Hin].
Qed.

(** X13. A discovery changes the store only for a visible asset that has no
    sidecar recorded and whose [.xmp] file exists and can be written: then
    the row of the asset takes the path of that file, and the job that may
    follow carries the saved row, sidecar included, under the extraction
    name of its type.  In every other case the tables and the queue are as
    before.  Metadata records, the pause flag and the identity, owner and
    type of every asset are never changed. *)
Theorem discovery_is_guarded (env : Env) (asset : AssetEntity) (w : World) :
  let w' := snd (handleSidecarDiscovery env asset w) in
  exifs w' = exifs w
  /\ metadataQueuePaused w' = metadataQueuePaused w
  /\ map keys (assets w') = map keys (assets w)
  /\ ((assets w' = assets w /\ jobs w' = jobs w)
      \/ (a_isVisible asset = true
          /\ present (a_sidecarPath asset) = false
          /\ fs_access env (xmp_of asset) = AccessOk
          /\ assets w' = patch_rows (with_sidecar asset) (assets w)
          /\ (jobs w' = jobs w
              \/ exists a',
                   jobs w' = (jobs w ++ [mkJob (extraction_job a') a'])%list
                   /\ In a' (assets w')
                   /\ a_id a' = a_id asset
                   /\ a_sidecarPath a' = Some (xmp_of asset)))).
Proof.
  cbv zeta. rewrite discovery_run. cbn [snd].
  destruct (discovery env asset w) as [| | |a' queued] eqn:E;
    try (repeat split; left; split; reflexivity).
  apply recorded_row in E. destruct E as (Hv & Hs & Ha & Hid & Hp & Hin).
  cbn. split; [reflexivity|]. split; [reflexivity|].
  split; [apply patch_rows_keys|]. right.
  split; [exact Hv|]. split; [exact Hs|]. split; [exact Ha|].
  split; [reflexivity|].
  destruct queued; [right | left; apply app_nil_r].
  exists a'. repeat split; assumption.
Qed.

(** X14. The asset carried by the job that a discovery queues is not discovered
    again: a second discovery, run on that asset, leaves the world as it
    is and does not look at the disk. *)
Theorem discovered_sidecar_is_not_searched_again (env : Env) (asset : AssetEntity)
    (w : World) (j : JobItem) :
  let w' := snd (handleSidecarDiscovery env asset w) in
  jobs w' = (jobs w ++ [j])%list ->
  a_sidecarPath (data j) = Some (xmp_of asset)
  /\ handleSidecarDiscovery env (data j) w' = (Ok tt, w').
Proof.
  cbv zeta. rewrite (discovery_run env asset w). cbn [snd].
  destruct (discovery env asset w) as [| | |a' queued] eqn:E; cbn [jobs log_events].
  1-3: intros H; exfalso; apply (f_equal (@length _)) in H;
       rewrite length_app in H; cbn in H; lia.
  apply recorded_row in E. destruct E as (_ & _ & _ & _ & Hp & _).
  destruct queued.
  2:{ intros H; exfalso; apply (f_equal (@length _)) in H;
      rewrite !length_app in H; cbn in H; lia. }
  intros H. apply app_inv_head in H. injection H as <-. cbn [data].
  split; [exact Hp|].
  rewrite discovery_run. unfold discovery. rewrite Hp, present_xmp, orb_true_r.
  reflexivity.
Qed.

(** The sidecar of [still] exists and can be written. *)
Definition sidecar_on_disk : Env :=
  mkEnv VUndef (fun _ => None) (fun _ => None) (fun _ => None) (fun _ => None)
    (fun p => if String.eqb p (xmp_of still) then AccessOk else ENOENT)
    (fun _ _ => None) (fun _ _ => None) true true true true
    (fun _ => true) (fun _ => true) (fun _ => true) (fun _ => true)
    (fun _ => [])
    (fun _ => InvalidDate) (fun _ => EmptyString) (fun _ => EmptyString)
    (fun _ => NaN) (fun _ => EmptyString).

Definition still_with_sidecar : AssetEntity := apply_patch (with_sidecar still) still.

Lemma discovered_sidecar_is_not_searched_again_witness :
  let w' := snd (handleSidecarDiscovery sidecar_on_disk still w0) in
  jobs w' = [mkJob EXIF_EXTRACTION still_with_sidecar]
  /\ handleSidecarDiscovery sidecar_on_disk still_with_sidecar w' = (Ok tt, w').
Proof.
  cbv zeta. split; [vm_compute; reflexivity|].
  apply (discovered_sidecar_is_not_searched_again sidecar_on_disk still w0
           (mkJob EXIF_EXTRACTION still_with_sidecar)).
  vm_compute. reflexivity.
Defined.

End Sidecars.
(** ** Start-up of the reverse geocoder (lines 54-74) *)

Module Startup.

(** The build of the index is reached: reverse geocoding is enabled, the
    cache, when asked for, could be deleted, and the queue could be
    paused. *)
Definition build_reached (env : Env) (deleteCache : bool) : bool :=
  reverseGeocodingEnabled env
  && (negb deleteCache || geocoding_deleteCache_ok env)
  && pause_ok env.

Definition startup_error : Event :=
  EvLog LogError "Unable to initialize reverse geocoding".

(** The calls of a start-up, in order. *)
Definition startup_events (env : Env) (deleteCache : bool) : list Event :=
  if reverseGeocodingEnabled env then
    EvLog LogWarn "Reverse geocoding is enabled"
    :: (if deleteCache then [EvDeleteCache] else [])
    ++ (if deleteCache && negb (geocoding_deleteCache_ok env) then [startup_error]
        else
          EvLog LogInfo "Initializing Reverse Geocoding"
          :: EvPause
          :: (if negb (pause_ok env) then [startup_error]
              else
                EvGeoInit
                :: (if negb (geocoding_init_ok env) then [startup_error]
                    else
                      EvResume
                      :: (if resume_ok env
                          then [EvLog LogInfo "Reverse Geocoding Initialized"]
                          else [startup_error]))))
  else [EvLog LogWarn "Reverse geocoding is disabled"].

Ltac run_startup :=
  cbv beta iota zeta delta
    [init try_catch bind emit ret throw geocodingRepository_deleteCache
     jobRepository_pause geocodingRepository_init jobRepository_resume set_paused
     assets exifs jobs metadataQueuePaused trace negb andb orb fst snd].

Lemma init_run env deleteCache w :
  init env deleteCache w
  = (Ok tt,
     mkWorld (assets w) (exifs w) (jobs w)
       (if build_reached env deleteCache
        then negb (geocoding_init_ok env && resume_ok env)
        else metadataQueuePaused w)
       (trace w ++ startup_events env deleteCache)).
Proof.
  destruct w as [a e j p t]. unfold build_reached, startup_events.
  destruct (reverseGeocodingEnabled env) eqn:Een; run_startup; rewrite Een;
    [|reflexivity].
  destruct deleteCache.
  - destruct (geocoding_deleteCache_ok env); run_startup;
      [|rewrite <- !app_assoc; reflexivity].
    destruct (pause_ok env); run_startup; [|rewrite <- !app_assoc; reflexivity].
    destruct (geocoding_init_ok env); run_startup;
      [|rewrite <- !app_assoc; reflexivity].
    destruct (resume_ok env); run_startup; rewrite <- !app_assoc; reflexivity.
  - destruct (pause_ok env); run_startup; [|rewrite <- !app_assoc; reflexivity].
    destruct (geocoding_init_ok env); run_startup;
      [|rewrite <- !app_assoc; reflexivity].
    destruct (resume_ok env); run_startup; rewrite <- !app_assoc; reflexivity.
Qed.

Ltac decide_membership :=
  cbn; split; intros H;
  repeat match goal with
         | H : _ \/ _ |- _ => destruct H as [H|H]
         | H : False |- _ => destruct H
         end;
  try discriminate; try reflexivity; tauto.

Lemma startup_events_calls env deleteCache :
  (In EvDeleteCache (startup_events env deleteCache)
   <-> reverseGeocodingEnabled env && deleteCache = true)
  /\ (In EvGeoInit (startup_events env deleteCache)
      <-> build_reached env deleteCache = true)
  /\ (In EvResume (startup_events env deleteCache)
      <-> build_reached env deleteCache && geocoding_init_ok env = true).
Proof.
  unfold startup_events, build_reached.
  destruct (reverseGeocodingEnabled env), deleteCache, (geocoding_deleteCache_ok env),
    (pause_ok env), (geocoding_init_ok env), (resume_ok env);
    (split; [|split]); decide_membership.
Qed.

(** X15. Start-up only acts on the pause flag and the trace.  The index is
    built only behind a pause that succeeded, and never when reverse
    geocoding is disabled or the requested deletion of the cache failed.
    Once the build is reached the queue ends up running exactly when both
    the build and the resume succeed, and paused otherwise; when the build
    is not reached the pause flag is as before.  The cache is deleted only
    on request and the resume is attempted only after a build that
    succeeded. *)
Theorem init_outcome (env : Env) (deleteCache : bool) (w : World) :
  let w' := snd (init env deleteCache w) in
  assets w' = assets w
  /\ exifs w' = exifs w
  /\ jobs w' = jobs w
  /\ metadataQueuePaused w'
     = (if build_reached env deleteCache
        then negb (geocoding_init_ok env && resume_ok env)
        else metadataQueuePaused w)
  /\ exists evs,
       trace w' = (trace w ++ evs)%list
       /\ (In EvDeleteCache evs <-> reverseGeocodingEnabled env && deleteCache = true)
       /\ (In EvGeoInit evs <-> build_reached env deleteCache = true)
       /\ (In EvResume evs
           <-> build_reached env deleteCache && geocoding_init_ok env = true).
Proof.
  cbv zeta. rewrite init_run. cbn [snd assets exifs jobs metadataQueuePaused trace].
  repeat (split; [reflexivity|]).
  exists (startup_events env deleteCache). split; [reflexivity|].
  apply startup_events_calls.
Qed.

End Startup.
(** ** Video streams and location tags (lines 283-334) *)

Module VideoFacts.

Import LocationFacts.

Fixpoint all_digits (s : string) : bool :=
  match s with
  | EmptyString => true
  | String c r => is_digit c && all_digits r
  end.

(** *** Characters *)

Lemma digit_not_slash c : is_digit c = true -> Ascii.eqb c "/" = false.
Proof.
  destruct c as [[] [] [] [] [] [] [] []]; vm_compute; intros H;
    first [discriminate H | reflexivity].
Qed.

Lemma digit_not_space c : is_digit c = true -> is_space c = false.
Proof.
  destruct c as [[] [] [] [] [] [] [] []]; vm_compute; intros H;
    first [discriminate H | reflexivity].
Qed.

Lemma digit_not_hex_prefix c :
  is_digit c = true -> (Ascii.eqb c "x" || Ascii.eqb c "X")%bool = false.
Proof.
  destruct c as [[] [] [] [] [] [] [] []]; vm_compute; intros H;
    first [discriminate H | reflexivity].
Qed.

Lemma digit_val_range c : is_digit c = true -> (0 <= digit_val c <= 9)%Z.
Proof.
  destruct c as [[] [] [] [] [] [] [] []]; vm_compute; intros H;
    first [discriminate H | split; discriminate].
Qed.

Lemma sign_not_digit c : is_sign c = true -> is_digit c = false.
Proof.
  destruct c as [[] [] [] [] [] [] [] []]; vm_compute; intros H;
    first [discriminate H | reflexivity].
Qed.

Lemma digits_val_nonneg s : forall acc,
  all_digits s = true -> (0 <= acc)%Z -> (0 <= digits_val acc s)%Z.
Proof.
  induction s as [|c s IH]; cbn; intros acc H Hacc; [exact Hacc|].
  apply andb_true_iff in H. destruct H as [Hc Hs].
  apply IH; [exact Hs|]. pose proof (digit_val_range c Hc). lia.
Qed.

(** *** Splitting and parsing digit strings *)

Lemma split_digits s : all_digits s = true -> split "/" s = [s].
Proof.
  induction s as [|c s IH]; cbn; intros H; [reflexivity|].
  apply andb_true_iff in H. destruct H as [Hc Hs].
  rewrite (digit_not_slash c Hc), (IH Hs). reflexivity.
Qed.

Lemma split_fraction n d :
  all_digits n = true -> all_digits d = true ->
  split "/" (n ++ String "/" d) = [n; d].
Proof.
  intros Hn Hd. induction n as [|c n IH].
  - change (split "/" (String "/" d) = [EmptyString; d]). cbn.
    rewrite (split_digits d Hd). reflexivity.
  - cbn in Hn. apply andb_true_iff in Hn. destruct Hn as [Hc Hn].
    rewrite append_cons. cbn [split].
    rewrite (digit_not_slash c Hc), (IH Hn). reflexivity.
Qed.

Lemma span_digits s : all_digits s = true -> span is_digit s = (s, EmptyString).
Proof.
  induction s as [|c s IH]; cbn; intros H; [reflexivity|].
  apply andb_true_iff in H. destruct H as [Hc Hs].
  rewrite Hc, (IH Hs). reflexivity.
Qed.

Lemma parseInt_digits s :
  all_digits s = true -> s <> EmptyString ->
  parseInt s = signed false (digits_val 0 s # 1).
Proof.
  intros H Hne. destruct s as [|c s]; [congruence|].
  pose proof H as Hall. cbn in H. apply andb_true_iff in H. destruct H as [Hc Hs].
  unfold parseInt. cbn [trim_start]. rewrite (digit_not_space c Hc).
  assert (Hsign : take_sign (String c s) = (false, String c s)).
  { clear - Hc. destruct c as [[] [] [] [] [] [] [] []]; vm_compute in Hc;
      first [discriminate Hc | reflexivity]. }
  rewrite Hsign.
  assert (Hspan := span_digits _ Hall).
  destruct (Ascii.eqb_spec c "0") as [->|Hc0].
  - destruct s as [|x r].
    + reflexivity.
    + cbn in Hs. apply andb_true_iff in Hs. destruct Hs as [Hx Hr].
      rewrite (digit_not_hex_prefix x Hx), Hspan. reflexivity.
  - assert (Hdefault :
      forall (A : Type) (hex : ascii -> string -> A) (other : A),
        match String c s with
        | String "0" (String x r) => hex x r
        | _ => other
        end = other).
    { intros A hex other. clear - Hc0.
      destruct c as [[] [] [] [] [] [] [] []]; try reflexivity. congruence. }
    rewrite Hdefault, Hspan. reflexivity.
Qed.

(** *** Rounding a quotient of two naturals *)

Lemma Qeq_bool_int (z : Z) : Qeq_bool (z # 1) 0 = Z.eqb z 0.
Proof.
  unfold Qeq_bool. cbn. rewrite Z.mul_1_r.
  destruct z; reflexivity.
Qed.

Lemma is_zero_Qred q : is_zero (Fin (Qred q)) = Qeq_bool q 0.
Proof.
  cbn. destruct (Qeq_bool q 0) eqn:E.
  - apply Qeq_bool_iff. rewrite Qred_correct. apply Qeq_bool_iff. exact E.
  - destruct (Qeq_bool (Qred q) 0) eqn:E'; [|reflexivity].
    apply Qeq_bool_iff in E'. rewrite Qred_correct in E'.
    apply Qeq_bool_iff in E'. congruence.
Qed.

Lemma is_neg_positive q : (0 < q)%Q -> is_neg (Fin q) = false.
Proof.
  intros H. cbn. destruct (Qcompare q 0) eqn:E; try reflexivity.
  apply Qlt_alt in E. exfalso. apply (Qlt_irrefl 0). eapply Qlt_trans; eassumption.
Qed.

Lemma round_fraction (N D : Z) :
  (0 <= N)%Z -> (0 < D)%Z ->
  Math_round (div (signed false (N # 1)) (signed false (D # 1)))
  = num_of_Z ((2 * N + D) / (2 * D)).
Proof.
  intros HN HD. unfold signed. rewrite !Qeq_bool_int.
  destruct (Z.eqb_spec D 0) as [|_]; [lia|].
  assert (HDq : (0 < D # 1)%Q) by (unfold Qlt; cbn; lia).
  destruct (Z.eqb_spec N 0) as [->|HN0].
  - unfold div, zero. rewrite is_zero_Qred, Qeq_bool_int.
    destruct (Z.eqb_spec D 0) as [|_]; [lia|].
    cbn [is_zero]. change (Qeq_bool 0 0) with true. cbv iota.
    rewrite (is_neg_positive (Qred (D # 1))) by (rewrite Qred_correct; exact HDq).
    change (is_neg (Fin 0)) with false. cbn [xorb].
    rewrite Z.mul_0_r, Z.add_0_l, Z.div_small by lia. reflexivity.
  - assert (HNq : (0 < N # 1)%Q) by (unfold Qlt; cbn; lia).
    unfold div. rewrite !is_zero_Qred, !Qeq_bool_int.
    destruct (Z.eqb_spec D 0) as [|_]; [lia|].
    destruct (Z.eqb_spec N 0) as [|_]; [lia|].
    cbn [to_Q]. unfold Math_round.
    assert (Hq : (Qred (Qred (N # 1) / Qred (D # 1)) == N # Z.to_pos D)%Q).
    { rewrite !Qred_correct. destruct D as [|p|p]; try lia.
      unfold Qeq, Qdiv, Qmult, Qinv. cbn. lia. }
    assert (Hpos : (0 < Qred (Qred (N # 1) / Qred (D # 1)))%Q).
    { rewrite Hq. unfold Qlt. cbn. lia. }
    rewrite (is_neg_positive _ Hpos), andb_false_r. f_equal.
    rewrite (Qfloor_comp _ ((2 * N + D) # Z.to_pos (2 * D))).
    + unfold Qfloor. rewrite Z2Pos.id by lia. reflexivity.
    + rewrite Hq. destruct D as [|p|p]; try lia.
      unfold Qeq, Qplus. cbn. lia.
Qed.

(** *** Rounding the double nearest to the quotient

    The division of the source returns the double nearest to the exact
    quotient.  The lemmas below show that, for a numerator below 2^52,
    [Math.round] gives the same integer for every value that such a
    division may return. *)

Lemma floor_of_nearby (N D a : Z) (b : positive) :
  (0 <= N < 2 ^ 52)%Z -> (0 < D)%Z ->
  (2 ^ 53 * (a * D - N * Zpos b) <= N * Zpos b)%Z ->
  (- (N * Zpos b) <= 2 ^ 53 * (a * D - N * Zpos b))%Z ->
  (((2 * N) mod D = 0)%Z -> (a * D = N * Zpos b)%Z) ->
  ((2 * a + Zpos b) / (2 * Zpos b) = (2 * N + D) / (2 * D))%Z.
Proof.
  intros HN HD H1 H2 Hexact.
  set (k := ((2 * N + D) / (2 * D))%Z).
  set (r := ((2 * N + D) mod (2 * D))%Z).
  assert (Hk : (2 * N + D = 2 * D * k + r)%Z) by (apply Z.div_mod; lia).
  assert (Hr : (0 <= r < 2 * D)%Z) by (apply Z.mod_pos_bound; lia).
  set (t := (a * D - N * Zpos b)%Z) in *.
  set (M := (N * Zpos b)%Z) in *.
  assert (HM : (0 <= M < 2 ^ 52 * Zpos b)%Z) by (subst M; nia).
  assert (Ht : (- Zpos b < 2 * t < Zpos b)%Z) by lia.
  assert (Hlow : (0 <= 2 * t + Zpos b * r)%Z).
  { destruct (Z.eq_dec ((2 * N) mod D)%Z 0%Z) as [E|E].
    - apply Hexact in E. assert (t = 0%Z) by (subst t M; lia). nia.
    - assert (r <> 0%Z).
      { intros Hr0. apply E. rewrite Hr0, Z.add_0_r in Hk.
        replace (2 * N)%Z with ((2 * k - 1) * D)%Z by lia. apply Z_mod_mult. }
      nia. }
  assert (Hup : (2 * t < Zpos b * (2 * D - r))%Z) by nia.
  symmetry. apply (Z.div_unique_pos _ _ _ (2 * a + Zpos b - 2 * Zpos b * k)%Z); [|lia].
  assert (E1 : ((2 * a + Zpos b) * D - 2 * Zpos b * k * D = 2 * t + Zpos b * r)%Z)
    by (subst t M; nia).
  split; nia.
Qed.

(** 2^-53, the relative error of a correctly rounded operation on
    doubles. *)
Definition unit_roundoff : Q := 1 # 9007199254740992.

(** [q] may be the double that the source computes for [N / D]: it is
    within the unit roundoff of the exact quotient, and it is the quotient
    itself when that is a multiple of one half, which below 2^52 is a
    double. *)
Definition rounded_quotient (N D : Z) (q : Q) : Prop :=
  (Qabs (q - (N # 1) / (D # 1)) <= (N # 1) / (D # 1) * unit_roundoff)%Q
  /\ (((2 * N) mod D = 0)%Z -> (q == (N # 1) / (D # 1))%Q).

Lemma round_of_nearby (N D : Z) (q : Q) :
  (0 <= N < 2 ^ 52)%Z -> (0 < D)%Z ->
  rounded_quotient N D q ->
  Math_round (Fin q) = num_of_Z ((2 * N + D) / (2 * D)).
Proof.
  intros HN HD [Habs Hexact]. unfold unit_roundoff in Habs.
  destruct D as [|p|p]; try lia.
  destruct q as [a b].
  apply Qabs_Qle_condition in Habs. destruct Habs as [Hlo Hhi].
  unfold Qle, Qeq, Qminus, Qplus, Qopp, Qdiv, Qmult, Qinv in *.
  cbn [Qnum Qden] in *.
  rewrite ?Pos2Z.inj_mul, ?Z.mul_1_r, ?Z.mul_1_l, ?Pos.mul_1_l in *.
  set (t := (a * Z.pos p - N * Z.pos b)%Z).
  assert (H1 : (2 ^ 53 * t <= N * Z.pos b)%Z).
  { apply (Z.mul_le_mono_pos_r _ _ (Z.pos p)); [lia|]. subst t.
    change (2 ^ 53)%Z with 9007199254740992%Z. lia. }
  assert (H2 : (- (N * Z.pos b) <= 2 ^ 53 * t)%Z).
  { apply (Z.mul_le_mono_pos_r _ _ (Z.pos p)); [lia|]. subst t.
    change (2 ^ 53)%Z with 9007199254740992%Z. lia. }
  pose proof (floor_of_nearby N (Z.pos p) a b HN HD H1 H2 Hexact) as Hfloor.
  unfold Math_round.
  assert (Hr : Qfloor ((a # b) + (1 # 2)) = ((2 * N + Z.pos p) / (2 * Z.pos p))%Z).
  { rewrite <- Hfloor. unfold Qfloor, Qplus. cbn [Qnum Qden].
    rewrite Pos2Z.inj_mul. f_equal; lia. }
  rewrite Hr.
  assert (Hneg : is_neg (Fin (a # b)) = false).
  { cbn. destruct (Qcompare (a # b) 0) eqn:E; try reflexivity.
    apply Qlt_alt in E. unfold Qlt in E. cbn in E.
    assert (0 <= a * Z.pos p)%Z by nia. nia. }
  rewrite Hneg, andb_false_r. reflexivity.
Qed.

(** A stream whose frame rate is the fraction [n/d]. *)
Definition fraction (n d : string) : string := n ++ String "/" d.

(** X16. The frame rate of a stream that gives it as [n/d], two runs of
    digits with a numerator below 2^52 and a denominator that is not zero
    and below 2^53, is the quotient rounded to the nearest integer, halves
    upwards: the integer part of [(2n + d) / (2d)].  Under these bounds
    [parseInt] returns both numbers exactly, and the rounding of the
    division to a double does not matter: [Math.round] gives that same
    integer for every value within the unit roundoff of the quotient that
    is exact on multiples of one half, as the double computed by the source
    is. *)
Theorem frame_rate_is_the_rounded_quotient (stream : FfprobeStream)
    (newExif : ExifEntity) (n d : string) :
  all_digits n = true -> n <> EmptyString ->
  all_digits d = true -> d <> EmptyString ->
  (digits_val 0 n < 2 ^ 52)%Z ->
  (0 < digits_val 0 d < 2 ^ 53)%Z ->
  r_frame_rate stream = Some (fraction n d) ->
  let rounded :=
    num_of_Z ((2 * digits_val 0 n + digits_val 0 d) / (2 * digits_val 0 d)) in
  frameRate stream newExif = set_fps (VNum rounded) newExif
  /\ forall q : Q,
       rounded_quotient (digits_val 0 n) (digits_val 0 d) q ->
       Math_round (Fin q) = rounded.
Proof.
  intros Hn Hn0 Hd Hd0 HN HD Hr rounded. subst rounded.
  assert (HN0 : (0 <= digits_val 0 n)%Z) by (apply digits_val_nonneg; [exact Hn | lia]).
  split.
  - unfold frameRate. rewrite Hr.
    assert (Hp : present (Some (fraction n d)) = true).
    { unfold present, of_opt_str, truthy, fraction.
      destruct (n ++ String "/" d) eqn:E; [|reflexivity].
      destruct n; discriminate. }
    rewrite Hp. cbn [default]. unfold id, fraction.
    rewrite (split_fraction n d Hn Hd). cbn [length Nat.eqb nth].
    rewrite (parseInt_digits n Hn Hn0), (parseInt_digits d Hd Hd0).
    rewrite round_fraction; [reflexivity | exact HN0 | lia].
  - intros q Hq. apply round_of_nearby; [lia | lia | exact Hq].
Qed.

(** The record of [motion] as built from its probe, before enrichment. *)
Definition motion_record : ExifEntity :=
  videoExif all_ok motion motion_probe (a_fileCreatedAt motion) (Some motion_tags).

Definition ntsc : FfprobeStream :=
  {| codec_type := Some "video"; width := Some (Fin 1920); height := Some (Fin 1080);
     rotation := VNum (Fin 90); r_frame_rate := Some "30000/1001" |}.

Lemma frame_rate_is_the_rounded_quotient_witness :
  frameRate ntsc motion_record = set_fps (VNum (num_of_Z 30)) motion_record
  /\ Math_round (Fin (30000 # 1001)) = num_of_Z 30.
Proof.
  assert (Hn : (digits_val 0 "30000" < 2 ^ 52)%Z) by (vm_compute; reflexivity).
  assert (Hd : (0 < digits_val 0 "1001" < 2 ^ 53)%Z)
    by (split; vm_compute; reflexivity).
  assert (Hn0 : "30000" <> EmptyString) by discriminate.
  assert (Hd0 : "1001" <> EmptyString) by discriminate.
  destruct (frame_rate_is_the_rounded_quotient ntsc motion_record "30000" "1001"
              eq_refl Hn0 eq_refl Hd0 Hn Hd eq_refl)
    as [Hrate Hround].
  split; [exact Hrate|].
  apply Hround. split.
  - vm_compute. discriminate.
  - intros _. reflexivity.
Defined.

(** *** The last video stream decides *)

Definition is_video (stream : FfprobeStream) : bool :=
  bool_decide (codec_type stream = Some "video").

(** The dimensions and the orientation that a video stream gives. *)
Definition stream_height (stream : FfprobeStream) : JsVal :=
  or_else (of_opt_num (height stream)) VNull.

Definition stream_width (stream : FfprobeStream) : JsVal :=
  or_else (of_opt_num (width stream)) VNull.

(** [e'] is [e] except for the dimensions, the orientation and the frame
    rate. *)
Definition same_but_stream_columns (e e' : ExifEntity) : Prop :=
  e' = set_fps (fps e')
         (set_dimensions (exifImageHeight e') (exifImageWidth e') (orientation e') e).

Lemma same_but_stream_columns_refl e : same_but_stream_columns e e.
Proof. destruct e. reflexivity. Qed.

Lemma frameRate_fps stream e : frameRate stream e = set_fps (fps (frameRate stream e)) e.
Proof.
  unfold frameRate. destruct (present _); [|destruct e; reflexivity].
  destruct (Nat.eqb _ 2); destruct e; reflexivity.
Qed.

Lemma videoStream_columns env e e1 stream :
  same_but_stream_columns e e1 ->
  same_but_stream_columns e (videoStream env e1 stream).
Proof.
  unfold same_but_stream_columns, videoStream. intros H.
  destruct (bool_decide _); [|exact H].
  match goal with |- context [frameRate stream ?x] =>
    pose proof (frameRate_fps stream x) as HY;
    remember (frameRate stream x) as Y eqn:EY; clear EY end.
  rewrite HY, H. reflexivity.
Qed.

Lemma streams_columns env streams : forall e e1,
  same_but_stream_columns e e1 ->
  same_but_stream_columns e (fold_left (videoStream env) streams e1).
Proof.
  induction streams as [|s streams IH]; intros e e1 H; [exact H|].
  cbn [fold_left]. apply IH, videoStream_columns, H.
Qed.

Lemma other_streams_are_ignored env streams : forall e,
  forallb (fun s => negb (is_video s)) streams = true ->
  fold_left (videoStream env) streams e = e.
Proof.
  induction streams as [|s streams IH]; intros e H; [reflexivity|].
  cbn in H. apply andb_true_iff in H. destruct H as [Hs H].
  cbn [fold_left]. unfold videoStream at 2. unfold is_video in Hs.
  destruct (bool_decide _); [discriminate|]. apply IH, H.
Qed.

(** X17. Of the streams of a probe only the video streams count, and among
    them the last one decides: the stored height and width are the ones of
    the last video stream, null when it gives none or zero, whatever the
    streams before it gave; the streams change nothing but the dimensions,
    the orientation and the frame rate. *)
Theorem last_video_stream_decides (env : Env) (newExif : ExifEntity)
    (before after : list FfprobeStream) (stream : FfprobeStream) :
  is_video stream = true ->
  forallb (fun s => negb (is_video s)) after = true ->
  let e' := fold_left (videoStream env) (before ++ stream :: after)%list newExif in
  exifImageHeight e' = stream_height stream
  /\ exifImageWidth e' = stream_width stream
  /\ same_but_stream_columns newExif e'.
Proof.
  intros Hv Hafter e'. subst e'.
  split; [|split];
    [| | apply streams_columns, same_but_stream_columns_refl].
  all: rewrite fold_left_app; cbn [fold_left];
    rewrite (other_streams_are_ignored env after _ Hafter);
    unfold videoStream; unfold is_video in Hv;
    destruct (bool_decide _); try discriminate;
    rewrite frameRate_fps; reflexivity.
Qed.

Definition audio : FfprobeStream :=
  {| codec_type := Some "audio"; width := None; height := None;
     rotation := VUndef; r_frame_rate := Some "0/0" |}.

Definition thumbnail : FfprobeStream :=
  {| codec_type := Some "video"; width := Some (Fin 160); height := Some (Fin 90);
     rotation := VUndef; r_frame_rate := None |}.

Lemma last_video_stream_decides_witness :
  let e' := fold_left (videoStream all_ok) [thumbnail; audio; ntsc; audio] motion_record in
  exifImageHeight e' = VNum (Fin 1080)
  /\ exifImageWidth e' = VNum (Fin 1920)
  /\ same_but_stream_columns motion_record e'.
Proof.
  apply (last_video_stream_decides all_ok motion_record [thumbnail; audio] [audio] ntsc);
    reflexivity.
Defined.

(** *** Well-formed location tags *)

(** A signed decimal: a sign, digits, a dot, digits. *)
Definition decimal (sign : ascii) (ip fp : string) : string :=
  String sign (ip ++ String "." fp).

Record Decimal : Type := mkDecimal {
  d_sign : ascii;
  d_int : string;
  d_frac : string
}.

Definition text (g : Decimal) : string := decimal (d_sign g) (d_int g) (d_frac g).

Definition well_formed (g : Decimal) : bool :=
  is_sign (d_sign g)
  && all_digits (d_int g) && negb (String.eqb (d_int g) EmptyString)
  && all_digits (d_frac g) && negb (String.eqb (d_frac g) EmptyString).

(** The text does not start with a digit. *)
Definition no_leading_digit (s : string) : bool :=
  match s with
  | String c _ => negb (is_digit c)
  | EmptyString => true
  end.

Lemma span_digits_app a b :
  all_digits a = true -> no_leading_digit b = true ->
  span is_digit (a ++ b) = (a, b).
Proof.
  intros Ha Hb. induction a as [|c a IH].
  - change (span is_digit b = (EmptyString, b)).
    destruct b as [|x b]; [reflexivity|]. cbn in *.
    destruct (is_digit x); [discriminate | reflexivity].
  - cbn in Ha. apply andb_true_iff in Ha. destruct Ha as [Hc Ha].
    rewrite append_cons. cbn [span]. rewrite Hc, (IH Ha). reflexivity.
Qed.

Lemma signed_decimal_text g r :
  well_formed g = true -> no_leading_digit r = true ->
  signed_decimal (text g ++ r) = Some (text g, r).
Proof.
  destruct g as [c ip fp]. unfold well_formed, text, decimal. cbn [d_sign d_int d_frac].
  intros H Hr. repeat (apply andb_true_iff in H; destruct H as [H ?]).
  rewrite append_cons, append_assoc, append_cons.
  unfold signed_decimal. rewrite H.
  rewrite (span_digits_app ip (String "." (fp ++ r))) by (assumption || reflexivity).
  destruct ip as [|i ip]; [discriminate|].
  rewrite (span_digits_app fp r) by assumption.
  destruct fp as [|f fp]; [discriminate|]. reflexivity.
Qed.

Lemma text_no_leading_digit g r :
  well_formed g = true -> no_leading_digit (text g ++ r) = true.
Proof.
  destruct g as [c ip fp]. unfold well_formed, text, decimal. cbn [d_sign d_int d_frac].
  intros H. repeat (apply andb_true_iff in H; destruct H as [H ?]).
  rewrite append_cons. cbn. rewrite (sign_not_digit c H). reflexivity.
Qed.

Lemma text_nonempty g r : text g ++ r <> EmptyString.
Proof. discriminate. Qed.

Lemma groups_of_pair g1 g2 :
  well_formed g1 = true -> well_formed g2 = true ->
  groups_then_slash 2 (text g1 ++ text g2 ++ "/") = Some [text g1; text g2].
Proof.
  intros H1 H2. cbn [groups_then_slash].
  rewrite (signed_decimal_text g1) by (try apply text_no_leading_digit; assumption).
  rewrite (signed_decimal_text g2) by (assumption || reflexivity).
  reflexivity.
Qed.

Lemma groups_of_triple g1 g2 g3 :
  well_formed g1 = true -> well_formed g2 = true -> well_formed g3 = true ->
  groups_then_slash 3 (text g1 ++ text g2 ++ text g3 ++ "/")
  = Some [text g1; text g2; text g3].
Proof.
  intros H1 H2 H3. cbn [groups_then_slash].
  rewrite (signed_decimal_text g1) by (try apply text_no_leading_digit; assumption).
  rewrite (signed_decimal_text g2) by (try apply text_no_leading_digit; assumption).
  rewrite (signed_decimal_text g3) by (assumption || reflexivity).
  reflexivity.
Qed.

Lemma regex_match_whole n s gs :
  groups_then_slash n s = Some gs -> regex_match n s = Some (s :: gs).
Proof. intros H. destruct s; cbn [regex_match]; rewrite H; reflexivity. Qed.

(** X18. A well-formed location is read as its first two numbers.  The
    [location] tag holding a latitude and a longitude followed by a slash
    gives both; when that tag is missing, the
    [com.apple.quicktime.location.ISO6709] tag holding a latitude, a
    longitude and an altitude followed by a slash gives the first two, and
    the altitude is dropped. *)
Theorem well_formed_location_is_read (videoTags : option Tags) (newExif : ExifEntity)
    (lat lon alt : Decimal) :
  well_formed lat = true -> well_formed lon = true -> well_formed alt = true ->
  let found :=
    Ok (set_coordinates (VNum (parseFloat (text lat))) (VNum (parseFloat (text lon)))
          newExif) in
  (get_opt videoTags "location" = VStr (text lat ++ text lon ++ "/") ->
   locate videoTags newExif = found)
  /\ (truthy (get_opt videoTags "location") = false ->
      get_opt videoTags "com.apple.quicktime.location.ISO6709"
      = VStr (text lat ++ text lon ++ text alt ++ "/") ->
      locate videoTags newExif = found).
Proof.
  intros H1 H2 H3 found. subst found. split.
  - intros Ht. unfold locate. rewrite Ht.
    cbn [truthy]. unfold coordinates.
    rewrite (regex_match_whole 2 _ _ (groups_of_pair lat lon H1 H2)). reflexivity.
  - intros Hl Ht. unfold locate. rewrite Hl, Ht.
    cbn [truthy]. unfold coordinates.
    rewrite (regex_match_whole 3 _ _ (groups_of_triple lat lon alt H1 H2 H3)).
    reflexivity.
Qed.

Definition new_york_lat : Decimal := mkDecimal "+" "40" "7128".
Definition new_york_lon : Decimal := mkDecimal "-" "074" "0060".
Definition new_york_alt : Decimal := mkDecimal "+" "010" "000".

Lemma well_formed_location_is_read_witness :
  locate (Some {[ "com.apple.quicktime.location.ISO6709"
                  := VStr "+40.7128-074.0060+010.000/" ]}) motion_record
  = Ok (set_coordinates (VNum (Fin (50891 # 1250))) (VNum (Fin (-37003 # 500)))
          motion_record).
Proof.
  pose proof (well_formed_location_is_read
                (Some {[ "com.apple.quicktime.location.ISO6709"
                         := VStr "+40.7128-074.0060+010.000/" ]})
                motion_record new_york_lat new_york_lon new_york_alt
                eq_refl eq_refl eq_refl) as [_ H].
  exact (H eq_refl eq_refl).
Defined.

End VideoFacts.
(** ** A capture time that cannot be parsed (lines 119-127, 151 and 215-217) *)

Module CaptureTime.

Import Steps Runs Idempotence FileReads Enrichment.

(** The dates of the library cannot be parsed. *)
Definition undated : Env :=
  mkEnv VUndef read (ffprobe all_ok) (statSync_size all_ok) (sharp_metadata all_ok)
    (fs_access all_ok) (tz_lookup all_ok) (reverseGeocode all_ok) true true true true
    (fun _ => true) (fun _ => true) (fun _ => true) (fun _ => true)
    (pages all_ok) (fun _ => InvalidDate) (toISOString all_ok) (toString all_ok)
    (Number all_ok) (Duration_toFormat all_ok).

Lemma enrichImage_dateTimeOriginal env asset e e' :
  result_of (enrichImage env asset e) = Ok e' ->
  dateTimeOriginal e' = dateTimeOriginal e.
Proof.
  intros H. destruct (enrichImage_steps env asset e e' H) as (e1 & H1 & H2).
  apply geocoding_sets_place in H1. apply inspection_sets_dimensions in H2.
  rewrite H2, H1. reflexivity.
Qed.

(** X19. A capture time that parses to an invalid date is stored, and then
    stops the job.  When the date chosen from the tags, or the one of the
    asset, is text that [Date] cannot parse, image extraction of an asset
    without live-photo identifier still writes the record, with the invalid
    date in it; formatting the date for the asset then throws, so the asset
    is not updated and no follow-up job is queued, and the error is the
    last thing logged. *)
Theorem unparsable_capture_date_stops_after_the_record (env : Env)
    (asset : AssetEntity) (w : World) (e e' : ExifEntity) :
  result_of (readImage env asset) = Ok (e, VDate InvalidDate) ->
  truthy (livePhotoCID e) = false ->
  result_of (enrichImage env asset e) = Ok e' ->
  upsert_ok env e' = true ->
  let w' := exec (extractExifInfo env asset) w in
  exifs w' = upsert_row e' (exifs w)
  /\ dateTimeOriginal e' = VDate InvalidDate
  /\ assets w' = assets w
  /\ jobs w' = jobs w
  /\ last (trace w') = Some image_error.
Proof.
  intros Hread Hcid Henrich Hup w'. subst w'.
  assert (Hdate : dateTimeOriginal e = VDate InvalidDate).
  { rewrite readImage_derived in Hread. unfold derived in Hread.
    destruct (exifToDate env _) as [c|]; [|discriminate].
    destruct (exifToDate env _); [|discriminate].
    destruct (statSync_size env _); [|discriminate].
    injection Hread as <- <-. reflexivity. }
  assert (Hrun :
    exec (extractExifInfo env asset) w
    = log_events [EvUpsert e'; image_error]
        (mkWorld (assets w) (upsert_row e' (exifs w)) (jobs w) (metadataQueuePaused w)
           ((trace w ++ events_of (readImage env asset))
            ++ events_of (enrichImage env asset e))%list)).
  { unfold exec. rewrite extractExifInfo_run, Hread. cbv zeta.
    rewrite pairWithMotion_pairing, Hcid. cbn [andb]. unfold ret at 1.
    rewrite Henrich. unfold saveImage. unfold bind at 1. rewrite upsert_run, Hup.
    unfold bind, lift. cbn. unfold log_events. cbn.
    rewrite <- !app_assoc. reflexivity. }
  rewrite Hrun. clear Hrun.
  split; [reflexivity|].
  split; [rewrite (enrichImage_dateTimeOriginal _ _ _ _ Henrich); exact Hdate|].
  split; [reflexivity|]. split; [reflexivity|].
  cbn [trace log_events].
  change [EvUpsert e'; image_error] with ([EvUpsert e'] ++ [image_error])%list.
  rewrite app_assoc. apply last_snoc.
Qed.

Definition undated_record : ExifEntity :=
  match result_of (readImage undated other) with
  | Ok (e, _) => e
  | Throw _ => other_read
  end.

Definition undated_enriched : ExifEntity :=
  match result_of (enrichImage undated other undated_record) with
  | Ok e => e
  | Throw _ => other_read
  end.

Lemma unparsable_capture_date_stops_after_the_record_witness :
  let w' := exec (extractExifInfo undated other) w0 in
  exifs w' = [undated_enriched]
  /\ dateTimeOriginal undated_enriched = VDate InvalidDate
  /\ assets w' = assets w0
  /\ jobs w' = [].
Proof.
  destruct (unparsable_capture_date_stops_after_the_record undated other w0
              undated_record undated_enriched)
    as (He & Hd & Ha & Hj & _);
    [vm_compute; reflexivity | vm_compute; reflexivity | vm_compute; reflexivity
    | reflexivity |].
  cbv zeta. rewrite He, Hd, Ha, Hj. repeat split.
Defined.

End CaptureTime.
(** ** Pairing guards and the tags of a video (lines 180, 248-268) *)

Module Guards.

Import Steps Runs.

Lemma caught_links env asset e created err w :
  map links (assets (snd (caught err (saveImage env asset e created w))))
  = map links (assets w).
Proof.
  destruct (saveImage env asset e created w) as [r w'] eqn:E.
  apply saveImage_effects in E. destruct E as ((_ & _ & Hl & _) & _).
  destruct r; exact Hl.
Qed.

(** X20. A still that already has its motion part is not paired again: when the
    asset of the job carries a [livePhotoVideoId], image extraction makes no
    search, whatever identifier the tags hold, and the links and the
    visibility of all assets are as before. *)
Theorem linked_still_is_not_paired_again (env : Env) (asset : AssetEntity) (w : World) :
  present (a_livePhotoVideoId asset) = true ->
  let w' := exec (extractExifInfo env asset) w in
  map links (assets w') = map links (assets w)
  /\ forall e created,
       result_of (readImage env asset) = Ok (e, created) ->
       pairWithMotion env asset e = ret tt.
Proof.
  intros Hlinked w'. subst w'. split.
  - unfold exec. rewrite extractExifInfo_run. cbv zeta.
    destruct (result_of (readImage env asset)) as [[e created]|x]; [|reflexivity].
    rewrite pairWithMotion_pairing, Hlinked, andb_false_r. unfold ret at 1.
    destruct (result_of (enrichImage env asset e)) as [e'|x]; [|reflexivity].
    rewrite caught_links. reflexivity.
  - intros e created _. rewrite pairWithMotion_pairing, Hlinked, andb_false_r.
    reflexivity.
Qed.

(** [still], once linked to [motion]. *)
Definition linked_still : AssetEntity :=
  apply_patch (link_to (a_id still) motion) still.

Lemma linked_still_is_not_paired_again_witness :
  map links (assets (exec (extractExifInfo all_ok linked_still) w0))
  = map links (assets w0).
Proof.
  apply (linked_still_is_not_paired_again all_ok linked_still w0). reflexivity.
Defined.

(** The file that exiftool reads for a video. *)
Definition tag_file (asset : AssetEntity) : string :=
  if present (a_sidecarPath asset) then default EmptyString (a_sidecarPath asset)
  else a_originalPath asset.

(** X21. For a video exiftool reads one file only: the sidecar when the asset
    has one, the original otherwise.  The tags of the two are not merged:
    the live-photo identifier of the record is the [ContentIdentifier] of
    that file, null when the file has none or cannot be read, so for a
    video with a sidecar the identifier embedded in the original is not
    seen. *)
Theorem video_tags_come_from_one_file (env : Env) (asset : AssetEntity)
    (data : FfprobeData) :
  ffprobe env (a_originalPath asset) = Some data ->
  exists created e,
    result_of (readVideo env asset) = Ok (data, created, e)
    /\ livePhotoCID e
       = or_else (get_opt (exiftool_read env (tag_file asset)) "ContentIdentifier") VNull
    /\ forall path, In (EvExifRead path) (events_of (readVideo env asset)) ->
                    path = tag_file asset.
Proof.
  intros Hprobe.
  unfold result_of, events_of, readVideo, probe, read_tags, bind, emit, ret.
  rewrite Hprobe. fold (tag_file asset). cbn.
  destruct (exiftool_read env (tag_file asset)) as [tags|]; cbn;
    eexists _, _; (split; [reflexivity|]); (split; [reflexivity|]);
    intros path H;
    repeat match goal with
           | H : _ \/ _ |- _ => destruct H as [H|H]
           | H : False |- _ => destruct H
           end; congruence.
Qed.

(** A video whose original holds the identifier and whose sidecar does
    not. *)
Definition motion_with_sidecar : AssetEntity :=
  apply_patch (mkPatch (a_id motion) None None None None (Some "/lib/IMG_2.JPG.xmp"))
    motion.

Lemma video_tags_come_from_one_file_witness :
  get_opt (exiftool_read all_ok (a_originalPath motion_with_sidecar)) "ContentIdentifier"
  = VStr "X"
  /\ exists created e,
       result_of (readVideo all_ok motion_with_sidecar) = Ok (motion_probe, created, e)
       /\ livePhotoCID e = VNull.
Proof.
  split; [vm_compute; reflexivity|].
  destruct (video_tags_come_from_one_file all_ok motion_with_sidecar motion_probe)
    as (created & e & Hr & Hc & _); [reflexivity|].
  exists created, e. split; [exact Hr|]. rewrite Hc. vm_compute. reflexivity.
Defined.

End Guards.

(** ** The merged image record (lines 102-178) and the tags of a video
    (lines 248-268) *)

Module Merging.

Import Precedence Runs FileReads.

(** The merged value of a column requested under [aliases], as the
    specification words it: the value of the first alias, in the order
    requested, that some source populates, the sidecar value being taken
    over the embedded one; [null] when no alias is populated. *)
Definition merged (sidecar embedded : option Tags) (aliases : list string) : JsVal :=
  default VNull (first_populated_alias sidecar embedded aliases).

(** No source populates the alias. *)
Definition unpopulated (sidecar embedded : option Tags) (property : string) : Prop :=
  by_source_precedence sidecar embedded property = None.

Section Columns.

Variable env : Env.

(** How image extraction stores a merged value. *)
Definition as_it_is (v : JsVal) : JsVal := v.

(** [getExifProperty('Orientation')?.toString()] *)
Definition as_orientation (v : JsVal) : JsVal :=
  if is_nullish v then VUndef else VStr (String_of env v).

(** [focalLength ? parseFloat(focalLength) : null] *)
Definition as_focal_length (v : JsVal) : JsVal :=
  if truthy v then VNum (parseFloat (String_of env v)) else VNull.

(** [Array.isArray(iso) ? iso[0] : iso || null] *)
Definition as_iso (v : JsVal) : JsVal :=
  match v with
  | VArr l => nth 0 l VUndef
  | _ => or_else v VNull
  end.

(** Every column of the record that is taken from the tags: the aliases
    requested, in order, the column, and the conversion of the merged
    value. *)
Definition columns : list (list string * (ExifEntity -> JsVal) * (JsVal -> JsVal)) :=
  [ (["Make"], make, as_it_is);
    (["Model"], model, as_it_is);
    (["ExifImageHeight"; "ImageHeight"], exifImageHeight, as_it_is);
    (["ExifImageWidth"; "ImageWidth"], exifImageWidth, as_it_is);
    (["ExposureTime"], exposureTime, as_it_is);
    (["Orientation"], orientation, as_orientation);
    (["LensModel"], lensModel, as_it_is);
    (["FNumber"], fNumber, as_it_is);
    (["FocalLength"], focalLength, as_focal_length);
    (["ISO"], iso, as_iso);
    (["GPSLatitude"], latitude, as_it_is);
    (["GPSLongitude"], longitude, as_it_is);
    (["MediaGroupUUID"], livePhotoCID, as_it_is) ].

(** The date a timestamp is derived from: the merged value of the aliases,
    or the timestamp of the asset, which image extraction takes from the
    filesystem, when no alias is populated. *)
Definition date_source (sidecar embedded : option Tags) (aliases : list string)
    (of_asset : string) : JsVal :=
  nullish_or (merged sidecar embedded aliases) (VStr of_asset).

End Columns.

(** *** The rule *)

Lemma getExifProperty_merged sidecar embedded aliases :
  getExifProperty sidecar embedded aliases = merged sidecar embedded aliases.
Proof. apply getExifProperty_first_populated. Qed.

Lemma merged_skips sidecar embedded before : forall rest,
  Forall (unpopulated sidecar embedded) before ->
  first_populated_alias sidecar embedded (before ++ rest)
  = first_populated_alias sidecar embedded rest.
Proof.
  induction before as [|p before IH]; intros rest H; [reflexivity|].
  apply Forall_cons in H. destruct H as [Hp H].
  cbn [app first_populated_alias]. unfold unpopulated in Hp. rewrite Hp.
  apply IH, H.
Qed.

Lemma merged_sidecar sidecar embedded before F after v :
  Forall (unpopulated sidecar embedded) before ->
  populated sidecar F = Some v ->
  merged sidecar embedded (before ++ F :: after) = v.
Proof.
  intros Hb Hs. unfold merged. rewrite (merged_skips _ _ _ _ Hb).
  cbn [first_populated_alias]. unfold by_source_precedence. rewrite Hs. reflexivity.
Qed.

Lemma merged_embedded sidecar embedded before F after v :
  Forall (unpopulated sidecar embedded) before ->
  populated sidecar F = None -> populated embedded F = Some v ->
  merged sidecar embedded (before ++ F :: after) = v.
Proof.
  intros Hb Hs He. unfold merged. rewrite (merged_skips _ _ _ _ Hb).
  cbn [first_populated_alias]. unfold by_source_precedence. rewrite Hs, He. reflexivity.
Qed.

Lemma merged_nothing sidecar embedded aliases :
  Forall (unpopulated sidecar embedded) aliases ->
  merged sidecar embedded aliases = VNull.
Proof.
  intros H. unfold merged.
  rewrite <- (app_nil_r aliases), (merged_skips _ _ _ _ H). reflexivity.
Qed.

(** *** The record *)

Lemma imageExif_columns env asset sidecar embedded tz created modified size
    aliases column store :
  In (aliases, column, store) (columns env) ->
  column (imageExif env asset sidecar embedded tz created modified size)
  = store (merged sidecar embedded aliases).
Proof.
  intros Hin. cbn [columns In] in Hin.
  repeat (destruct Hin as [Hin|Hin];
          [injection Hin as <- <- <-; unfold imageExif;
           rewrite <- ?getExifProperty_merged; reflexivity|]).
  destruct Hin.
Qed.

Lemma readImage_dates env asset e created :
  result_of (readImage env asset) = Ok (e, created) ->
  let sidecar := sidecar_tags env asset in
  let embedded := embedded_tags env asset in
  let taken := date_source sidecar embedded ["DateTimeOriginal"; "CreateDate"]
                 (a_fileCreatedAt asset) in
  let changed := date_source sidecar embedded ["ModifyDate"] (a_fileModifiedAt asset) in
  e = imageExif env asset sidecar embedded (exifTimeZone taken) created (modifyDate e)
        (match fileSizeInByte e with VNum n => n | _ => NaN end)
  /\ exifToDate env taken = Ok created
  /\ exifToDate env changed = Ok (modifyDate e).
Proof.
  intros H. cbv zeta. rewrite readImage_derived in H. unfold derived in H.
  unfold date_source. rewrite <- !getExifProperty_merged.
  destruct (exifToDate env _) as [c|]; [|discriminate].
  destruct (exifToDate env _) as [m|]; [|discriminate].
  destruct (statSync_size env _); [|discriminate].
  injection H as <- <-. repeat split.
Qed.

Lemma date_source_populated sidecar embedded aliases of_asset v :
  merged sidecar embedded aliases = v -> is_nullish v = false ->
  date_source sidecar embedded aliases of_asset = v.
Proof. intros <- H. unfold date_source, nullish_or. rewrite H. reflexivity. Qed.

(** [F] is an alias of the list and no alias before it is populated in
    either source. *)
Definition reached (sidecar embedded : option Tags) (aliases : list string)
    (F : string) : Prop :=
  exists before after,
    aliases = (before ++ F :: after)%list
    /\ Forall (unpopulated sidecar embedded) before.

(** The timestamps of the record: the aliases requested, the timestamp of
    the asset used when no alias is populated, and the column. *)
Definition date_columns (asset : AssetEntity)
    : list (list string * string * (ExifEntity -> JsVal)) :=
  [ (["DateTimeOriginal"; "CreateDate"], a_fileCreatedAt asset, dateTimeOriginal);
    (["ModifyDate"], a_fileModifiedAt asset, modifyDate) ].

(** The file exiftool reads for a video: the sidecar when the asset has
    one, the original otherwise. *)
Definition video_tag_file (asset : AssetEntity) : string :=
  if present (a_sidecarPath asset) then default EmptyString (a_sidecarPath asset)
  else a_originalPath asset.

(** C1, amended. In the record that image extraction builds, every column
    taken from the tags holds the stored form of the merged value: the
    value of the first alias, in the order requested, that the sidecar or
    the embedded tags populate, and for that alias the sidecar value is
    taken over the embedded one.  So when the sidecar populates an alias
    and no earlier alias of the column is populated in either source, the
    column holds the sidecar value (converted as the column requires)
    whatever the embedded tags hold for it; when the sidecar does not, the
    embedded value is taken; when no alias is populated the column is the
    stored form of [null].  The two timestamps follow the same rule and
    fall back to the timestamps of the asset; the time zone comes from the
    value the capture time was derived from.  Video extraction does not
    merge: it reads the sidecar alone when the asset has one, and the
    content identifier is the one of that file. *)
Theorem merged_record_follows_precedence (env : Env) (asset : AssetEntity) :
  let sidecar := sidecar_tags env asset in
  let embedded := embedded_tags env asset in
  (forall e created,
     result_of (readImage env asset) = Ok (e, created) ->
     (forall aliases column store,
        In (aliases, column, store) (columns env) ->
        column e = store (merged sidecar embedded aliases)
        /\ (forall F v,
              reached sidecar embedded aliases F ->
              populated sidecar F = Some v ->
              column e = store v)
        /\ (forall F v,
              reached sidecar embedded aliases F ->
              populated sidecar F = None -> populated embedded F = Some v ->
              column e = store v)
        /\ (Forall (unpopulated sidecar embedded) aliases -> column e = store VNull))
     /\ (forall aliases of_asset column,
           In (aliases, of_asset, column) (date_columns asset) ->
           exifToDate env (date_source sidecar embedded aliases of_asset) = Ok (column e)
           /\ (forall F v,
                 reached sidecar embedded aliases F ->
                 populated sidecar F = Some v ->
                 exifToDate env v = Ok (column e))
           /\ (forall F v,
                 reached sidecar embedded aliases F ->
                 populated sidecar F = None -> populated embedded F = Some v ->
                 exifToDate env v = Ok (column e))
           /\ (Forall (unpopulated sidecar embedded) aliases ->
               exifToDate env (VStr of_asset) = Ok (column e)))
     /\ dateTimeOriginal e = created
     /\ timeZone e
        = exifTimeZone
            (date_source sidecar embedded ["DateTimeOriginal"; "CreateDate"]
               (a_fileCreatedAt asset)))
  /\ (forall data,
        ffprobe env (a_originalPath asset) = Some data ->
        exists created e,
          result_of (readVideo env asset) = Ok (data, created, e)
          /\ livePhotoCID e
             = or_else (get_opt (exiftool_read env (video_tag_file asset))
                          "ContentIdentifier") VNull).
Proof.
  cbv zeta. split.
  - intros e created Hread.
    destruct (readImage_dates env asset e created Hread) as (He & Hc & Hm).
    cbv zeta in He, Hc, Hm.
    assert (Hd : dateTimeOriginal e = created) by (rewrite He; reflexivity).
    split; [|split; [|split]].
    + intros aliases column store Hin.
      assert (Hcol : column e
                     = store (merged (sidecar_tags env asset) (embedded_tags env asset)
                                aliases)).
      { rewrite He. apply imageExif_columns. exact Hin. }
      split; [exact Hcol|]. split; [|split].
      * intros F v (before & after & -> & Hb) Hs.
        rewrite Hcol, (merged_sidecar _ _ _ _ _ _ Hb Hs). reflexivity.
      * intros F v (before & after & -> & Hb) Hs Hemb.
        rewrite Hcol, (merged_embedded _ _ _ _ _ _ Hb Hs Hemb). reflexivity.
      * intros Hn. rewrite Hcol, (merged_nothing _ _ _ Hn). reflexivity.
    + intros aliases of_asset column Hin.
      assert (Hcol : exifToDate env
                       (date_source (sidecar_tags env asset) (embedded_tags env asset)
                          aliases of_asset)
                     = Ok (column e)).
      { cbn [date_columns In] in Hin.
        destruct Hin as [Hin|[Hin|[]]]; injection Hin as <- <- <-.
        - rewrite Hd. exact Hc.
        - exact Hm. }
      split; [exact Hcol|]. split; [|split].
      * intros F v (before & after & -> & Hb) Hs.
        rewrite <- Hcol. f_equal. symmetry. apply date_source_populated.
        -- apply (merged_sidecar _ _ _ _ _ _ Hb Hs).
        -- apply populated_not_nullish in Hs. tauto.
      * intros F v (before & after & -> & Hb) Hs Hemb.
        rewrite <- Hcol. f_equal. symmetry. apply date_source_populated.
        -- apply (merged_embedded _ _ _ _ _ _ Hb Hs Hemb).
        -- apply populated_not_nullish in Hemb. tauto.
      * intros Hn. rewrite <- Hcol. unfold date_source.
        rewrite (merged_nothing _ _ _ Hn). reflexivity.
    + exact Hd.
    + rewrite He. reflexivity.
  - intros data Hprobe.
    unfold result_of, readVideo, probe, read_tags, bind, emit, ret.
    rewrite Hprobe. fold (video_tag_file asset). cbn.
    destruct (exiftool_read env (video_tag_file asset)) as [tags|]; cbn;
      eexists _, _; split; reflexivity.
Qed.

(** The record that image extraction builds for [other], whose sidecar
    and original both hold tags. *)
Definition other_record : ExifEntity :=
  imageExif all_ok other (Some other_sidecar_tags) (Some other_tags) VNull
    (VDate (DateMs 1682935200000)) (VDate (DateMs 1682935200000)) (Fin 2048).

Definition other_created : JsVal := VDate (DateMs 1682935200000).

Lemma merged_record_follows_precedence_witness :
  result_of (readImage all_ok other) = Ok (other_record, other_created)
  /\ populated (sidecar_tags all_ok other) "Make" = Some (VStr "Canon (edited)")
  /\ populated (embedded_tags all_ok other) "Make" = Some (VStr "Canon")
  /\ make other_record = VStr "Canon (edited)"
  /\ populated (sidecar_tags all_ok other) "ISO"
     = Some (VArr [VNum (Fin 800); VNum (Fin 1600)])
  /\ iso other_record = VNum (Fin 800)
  /\ populated (sidecar_tags all_ok other) "Model" = None
  /\ model other_record = VStr "EOS".
Proof.
  assert (Hread : result_of (readImage all_ok other) = Ok (other_record, other_created))
    by (vm_compute; reflexivity).
  destruct (merged_record_follows_precedence all_ok other) as [H _].
  destruct (H other_record other_created Hread) as (Hcols & _).
  assert (Hfirst : forall F, reached (sidecar_tags all_ok other)
                               (embedded_tags all_ok other) [F] F).
  { intros F. exists [], []. split; [reflexivity | constructor]. }
  split; [exact Hread|].
  split; [vm_compute; reflexivity|]. split; [vm_compute; reflexivity|].
  split.
  { destruct (Hcols ["Make"] make as_it_is) as (_ & Hs & _);
      [left; reflexivity|].
    apply (Hs "Make"); [apply Hfirst | vm_compute; reflexivity]. }
  split; [vm_compute; reflexivity|].
  split.
  { destruct (Hcols ["ISO"] iso as_iso) as (_ & Hs & _);
      [do 9 right; left; reflexivity|].
    apply (Hs "ISO" (VArr [VNum (Fin 800); VNum (Fin 1600)]));
      [apply Hfirst | vm_compute; reflexivity]. }
  split; [vm_compute; reflexivity|].
  destruct (Hcols ["Model"] model as_it_is) as (_ & _ & He & _);
    [right; left; reflexivity|].
  apply (He "Model"); [apply Hfirst | vm_compute; reflexivity | vm_compute; reflexivity].
Defined.

(** C1, as stated, fails.  The sidecar of [other] defines the image height
    under [ImageHeight] (100) and the original defines it under
    [ImageHeight] too (300), and under [ExifImageHeight] (200); the record
    does not hold the sidecar value: the alias requested first is taken,
    and it is populated by the original only. *)
Lemma later_sidecar_alias_loses :
  populated (sidecar_tags all_ok other) "ImageHeight" = Some (VNum (Fin 100))
  /\ populated (embedded_tags all_ok other) "ImageHeight" = Some (VNum (Fin 300))
  /\ populated (sidecar_tags all_ok other) "ExifImageHeight" = None
  /\ populated (embedded_tags all_ok other) "ExifImageHeight" = Some (VNum (Fin 200))
  /\ exists e created,
       result_of (readImage all_ok other) = Ok (e, created)
       /\ exifImageHeight e = VNum (Fin 200)
       /\ exifImageHeight e <> VNum (Fin 100).
Proof.
  repeat (split; [vm_compute; reflexivity|]).
  exists other_record, other_created.
  split; [vm_compute; reflexivity|]. split; [vm_compute; reflexivity|].
  vm_compute. discriminate.
Qed.

End Merging.
